(** * Pixel-card validation, transformation and repository layer

    A shallow embedding of the TypeScript sources
      lib/validation.ts, lib/type-validation.ts,
      services/pixelCardRepository.ts and services/pixelCardService.ts
    together with the properties the specification states about them.

    JavaScript strings are sequences of UTF-16 code units.  Numbers that
    the code uses as lengths, counts, byte sizes and page numbers are
    integers.  [validateAndNormalizePagination], which is written to
    accept any number, works on an extended rational model of IEEE
    numbers in which [Math.floor], [Math.max] and [Math.min] are exact.
    The backend, the clock, [crypto.randomUUID] and the host's [Date] are
    parameters of the operations that use them. *)

From Stdlib Require Import List ZArith NArith QArith Qround Bool Lia.
From Stdlib Require Import Ascii String DecimalString.
From Stdlib Require Import Sorted Permutation.
From Stdlib Require Qcanon.
Import ListNotations.

Set Warnings "-register-all".
Local Open Scope bool_scope.
Local Open Scope Z_scope.

(* ================================================================== *)
(** ** The JavaScript values the code manipulates *)

Module JS.

(** A string is a list of UTF-16 code units. *)
Definition char16 := N.
Definition jsstring := list char16.

Definition cu (c : ascii) : char16 := N_of_ascii c.

(** Literals: an ASCII [string] read as code units. *)
Definition js (s : string) : jsstring := map cu (list_ascii_of_string s).

Definition char_eqb (a b : char16) : bool := N.eqb a b.

Fixpoint str_eqb (a b : jsstring) : bool :=
  match a, b with
  | [], [] => true
  | x :: a', y :: b' => char_eqb x y && str_eqb a' b'
  | _, _ => false
  end.

(** [s.length] *)
Definition strlen (s : jsstring) : Z := Z.of_nat (List.length s).

Definition in_range (lo hi c : char16) : bool := (N.leb lo c) && (N.leb c hi).

Definition is_lower (c : char16) : bool := in_range (cu "a") (cu "z") c.
Definition is_upper (c : char16) : bool := in_range (cu "A") (cu "Z") c.
Definition is_digit (c : char16) : bool := in_range (cu "0") (cu "9") c.

(** ECMAScript WhiteSpace and LineTerminator code units.  This one set is
    both what [String.prototype.trim] strips and what the class [\s]
    matches. *)
Definition is_js_whitespace (c : char16) : bool :=
  in_range 9%N 13%N c                  (* TAB, LF, VT, FF, CR *)
  || N.eqb c 32%N                      (* SPACE *)
  || N.eqb c 160%N                     (* NO-BREAK SPACE *)
  || N.eqb c 5760%N                    (* U+1680 *)
  || in_range 8192%N 8202%N c          (* U+2000 .. U+200A *)
  || N.eqb c 8232%N || N.eqb c 8233%N  (* LINE and PARAGRAPH SEPARATOR *)
  || N.eqb c 8239%N                    (* U+202F *)
  || N.eqb c 8287%N                    (* U+205F *)
  || N.eqb c 12288%N                   (* U+3000 *)
  || N.eqb c 65279%N.                  (* U+FEFF *)

Fixpoint trimStart (s : jsstring) : jsstring :=
  match s with
  | c :: r => if is_js_whitespace c then trimStart r else s
  | [] => []
  end.

Definition trimEnd (s : jsstring) : jsstring := rev (trimStart (rev s)).

(** [s.trim()] *)
Definition trim (s : jsstring) : jsstring := trimEnd (trimStart s).

(** [s.includes(c)] for a one-character needle. *)
Definition includes (c : char16) (s : jsstring) : bool := existsb (char_eqb c) s.

(** [s.split(c)] for a one-character separator: always at least one piece. *)
Fixpoint split (sep : char16) (s : jsstring) : list jsstring :=
  match s with
  | [] => [[]]
  | c :: r =>
      if char_eqb c sep then [] :: split sep r
      else match split sep r with
           | p :: ps => (c :: p) :: ps
           | [] => [[c]]
           end
  end.

(** [xs.join(sep)] *)
Fixpoint join (sep : jsstring) (xs : list jsstring) : jsstring :=
  match xs with
  | [] => []
  | [x] => x
  | x :: r => x ++ sep ++ join sep r
  end.

(** [s.startsWith(p)], returning the remainder. *)
Fixpoint strip_prefix (p s : jsstring) : option jsstring :=
  match p, s with
  | [], _ => Some s
  | x :: p', y :: s' => if char_eqb x y then strip_prefix p' s' else None
  | _ :: _, [] => None
  end.

(** Decimal rendering of an integer, as [String(n)] gives it. *)
Definition string_of_Z (z : Z) : jsstring :=
  js (NilZero.string_of_int (Z.to_int z)).

(** [s.padStart(2, '0')] *)
Definition padStart2 (s : jsstring) : jsstring :=
  match s with
  | [] => [cu "0"; cu "0"]
  | [c] => [cu "0"; c]
  | _ => s
  end.

(** IEEE numbers as far as the code depends on them: the three special
    values and the finite ones, the latter read as rationals (every finite
    double is one; [-0] is [0]). *)
Inductive jsnum :=
| NaN
| PInf
| NInf
| Fin (q : Q).

Definition num_of_Z (z : Z) : jsnum := Fin (inject_Z z).

(** [Math.floor] *)
Definition Math_floor (x : jsnum) : jsnum :=
  match x with
  | Fin q => Fin (inject_Z (Qfloor q))
  | other => other
  end.

(** [a <= b], false as soon as one side is NaN. *)
Definition num_leb (a b : jsnum) : bool :=
  match a, b with
  | NaN, _ | _, NaN => false
  | NInf, _ => true
  | _, PInf => true
  | PInf, _ => false
  | _, NInf => false
  | Fin p, Fin q => Qle_bool p q
  end.

(** [Math.max] and [Math.min]: NaN if either argument is. *)
Definition Math_max (a b : jsnum) : jsnum :=
  match a, b with
  | NaN, _ | _, NaN => NaN
  | _, _ => if num_leb a b then b else a
  end.

Definition Math_min (a b : jsnum) : jsnum :=
  match a, b with
  | NaN, _ | _, NaN => NaN
  | _, _ => if num_leb a b then a else b
  end.

(** Truthiness of a number: [0] and [NaN] are falsy. *)
Definition num_truthy (x : jsnum) : bool :=
  match x with
  | NaN => false
  | Fin q => negb (Qeq_bool q 0)
  | _ => true
  end.

(** *** Rounding to a double

    The result of an arithmetic operation on finite numbers is the exact
    result rounded to the nearest double (53 significant bits, exponents
    down to [2^-1074], ties to the even significand), or an infinity when
    that overflows. *)

(** [2^e] for any integer [e]. *)
Definition pow2 (e : Z) : Q :=
  if 0 <=? e then inject_Z (2 ^ e) else 1 # Z.to_pos (2 ^ (- e)).

(** [floor (log2 (a / d))]: one of the two candidates the bit lengths
    leave. *)
Definition floor_log2 (a d : positive) : Z :=
  let k := Z.log2 (Z.pos a) - Z.log2 (Z.pos d) in
  if Qle_bool (pow2 k) (Z.pos a # d) then k else k - 1.

(** The nearest integer, ties to the even one. *)
Definition round_half_even (x : Q) : Z :=
  let f := Qfloor x in
  match (x - inject_Z f ?= 1 # 2)%Q with
  | Lt => f
  | Gt => f + 1
  | Eq => if Z.even f then f else f + 1
  end.

(** The double nearest to [a / d]; [None] when it is beyond the largest
    double. *)
Definition nearest_double (a d : positive) : option Q :=
  let e := Z.max (floor_log2 a d - 52) (-1074) in
  let m := round_half_even ((Z.pos a # d) / pow2 e) in
  let v := (inject_Z m * pow2 e)%Q in
  if Qle_bool (pow2 1024) v then None else Some (Qred v).

Definition to_double (q : Q) : jsnum :=
  match Qnum q with
  | Z0 => Fin 0
  | Z.pos a =>
      match nearest_double a (Qden q) with
      | Some v => Fin v
      | None => PInf
      end
  | Z.neg a =>
      match nearest_double a (Qden q) with
      | Some v => Fin (- v)
      | None => NInf
      end
  end.

(** Subtraction and multiplication, for the page offset. *)
Definition num_sub (a b : jsnum) : jsnum :=
  match a, b with
  | NaN, _ | _, NaN => NaN
  | PInf, PInf | NInf, NInf => NaN
  | PInf, _ | _, NInf => PInf
  | NInf, _ | _, PInf => NInf
  | Fin p, Fin q => to_double (p - q)
  end.

(** The sign of a number: [Gt] for positive, [Lt] for negative, [Eq] for
    zero and NaN. *)
Definition num_sign (a : jsnum) : comparison :=
  match a with
  | NaN => Eq
  | PInf => Gt
  | NInf => Lt
  | Fin q => (q ?= 0)%Q
  end.

Definition num_mul (a b : jsnum) : jsnum :=
  match a, b with
  | NaN, _ | _, NaN => NaN
  | Fin p, Fin q => to_double (p * q)
  | _, _ =>
      match num_sign a, num_sign b with
      | Eq, _ | _, Eq => NaN
      | Gt, Gt | Lt, Lt => PInf
      | _, _ => NInf
      end
  end.

(** Values of type [any]. *)
Inductive jsvalue :=
| JUndefined
| JNull
| JBool (b : bool)
| JNumber (n : jsnum)
| JString (s : jsstring)
| JObject (props : list (string * jsvalue)).

(** [!!v] *)
Definition truthy (v : jsvalue) : bool :=
  match v with
  | JUndefined | JNull => false
  | JBool b => b
  | JNumber n => num_truthy n
  | JString s => match s with [] => false | _ => true end
  | JObject _ => true
  end.

(** [typeof v] *)
Definition typeof (v : jsvalue) : string :=
  match v with
  | JUndefined => "undefined"
  | JNull => "object"
  | JBool _ => "boolean"
  | JNumber _ => "number"
  | JString _ => "string"
  | JObject _ => "object"
  end.

(** [o.key] on an object; [undefined] when the property is absent. *)
Fixpoint get_prop (key : string) (props : list (string * jsvalue)) : jsvalue :=
  match props with
  | [] => JUndefined
  | (k, v) :: r => if String.eqb k key then v else get_prop key r
  end.

(** [v.key]: [undefined] unless [v] is an object that has the property. *)
Definition prop (v : jsvalue) (key : string) : jsvalue :=
  match v with
  | JObject props => get_prop key props
  | _ => JUndefined
  end.

(** The characters of a value known to be a string. *)
Definition as_string (v : jsvalue) : jsstring :=
  match v with
  | JString s => s
  | _ => []
  end.

(** What a [throw] carries.  Every value thrown in the code modelled here
    is an instance of [Error]. *)
Inductive Exn :=
| Error (message : jsstring)
| RangeError (message : jsstring)
| DOMException (name : jsstring).

Inductive Result (A : Type) :=
| Ok (a : A)
| Throw (e : Exn).
Arguments Ok {A} a.
Arguments Throw {A} e.

(** [a < b], false as soon as one side is NaN. *)
Definition num_ltb (a b : jsnum) : bool :=
  match a, b with
  | NaN, _ | _, NaN => false
  | _, _ => negb (num_leb b a)
  end.

(** The number held by a value known to be one. *)
Definition as_number (v : jsvalue) : jsnum :=
  match v with
  | JNumber n => n
  | _ => NaN
  end.

(** [s.replace(/\s+/g, ' ')]: every maximal run of white space becomes one
    space.  [in_run] tells that the character before was white space. *)
Fixpoint collapse_whitespace (in_run : bool) (s : jsstring) : jsstring :=
  match s with
  | [] => []
  | c :: r =>
      if is_js_whitespace c
      then (if in_run then collapse_whitespace true r
            else cu " " :: collapse_whitespace true r)
      else c :: collapse_whitespace false r
  end.

(** [s.substring(0, n)] *)
Definition substring0 (n : nat) (s : jsstring) : jsstring := firstn n s.

(** [Math.round] on a finite number: the nearest integer, halves upwards. *)
Definition Math_round (q : Q) : Z := Qfloor (q + (1 # 2)).

End JS.
Import JS.

(* ================================================================== *)
(** ** lib/validation.ts *)

Module Validation.

Record ValidationResult := mkValidation {
  isValid : bool;
  errors : list jsstring
}.

Definition USER_NAME_MAX_LENGTH : Z := 50.
Definition USER_NAME_MIN_LENGTH : Z := 1.
Definition IMAGE_MAX_SIZE_BYTES : Z := 10 * 1024 * 1024.
Definition ALLOWED_MIME_TYPES : list jsstring := [js "image/png"; js "image/jpeg"].

(** [/^data:image\/(png|jpeg);base64,/.test(s)]; gives what follows the
    matched prefix. *)
Definition BASE64_IMAGE_PREFIX_PATTERN (s : jsstring) : option jsstring :=
  match strip_prefix (js "data:image/png;base64,") s with
  | Some r => Some r
  | None => strip_prefix (js "data:image/jpeg;base64,") s
  end.

(** The character class [[a-zA-Z0-9\s\-_'.]]. *)
Definition name_char (c : char16) : bool :=
  is_lower c || is_upper c || is_digit c || is_js_whitespace c
  || char_eqb c (cu "-") || char_eqb c (cu "_")
  || char_eqb c (cu "'") || char_eqb c (cu ".").

(** [/^[a-zA-Z0-9\s\-_'.]+$/.test(s)] *)
Definition validNamePattern (s : jsstring) : bool :=
  match s with
  | [] => false
  | _ => forallb name_char s
  end.

Definition msg_name_required := js "User name is required".
Definition msg_name_empty := js "User name cannot be empty".
Definition msg_name_too_long :=
  js "User name cannot exceed " ++ string_of_Z USER_NAME_MAX_LENGTH ++ js " characters".
Definition msg_name_chars :=
  js "User name contains invalid characters. Only letters, numbers, spaces, hyphens, underscores, apostrophes, and periods are allowed".

(** [errors.push(m)] when [cond] holds. *)
Definition push_if (cond : bool) (m : jsstring) (errs : list jsstring) : list jsstring :=
  if cond then errs ++ [m] else errs.

Definition finish (errs : list jsstring) : ValidationResult :=
  mkValidation (match errs with [] => true | _ => false end) errs.

Definition validateUserName (userName : jsvalue) : ValidationResult :=
  let errors := [] in
  if negb (truthy userName) || negb (String.eqb (typeof userName) "string")
  then mkValidation false (errors ++ [msg_name_required])
  else
    let trimmedName := trim (as_string userName) in
    let errors := push_if (strlen trimmedName <? USER_NAME_MIN_LENGTH) msg_name_empty errors in
    let errors := push_if (strlen trimmedName >? USER_NAME_MAX_LENGTH) msg_name_too_long errors in
    let errors := push_if (negb (validNamePattern trimmedName)) msg_name_chars errors in
    finish errors.

(** The base64 alphabet [[A-Za-z0-9+/]]. *)
Definition b64_char (c : char16) : bool :=
  is_upper c || is_lower c || is_digit c
  || char_eqb c (cu "+") || char_eqb c (cu "/").

Fixpoint drop_while (p : char16 -> bool) (s : jsstring) : jsstring :=
  match s with
  | c :: r => if p c then drop_while p r else s
  | [] => []
  end.

(** [/^[A-Za-z0-9+/]*={0,2}$/.test(s)]: the alphabet run is maximal because
    [=] is not in the alphabet, and at most two [=] may follow it. *)
Definition base64Pattern (s : jsstring) : bool :=
  match drop_while b64_char s with
  | [] => true
  | [c] => char_eqb c (cu "=")
  | [c; d] => char_eqb c (cu "=") && char_eqb d (cu "=")
  | _ => false
  end.

Definition msg_image_required := js "Image data is required".
Definition msg_image_prefix := js "Image data must be a valid PNG or JPEG in base64 format".
Definition msg_image_format := js "Invalid base64 image format".
Definition msg_image_encoding := js "Invalid base64 encoding".
Definition msg_image_size :=
  js "Image size exceeds maximum limit of "
  ++ string_of_Z (IMAGE_MAX_SIZE_BYTES / (1024 * 1024)) ++ js "MB".

(** [imageData.split(',')[1]]; [None] is [undefined]. *)
Definition split_comma_1 (s : jsstring) : option jsstring :=
  nth_error (split (cu ",") s) 1.

(** [(base64Data.length * 3) / 4], a number that need not be whole. *)
Definition estimatedSize (base64Data : jsstring) : Q :=
  (strlen base64Data * 3) # 4.

(** Nothing inside the source's [try] block can throw, so its [catch]
    branch has no counterpart here. *)
Definition validateImageData (imageData : jsvalue) : ValidationResult :=
  let errors := [] in
  if negb (truthy imageData) || negb (String.eqb (typeof imageData) "string")
  then mkValidation false (errors ++ [msg_image_required])
  else
    match BASE64_IMAGE_PREFIX_PATTERN (as_string imageData) with
    | None => mkValidation false (errors ++ [msg_image_prefix])
    | Some _ =>
        match split_comma_1 (as_string imageData) with
        | None | Some [] => mkValidation false (errors ++ [msg_image_format])
        | Some base64Data =>
            if negb (base64Pattern base64Data)
            then mkValidation false (errors ++ [msg_image_encoding])
            else
              let errors :=
                push_if (negb (Qle_bool (estimatedSize base64Data)
                                        (inject_Z IMAGE_MAX_SIZE_BYTES)))
                        msg_image_size errors in
              finish errors
        end
    end.

Definition msg_request_required := js "Request data is required".

Definition validateCreatePixelCardRequest (request : jsvalue) : ValidationResult :=
  let errors := [] in
  if negb (truthy request) || negb (String.eqb (typeof request) "object")
  then mkValidation false [msg_request_required]
  else
    let userNameValidation := validateUserName (prop request "userName") in
    let errors :=
      if negb (isValid userNameValidation)
      then errors ++ Validation.errors userNameValidation else errors in
    let imageDataValidation := validateImageData (prop request "imageData") in
    let errors :=
      if negb (isValid imageDataValidation)
      then errors ++ Validation.errors imageDataValidation else errors in
    finish errors.

(** [/^data:([^;]+);base64,/]: the captured group, when the pattern matches. *)
Fixpoint take_until_semicolon (s : jsstring) : jsstring * jsstring :=
  match s with
  | [] => ([], [])
  | c :: r =>
      if char_eqb c (cu ";") then ([], s)
      else let (a, b) := take_until_semicolon r in (c :: a, b)
  end.

Definition extractMimeTypeFromDataUri (dataUri : jsstring) : option jsstring :=
  match strip_prefix (js "data:") dataUri with
  | None => None
  | Some r =>
      match take_until_semicolon r with
      | ([], _) => None
      | (mime, rest) =>
          match strip_prefix (js ";base64,") rest with
          | Some _ => Some mime
          | None => None
          end
      end
  end.

Definition msg_mime_required := js "MIME type is required".
Definition msg_mime_invalid :=
  js "Invalid MIME type. Allowed types: " ++ join (js ", ") ALLOWED_MIME_TYPES.

Definition validateMimeType (mimeType : jsvalue) : ValidationResult :=
  let errors := [] in
  if negb (truthy mimeType) || negb (String.eqb (typeof mimeType) "string")
  then mkValidation false (errors ++ [msg_mime_required])
  else
    let errors :=
      push_if (negb (existsb (str_eqb (as_string mimeType)) ALLOWED_MIME_TYPES))
              msg_mime_invalid errors in
    finish errors.

Definition msg_size_positive := js "File size must be a positive number".
Definition msg_size_exceeds :=
  js "File size exceeds maximum limit of "
  ++ string_of_Z (IMAGE_MAX_SIZE_BYTES / (1024 * 1024)) ++ js "MB".

Definition validateFileSize (fileSize : jsvalue) : ValidationResult :=
  let errors := [] in
  if negb (String.eqb (typeof fileSize) "number")
     || num_leb (as_number fileSize) (num_of_Z 0)
  then mkValidation false (errors ++ [msg_size_positive])
  else
    let errors :=
      push_if (num_ltb (num_of_Z IMAGE_MAX_SIZE_BYTES) (as_number fileSize))
              msg_size_exceeds errors in
    finish errors.

Definition msg_page := js "Page must be a positive number starting from 1".
Definition msg_limit := js "Limit must be a number between 1 and 100".

(** [page] and [limit] are numbers or [undefined]; on a number the
    [typeof] test holds by typing. *)
Definition validatePaginationParams (page limit : option jsnum) : ValidationResult :=
  let errors := [] in
  let errors :=
    match page with
    | Some p => push_if (num_ltb p (num_of_Z 1)) msg_page errors
    | None => errors
    end in
  let errors :=
    match limit with
    | Some l =>
        push_if (num_ltb l (num_of_Z 1) || num_ltb (num_of_Z 100) l) msg_limit errors
    | None => errors
    end in
  finish errors.

Definition sanitizeUserName (userName : jsvalue) : jsstring :=
  if negb (truthy userName) || negb (String.eqb (typeof userName) "string")
  then []
  else
    substring0 (Z.to_nat USER_NAME_MAX_LENGTH)
      (collapse_whitespace false (trim (as_string userName))).

End Validation.

(* ================================================================== *)
(** ** types/supabase.ts: the shapes of one entity *)

Module Types.

(** The persisted row (snake_case columns). *)
Record PixelCardRow := mkRow {
  row_id : jsstring;
  user_name : jsstring;
  image_path : jsstring;
  image_url : jsstring;
  created_at : jsstring;
  updated_at : jsstring;
  file_size : Z;
  mime_type : jsstring
}.

(** A [Date] object: its time value in milliseconds since the epoch, or
    [None] for an invalid date. *)
Definition Date := option Z.

(** The in-memory entity. *)
Record PixelCard := mkCard {
  id : jsstring;
  userName : jsstring;
  imagePath : jsstring;
  imageUrl : jsstring;
  createdAt : Date;
  updatedAt : Date;
  fileSize : Z;
  mimeType : jsstring
}.

(** The outward response: a reduced view of the entity. *)
Record PixelCardResponse := mkResponse {
  resp_id : jsstring;
  resp_userName : jsstring;
  resp_imageUrl : jsstring;
  resp_createdAt : jsstring;
  resp_fileSize : Z
}.

Record Pagination := mkPagination {
  page : Z;
  limit : Z;
  total : Z;
  totalPages : Z
}.

Record GalleryResponse := mkGallery {
  pixelCards : list PixelCardResponse;
  pagination : Pagination
}.

Record PaginationParams := mkParams {
  params_page : option Z;
  params_limit : option Z
}.

Record CreatePixelCardRequest := mkRequest {
  req_userName : jsstring;
  req_imageData : jsstring
}.

Record PixelCardInsertPayload := mkInsert {
  ins_user_name : jsstring;
  ins_image_path : jsstring;
  ins_image_url : jsstring;
  ins_file_size : Z;
  ins_mime_type : jsstring
}.

(** The host's [Date]: parsing of a time stamp ([new Date(text)]) and
    [Date.prototype.toISOString] on a valid time value.  Parsing is
    implementation-defined outside the ISO format, so both are taken from
    the host. *)
Record Host := mkHost {
  Date_parse : jsstring -> Date;
  Date_iso : Z -> jsstring
}.

Definition new_Date (h : Host) (text : jsstring) : Date := Date_parse h text.

(** [d.toISOString()] throws a [RangeError] on an invalid date. *)
Definition toISOString (h : Host) (d : Date) : Result jsstring :=
  match d with
  | Some t => Ok (Date_iso h t)
  | None => Throw (RangeError (js "Invalid time value"))
  end.

End Types.
Import Types.

(* ================================================================== *)
(** ** lib/type-validation.ts *)

Module TypeValidation.

(** [validatePixelCardRow]: on a row of the declared type the [typeof]
    tests hold by typing; what remains is the test on the MIME type. *)
Definition validatePixelCardRow (row : PixelCardRow) : bool :=
  str_eqb (mime_type row) (js "image/png") || str_eqb (mime_type row) (js "image/jpeg").

Definition transformRowToPixelCard (h : Host) (row : PixelCardRow) : Result PixelCard :=
  if negb (validatePixelCardRow row) then Throw (Error (js "Invalid pixel card row data"))
  else Ok {|
    id := row_id row;
    userName := user_name row;
    imagePath := image_path row;
    imageUrl := image_url row;
    createdAt := new_Date h (created_at row);
    updatedAt := new_Date h (updated_at row);
    fileSize := file_size row;
    mimeType := mime_type row
  |}.

Definition transformPixelCardToResponse (h : Host) (pixelCard : PixelCard)
  : Result PixelCardResponse :=
  match toISOString h (createdAt pixelCard) with
  | Throw e => Throw e
  | Ok iso => Ok {|
      resp_id := id pixelCard;
      resp_userName := userName pixelCard;
      resp_imageUrl := imageUrl pixelCard;
      resp_createdAt := iso;
      resp_fileSize := fileSize pixelCard
    |}
  end.

Definition transformRowToResponse (row : PixelCardRow) : Result PixelCardResponse :=
  if negb (validatePixelCardRow row) then Throw (Error (js "Invalid pixel card row data"))
  else Ok {|
    resp_id := row_id row;
    resp_userName := user_name row;
    resp_imageUrl := image_url row;
    resp_createdAt := created_at row;
    resp_fileSize := file_size row
  |}.

(** On a request of the declared type the test [validateCreateRequest]
    holds by typing. *)
Definition createInsertFromRequest (request : CreatePixelCardRequest)
    (imagePath imageUrl : jsstring) (fileSize : Z) (mimeType : jsstring)
  : PixelCardInsertPayload :=
  {| ins_user_name := trim (req_userName request);
     ins_image_path := imagePath;
     ins_image_url := imageUrl;
     ins_file_size := fileSize;
     ins_mime_type := mimeType |}.

Record NormalizedPagination := mkNormalized {
  safe_page : jsnum;
  safe_limit : jsnum;
  safe_offset : jsnum
}.

(** [x || d] on an optional number. *)
Definition num_or (x : option jsnum) (d : jsnum) : jsnum :=
  match x with
  | Some n => if num_truthy n then n else d
  | None => d
  end.

Definition validateAndNormalizePagination (page limit : option jsnum)
  : NormalizedPagination :=
  let safePage := Math_max (num_of_Z 1) (Math_floor (num_or page (num_of_Z 1))) in
  let safeLimit :=
    Math_min (num_of_Z 100)
             (Math_max (num_of_Z 1) (Math_floor (num_or limit (num_of_Z 20)))) in
  {| safe_page := safePage;
     safe_limit := safeLimit;
     safe_offset := num_mul (num_sub safePage (num_of_Z 1)) safeLimit |}.

Definition isMimeType (value : jsstring) : bool :=
  str_eqb value (js "image/png") || str_eqb value (js "image/jpeg").

Definition extractAndValidateMimeType (dataUri : jsstring) : Result jsstring :=
  match Validation.extractMimeTypeFromDataUri dataUri with
  | None => Throw (Error (js "Invalid data URI format"))
  | Some mimeType =>
      if negb (isMimeType mimeType)
      then Throw (Error (js "Unsupported MIME type: " ++ mimeType
                         ++ js ". Only PNG and JPEG are allowed."))
      else Ok mimeType
  end.

(** [(s.match(/=/g) || []).length] *)
Definition count_eq_signs (s : jsstring) : Z :=
  Z.of_nat (List.length (filter (char_eqb (cu "=")) s)).

Definition calculateBase64FileSize (base64Data : jsstring) : Z :=
  let base64Content :=
    if includes (cu ",") base64Data
    then nth 1 (split (cu ",") base64Data) []
    else base64Data in
  let padding := count_eq_signs base64Content in
  (strlen base64Content * 3) / 4 - padding.

End TypeValidation.

(* ================================================================== *)
(** ** lib/typeUtils.ts *)

Module TypeUtils.

Definition isValidFileSize (size : jsvalue) : bool :=
  String.eqb (typeof size) "number"
  && num_ltb (num_of_Z 0) (as_number size)
  && num_leb (as_number size) (num_of_Z (10 * 1024 * 1024)).

End TypeUtils.

(* ================================================================== *)
(** ** lib/supabase.ts: the backend client, as the code sees it *)

Module Supabase.

Record PgError := mkPgError {
  code : jsstring;
  message : jsstring
}.

(** A request assembled by the query builder:
    [from(t).select(cols, opts).eq(c, v).order(c, dir).range(a, b).limit(n).single()]. *)
Record Query := mkQuery {
  q_from : string;
  q_select : string;
  q_count_head : bool;
  q_eq : option (string * jsstring);
  q_order_desc : option string;
  q_range : option (Z * Z);
  q_limit : option jsnum;
  q_single : bool
}.

Definition from_select (table cols : string) : Query :=
  {| q_from := table; q_select := cols; q_count_head := false; q_eq := None;
     q_order_desc := None; q_range := None; q_limit := None; q_single := false |}.

Definition count_head (q : Query) : Query :=
  {| q_from := q_from q; q_select := q_select q; q_count_head := true;
     q_eq := q_eq q; q_order_desc := q_order_desc q; q_range := q_range q;
     q_limit := q_limit q; q_single := q_single q |}.

(** [.eq(col, v)] *)
Definition eq_col (col : string) (v : jsstring) (q : Query) : Query :=
  {| q_from := q_from q; q_select := q_select q; q_count_head := q_count_head q;
     q_eq := Some (col, v); q_order_desc := q_order_desc q; q_range := q_range q;
     q_limit := q_limit q; q_single := q_single q |}.

(** [.order(col, { ascending: false })] *)
Definition order_desc (col : string) (q : Query) : Query :=
  {| q_from := q_from q; q_select := q_select q; q_count_head := q_count_head q;
     q_eq := q_eq q; q_order_desc := Some col; q_range := q_range q;
     q_limit := q_limit q; q_single := q_single q |}.

Definition range (a b : Z) (q : Query) : Query :=
  {| q_from := q_from q; q_select := q_select q; q_count_head := q_count_head q;
     q_eq := q_eq q; q_order_desc := q_order_desc q; q_range := Some (a, b);
     q_limit := q_limit q; q_single := q_single q |}.

(** [.limit(n)] *)
Definition limit_to (n : jsnum) (q : Query) : Query :=
  {| q_from := q_from q; q_select := q_select q; q_count_head := q_count_head q;
     q_eq := q_eq q; q_order_desc := q_order_desc q; q_range := q_range q;
     q_limit := Some n; q_single := q_single q |}.

Definition single (q : Query) : Query :=
  {| q_from := q_from q; q_select := q_select q; q_count_head := q_count_head q;
     q_eq := q_eq q; q_order_desc := q_order_desc q; q_range := q_range q;
     q_limit := q_limit q; q_single := true |}.

(** What awaiting a request resolves to: [{ data, error, count }]. *)
Record Reply (D : Type) := mkReply {
  data : option D;
  error : option PgError;
  count : option Z
}.
Arguments mkReply {D} _ _ _.
Arguments data {D} _.
Arguments error {D} _.
Arguments count {D} _.

Record UploadOptions := mkUploadOptions {
  contentType : jsstring;
  cacheControl : jsstring;
  upsert : bool
}.

(** [{ data: { path } | null, error }] of a storage upload. *)
Record UploadReply := mkUploadReply {
  upload_path : option jsstring;
  upload_error : option PgError
}.

(** The backend is an external collaborator: all the code knows of it is
    what each request resolves to. *)
Record Backend := mkBackend {
  select_rows : Query -> Reply (list PixelCardRow);
  select_single : Query -> Reply PixelCardRow;
  select_single_id : Query -> Reply jsstring;
  insert_single : PixelCardInsertPayload -> Reply PixelCardRow;
  storage_upload : jsstring -> jsstring -> list N -> UploadOptions -> UploadReply;
  storage_getPublicUrl : jsstring -> jsstring -> option jsstring
}.

(** What an operation does that the outside can observe. *)
Inductive Event :=
| EvSelect (q : Query)
| EvInsert (payload : PixelCardInsertPayload)
| EvUpload (bucket path : jsstring) (body : list N) (options : UploadOptions)
| EvGetPublicUrl (bucket path : jsstring)
| EvConsoleError (label : jsstring) (e : Exn).

Definition is_backend_call (ev : Event) : bool :=
  match ev with
  | EvConsoleError _ _ => false
  | _ => true
  end.

(** An asynchronous operation: given the backend, a result or a thrown
    error, and the events it caused, in order. *)
Definition M (A : Type) : Type := Backend -> Result A * list Event.

Definition ret {A} (a : A) : M A := fun _ => (Ok a, []).
Definition throw {A} (e : Exn) : M A := fun _ => (Throw e, []).

Definition bind {A B} (m : M A) (f : A -> M B) : M B :=
  fun b =>
    match m b with
    | (Ok a, t) => let (r, t') := f a b in (r, t ++ t')
    | (Throw e, t) => (Throw e, t)
    end.

(** [try { m } catch (error) { handler error }] *)
Definition try_catch {A} (m : M A) (handler : Exn -> M A) : M A :=
  fun b =>
    match m b with
    | (Ok a, t) => (Ok a, t)
    | (Throw e, t) => let (r, t') := handler e b in (r, t ++ t')
    end.

Definition lift {A} (r : Result A) : M A := fun _ => (r, []).

Definition await_rows (q : Query) : M (Reply (list PixelCardRow)) :=
  fun b => (Ok (select_rows b q), [EvSelect q]).
Definition await_single (q : Query) : M (Reply PixelCardRow) :=
  fun b => (Ok (select_single b q), [EvSelect q]).
Definition await_single_id (q : Query) : M (Reply jsstring) :=
  fun b => (Ok (select_single_id b q), [EvSelect q]).
Definition await_insert (p : PixelCardInsertPayload) : M (Reply PixelCardRow) :=
  fun b => (Ok (insert_single b p), [EvInsert p]).
Definition await_upload (bucket path : jsstring) (body : list N) (o : UploadOptions)
  : M UploadReply :=
  fun b => (Ok (storage_upload b bucket path body o), [EvUpload bucket path body o]).
Definition getPublicUrl (bucket path : jsstring) : M (option jsstring) :=
  fun b => (Ok (storage_getPublicUrl b bucket path), [EvGetPublicUrl bucket path]).
Definition console_error (label : jsstring) (e : Exn) : M unit :=
  fun _ => (Ok tt, [EvConsoleError label e]).

(** The common [catch] block:
    [console.error(label, error); throw error instanceof Error ? error : new Error(..)].
    Every value thrown in this code is an [Error], so it is thrown again as
    it is. *)
Definition rethrow {A} (label : string) (e : Exn) : M A :=
  bind (console_error (js label) e) (fun _ => throw e).

End Supabase.
Import Supabase.

Notation "x <- m ;; k" := (bind m (fun x => k))
  (at level 61, m at next level, right associativity).
Notation "m ;;; k" := (bind m (fun _ => k))
  (at level 61, right associativity).

(* ================================================================== *)
(** ** services/pixelCardRepository.ts *)

Module PixelCardRepository.

Definition DEFAULT_PAGE_SIZE : Z := 12.
Definition MAX_PAGE_SIZE : Z := 50.

(** [x || d] on an optional integer. *)
Definition or_default (x : option Z) (d : Z) : Z :=
  match x with
  | Some n => if n =? 0 then d else n
  | None => d
  end.

(** [Math.ceil(a / b)] for a positive [b]. *)
Definition ceil_div (a b : Z) : Z := - ((- a) / b).

Definition is_hex (c : char16) : bool :=
  is_digit c || in_range (cu "a") (cu "f") c || in_range (cu "A") (cu "F") c.

Definition is_dash (c : char16) : bool := char_eqb c (cu "-").

(** A regular expression without alternatives or repetition of unknown
    length: one character class per position. *)
Fixpoint match_classes (classes : list (char16 -> bool)) (s : jsstring) : bool :=
  match classes, s with
  | [], [] => true
  | p :: classes', c :: s' => p c && match_classes classes' s'
  | _, _ => false
  end.

(** [/^[0-9a-f]{8}-[0-9a-f]{4}-[1-5][0-9a-f]{3}-[89ab][0-9a-f]{3}-[0-9a-f]{12}$/i] *)
Definition uuidRegex : list (char16 -> bool) :=
  repeat is_hex 8 ++ [is_dash]
  ++ repeat is_hex 4 ++ [is_dash]
  ++ [in_range (cu "1") (cu "5")] ++ repeat is_hex 3 ++ [is_dash]
  ++ [fun c => char_eqb c (cu "8") || char_eqb c (cu "9")
               || char_eqb c (cu "a") || char_eqb c (cu "b")
               || char_eqb c (cu "A") || char_eqb c (cu "B")]
  ++ repeat is_hex 3 ++ [is_dash]
  ++ repeat is_hex 12.

Definition isValidUUID (uuid : jsstring) : bool := match_classes uuidRegex uuid.

Definition transformRowToPixelCard (h : Host) (row : PixelCardRow) : PixelCard :=
  {| id := row_id row;
     userName := user_name row;
     imagePath := image_path row;
     imageUrl := image_url row;
     createdAt := new_Date h (created_at row);
     updatedAt := new_Date h (updated_at row);
     fileSize := file_size row;
     mimeType := mime_type row |}.

Definition transformRowToResponse (row : PixelCardRow) : PixelCardResponse :=
  {| resp_id := row_id row;
     resp_userName := user_name row;
     resp_imageUrl := image_url row;
     resp_createdAt := created_at row;
     resp_fileSize := file_size row |}.


Definition getPixelCardById (h : Host) (id : jsstring) : M (option PixelCard) :=
  try_catch
    (if negb (isValidUUID id) then throw (Error (js "Invalid pixel card ID format"))
     else
       r <- await_single (single (eq_col "id" id (from_select "pixel_cards" "*"))) ;;
       match error r with
       | Some e =>
           if str_eqb (code e) (js "PGRST116") then ret None
           else throw (Error (js "Failed to fetch pixel card: " ++ message e))
       | None =>
           match data r with
           | None => ret None
           | Some row => ret (Some (transformRowToPixelCard h row))
           end
       end)
    (rethrow "Failed to get pixel card by ID:").

Definition pixelCardExists (id : jsstring) : M bool :=
  try_catch
    (if negb (isValidUUID id) then ret false
     else
       r <- await_single_id (single (eq_col "id" id (from_select "pixel_cards" "id"))) ;;
       match error r with
       | Some e =>
           if str_eqb (code e) (js "PGRST116") then ret false
           else throw (Error (js "Failed to check pixel card existence: " ++ message e))
       | None =>
           ret (match data r with Some _ => true | None => false end)
       end)
    (fun e => console_error (js "Error checking pixel card existence:") e ;;; ret false).

(** [limit] is the argument as passed; left out, it is 6.  Nothing
    guards it against NaN or a fraction. *)
Definition getRecentPixelCards (limit : option jsnum) : M (list PixelCardResponse) :=
  try_catch
    (let limit := match limit with Some n => n | None => num_of_Z 6 end in
     let safeLimit :=
       Math_min (Math_max (num_of_Z 1) limit) (num_of_Z MAX_PAGE_SIZE) in
     r <- await_rows
            (limit_to safeLimit (order_desc "created_at" (from_select "pixel_cards" "*"))) ;;
     match error r with
     | Some e => throw (Error (js "Failed to fetch recent pixel cards: " ++ message e))
     | None =>
         ret (map transformRowToResponse
                  (match data r with Some d => d | None => [] end))
     end)
    (rethrow "Failed to get recent pixel cards:").

Definition getPixelCardsByUserName (userName : jsstring) (params : PaginationParams)
  : M GalleryResponse :=
  try_catch
    (if negb (truthy (JString userName)) || (strlen (trim userName) =? 0)
     then throw (Error (js "User name is required"))
     else
       let page := Z.max 1 (or_default (params_page params) 1) in
       let limit :=
         Z.min (Z.max 1 (or_default (params_limit params) DEFAULT_PAGE_SIZE))
               MAX_PAGE_SIZE in
       let offset := (page - 1) * limit in
       r <- await_rows
              (eq_col "user_name" userName (count_head (from_select "pixel_cards" "*"))) ;;
       match error r with
       | Some countError =>
           throw (Error (js "Failed to get total count: " ++ message countError))
       | None =>
           let total := or_default (count r) 0 in
           let totalPages := ceil_div total limit in
           if total =? 0 then
             ret {| pixelCards := [];
                    pagination := {| page := page; limit := limit;
                                     total := 0; totalPages := 0 |} |}
           else
             r2 <- await_rows
                     (range offset (offset + limit - 1)
                        (order_desc "created_at"
                           (eq_col "user_name" userName
                              (from_select "pixel_cards" "*")))) ;;
             match error r2 with
             | Some e => throw (Error (js "Failed to fetch pixel cards: " ++ message e))
             | None =>
                 let rows := match data r2 with Some d => d | None => [] end in
                 let pixelCards := map transformRowToResponse rows in
                 ret {| pixelCards := pixelCards;
                        pagination := {| page := page; limit := limit;
                                         total := total; totalPages := totalPages |} |}
             end
       end)
    (rethrow "Failed to get pixel cards by user name:").

End PixelCardRepository.

(* ================================================================== *)
(** ** services/pixelCardService.ts *)

Module PixelCardService.

Definition STORAGE_BUCKET : jsstring := js "pixel-images".

(** What the service reads from its surroundings besides the backend:
    [crypto.randomUUID()] and the current date. *)
Record Env := mkEnv {
  host : Host;
  randomUUID : jsstring;
  now_fullYear : Z;
  now_month : Z
}.

(** *** [atob]: the forgiving base64 decoder of the platform *)

Definition is_ascii_whitespace (c : char16) : bool :=
  N.eqb c 9%N || N.eqb c 10%N || N.eqb c 12%N || N.eqb c 13%N || N.eqb c 32%N.

Definition is_pad (c : char16) : bool := char_eqb c (cu "=").

Definition b64_value (c : char16) : N :=
  if is_upper c then (c - cu "A")%N
  else if is_lower c then (c - cu "a" + 26)%N
  else if is_digit c then (c - cu "0" + 52)%N
  else if char_eqb c (cu "+") then 62%N
  else 63%N.

(** Four sextets give three bytes; a last group of three gives two bytes
    and one of two gives one byte, the spare bits being dropped. *)
Fixpoint decode_sextets (v : list N) : list N :=
  match v with
  | a :: b :: c :: d :: r =>
      (a * 4 + b / 16)%N :: ((b mod 16) * 16 + c / 4)%N :: ((c mod 4) * 64 + d)%N
      :: decode_sextets r
  | [a; b; c] => [(a * 4 + b / 16)%N; ((b mod 16) * 16 + c / 4)%N]
  | [a; b] => [(a * 4 + b / 16)%N]
  | _ => []
  end.

(** Removes one or two trailing [=]. *)
Definition strip_padding (s : jsstring) : jsstring :=
  match rev s with
  | c :: d :: r => if is_pad c then (if is_pad d then rev r else rev (d :: r)) else s
  | [c] => if is_pad c then [] else s
  | [] => s
  end.

(** [atob(s)]; [None] stands for the [InvalidCharacterError] it throws. *)
Definition atob (s : jsstring) : option (list N) :=
  let s1 := filter (fun c => negb (is_ascii_whitespace c)) s in
  let s2 := if strlen s1 mod 4 =? 0 then strip_padding s1 else s1 in
  if strlen s2 mod 4 =? 1 then None
  else if forallb Validation.b64_char s2 then Some (decode_sextets (map b64_value s2))
  else None.

Record ProcessedImage := mkProcessed {
  imageBuffer : list N;
  proc_mimeType : jsstring;
  proc_fileSize : Z
}.

Definition mime_allowed (m : jsstring) : bool :=
  existsb (str_eqb m) Validation.ALLOWED_MIME_TYPES.

(** The [catch] of the source rethrows what it caught, every thrown value
    being an [Error]. *)
Definition processImageData (imageData : jsstring) : Result ProcessedImage :=
  match Validation.extractMimeTypeFromDataUri imageData with
  | None =>
      Throw (Error (js "Unsupported image format. Allowed formats: "
                    ++ join (js ", ") Validation.ALLOWED_MIME_TYPES))
  | Some mimeType =>
      if negb (truthy (JString mimeType)) || negb (mime_allowed mimeType) then
        Throw (Error (js "Unsupported image format. Allowed formats: "
                      ++ join (js ", ") Validation.ALLOWED_MIME_TYPES))
      else
        match Validation.split_comma_1 imageData with
        | None | Some [] => Throw (Error (js "No image data found"))
        | Some base64Data =>
            match atob base64Data with
            | None => Throw (DOMException (js "InvalidCharacterError"))
            | Some imageBuffer =>
                let fileSize := Z.of_nat (List.length imageBuffer) in
                if fileSize >? Validation.IMAGE_MAX_SIZE_BYTES then
                  Throw (Error (js "File size exceeds maximum allowed size of "
                                ++ string_of_Z (Validation.IMAGE_MAX_SIZE_BYTES / (1024 * 1024))
                                ++ js "MB"))
                else if fileSize =? 0 then Throw (Error (js "Image data is empty"))
                else Ok {| imageBuffer := imageBuffer;
                           proc_mimeType := mimeType;
                           proc_fileSize := fileSize |}
            end
        end
  end.

Definition request_value (request : CreatePixelCardRequest) : jsvalue :=
  JObject [("userName"%string, JString (req_userName request));
           ("imageData"%string, JString (req_imageData request))].

Definition validateCreateRequest (request : CreatePixelCardRequest) : Result unit :=
  let validation := Validation.validateCreatePixelCardRequest (request_value request) in
  if negb (Validation.isValid validation) then
    Throw (Error (js "Validation failed: " ++ join (js ", ") (Validation.errors validation)))
  else Ok tt.

Definition generateUniqueFilename (env : Env) (mimeType : jsstring) : jsstring :=
  let uuid := randomUUID env in
  let extension := if str_eqb mimeType (js "image/png") then js "png" else js "jpg" in
  uuid ++ js "." ++ extension.

Definition generateImagePath (env : Env) (filename : jsstring) : jsstring :=
  let year := now_fullYear env in
  let month := padStart2 (string_of_Z (now_month env + 1)) in
  string_of_Z year ++ js "/" ++ month ++ js "/" ++ filename.

Definition uploadImage (imagePath : jsstring) (imageBuffer : list N) (mimeType : jsstring)
  : M jsstring :=
  r <- await_upload STORAGE_BUCKET imagePath imageBuffer
         {| contentType := mimeType; cacheControl := js "3600"; upsert := false |} ;;
  match upload_error r with
  | Some e => throw (Error (js "Storage upload failed: " ++ message e))
  | None =>
      match upload_path r with
      | None | Some [] => throw (Error (js "Upload succeeded but no path returned"))
      | Some path =>
          urlData <- getPublicUrl STORAGE_BUCKET path ;;
          match urlData with
          | None | Some [] => throw (Error (js "Failed to get public URL for uploaded image"))
          | Some publicUrl => ret publicUrl
          end
      end
  end.

Definition saveToDatabase (h : Host) (insertData : PixelCardInsertPayload) : M PixelCard :=
  r <- await_insert insertData ;;
  match error r with
  | Some e => throw (Error (js "Database insert failed: " ++ message e))
  | None =>
      match data r with
      | None => throw (Error (js "Insert succeeded but no data returned"))
      | Some d =>
          ret {| id := row_id d;
                 userName := user_name d;
                 imagePath := image_path d;
                 imageUrl := image_url d;
                 createdAt := new_Date h (created_at d);
                 updatedAt := new_Date h (updated_at d);
                 fileSize := file_size d;
                 mimeType := mime_type d |}
      end
  end.

Definition transformToResponse (h : Host) (pixelCard : PixelCard) : Result PixelCardResponse :=
  match toISOString h (createdAt pixelCard) with
  | Throw e => Throw e
  | Ok iso => Ok {| resp_id := id pixelCard;
                    resp_userName := userName pixelCard;
                    resp_imageUrl := imageUrl pixelCard;
                    resp_createdAt := iso;
                    resp_fileSize := fileSize pixelCard |}
  end.

Definition savePixelCard (env : Env) (request : CreatePixelCardRequest)
  : M PixelCardResponse :=
  try_catch
    (lift (validateCreateRequest request) ;;;
     p <- lift (processImageData (req_imageData request)) ;;
     let filename := generateUniqueFilename env (proc_mimeType p) in
     let imagePath := generateImagePath env filename in
     imageUrl <- uploadImage imagePath (imageBuffer p) (proc_mimeType p) ;;
     pixelCard <- saveToDatabase (host env)
                    {| ins_user_name := req_userName request;
                       ins_image_path := imagePath;
                       ins_image_url := imageUrl;
                       ins_file_size := proc_fileSize p;
                       ins_mime_type := proc_mimeType p |} ;;
     lift (transformToResponse (host env) pixelCard))
    (rethrow "Failed to save pixel card:").

End PixelCardService.

(* ================================================================== *)
(** ** components/generate_pixel: what the forms pass on *)

Module Components.

(** NameInput: the text kept while typing,
    [value.substring(0, USER_NAME_MAX_LENGTH)]. *)
Definition handleInputChange (value : jsstring) : jsstring :=
  substring0 (Z.to_nat Validation.USER_NAME_MAX_LENGTH) value.

(** NameInput: the [isValid] state its effect keeps for the current text. *)
Definition isValidState (name : jsstring) : bool :=
  if strlen name >? 0
  then Validation.isValid (Validation.validateUserName (JString name))
  else false.

(** NameInput [handleSubmit]: the name given to [onSubmit], if any. *)
Definition handleSubmit (name : jsstring) : option jsstring :=
  if isValidState name && truthy (JString (trim name))
  then Some (Validation.sanitizeUserName (JString name))
  else None.

(** PixelIDCardGenerator [handleNameSubmit]: the user name it stores, if
    any. *)
Definition handleNameSubmit (name : jsstring) : option jsstring :=
  if truthy (JString (trim name)) then Some (trim name) else None.

(** CameraView [capturePhoto], from the data URL of the canvas on: the two
    checks before [onCapture(dataUrl)].  The result is what is passed to
    [onCapture]; a thrown error is what its [catch] shows. *)
Definition checkCapturedImage (dataUrl : jsstring) : Result jsstring :=
  let validation := Validation.validateImageData (JString dataUrl) in
  if negb (Validation.isValid validation) then
    Throw (Error (js "Image validation failed: "
                  ++ join (js ", ") (Validation.errors validation)))
  else
    match Validation.split_comma_1 dataUrl with
    | None => Throw (Error (js "Cannot read properties of undefined (reading 'length')"))
    | Some base64Data =>
        let estimatedSize := Validation.estimatedSize base64Data in
        if negb (Qle_bool estimatedSize (inject_Z Validation.IMAGE_MAX_SIZE_BYTES)) then
          Throw (Error (js "Image is too large ("
                        ++ string_of_Z (Math_round (estimatedSize / inject_Z (1024 * 1024)))
                        ++ js "MB). Maximum allowed size is "
                        ++ string_of_Z (Validation.IMAGE_MAX_SIZE_BYTES / (1024 * 1024))
                        ++ js "MB."))
        else Ok dataUrl
    end.

End Components.

(* ================================================================== *)
(** ** Reference instances of the surroundings

    A host whose [Date] reads and writes ISO-8601 text, and a backend that
    keeps its rows in a list.  They serve as concrete surroundings to run
    the operations in; the properties below that hold for every host and
    backend do not depend on them. *)

Module Reference.

(** Days since 1970-01-01 of a proleptic Gregorian date, and back. *)
Definition days_from_civil (y m d : Z) : Z :=
  let y' := if m <=? 2 then y - 1 else y in
  let era := y' / 400 in
  let yoe := y' - era * 400 in
  let doy := (153 * (if m >? 2 then m - 3 else m + 9) + 2) / 5 + d - 1 in
  let doe := yoe * 365 + yoe / 4 - yoe / 100 + doy in
  era * 146097 + doe - 719468.

Definition civil_from_days (z : Z) : Z * Z * Z :=
  let z := z + 719468 in
  let era := z / 146097 in
  let doe := z - era * 146097 in
  let yoe := (doe - doe / 1460 + doe / 36524 - doe / 146096) / 365 in
  let doy := doe - (365 * yoe + yoe / 4 - yoe / 100) in
  let mp := (5 * doy + 2) / 153 in
  let d := doy - (153 * mp + 2) / 5 + 1 in
  let m := if mp <? 10 then mp + 3 else mp - 9 in
  let y := yoe + era * 400 + (if m <=? 2 then 1 else 0) in
  (y, m, d).

(** The last [width] decimal digits of [n], most significant first. *)
Fixpoint digits (width : nat) (n : Z) : jsstring :=
  match width with
  | O => []
  | S w => digits w (n / 10) ++ [(cu "0" + Z.to_N (n mod 10))%N]
  end.

Definition iso_of_time (t : Z) : jsstring :=
  let day := t / 86400000 in
  let ms := t mod 86400000 in
  let '(y, m, d) := civil_from_days day in
  let year :=
    if (0 <=? y) && (y <=? 9999) then digits 4 y
    else (if y <? 0 then js "-" else js "+") ++ digits 6 (Z.abs y) in
  year ++ js "-" ++ digits 2 m ++ js "-" ++ digits 2 d ++ js "T"
  ++ digits 2 (ms / 3600000) ++ js ":" ++ digits 2 (ms / 60000 mod 60) ++ js ":"
  ++ digits 2 (ms / 1000 mod 60) ++ js "." ++ digits 3 (ms mod 1000) ++ js "Z".

(** Reads exactly [n] decimal digits. *)
Fixpoint read_digits (n : nat) (acc : Z) (s : jsstring) : option (Z * jsstring) :=
  match n with
  | O => Some (acc, s)
  | S n' =>
      match s with
      | c :: r =>
          if is_digit c then read_digits n' (acc * 10 + Z.of_N (c - cu "0")) r
          else None
      | [] => None
      end
  end.

Definition expect (c : ascii) (s : jsstring) : option jsstring :=
  match s with
  | x :: r => if char_eqb x (cu c) then Some r else None
  | [] => None
  end.

(** A fraction of a second: the first three digits count, the rest are
    dropped. *)
Fixpoint read_fraction (scale : Z) (acc : Z) (s : jsstring) : Z * jsstring :=
  match s with
  | c :: r =>
      if is_digit c
      then read_fraction (scale / 10) (acc + scale * Z.of_N (c - cu "0")) r
      else (acc, s)
  | [] => (acc, s)
  end.

Definition opt_bind {A B} (o : option A) (f : A -> option B) : option B :=
  match o with
  | Some a => f a
  | None => None
  end.

(** The offset suffix, in minutes east of UTC. *)
Definition read_offset (s : jsstring) : option Z :=
  match s with
  | c :: r =>
      if char_eqb c (cu "Z") then match r with [] => Some 0 | _ => None end
      else if char_eqb c (cu "+") || char_eqb c (cu "-") then
        opt_bind (read_digits 2 0 r) (fun '(hh, r1) =>
        opt_bind (expect ":" r1) (fun r2 =>
        opt_bind (read_digits 2 0 r2) (fun '(mm, r3) =>
          match r3 with
          | [] => Some ((if char_eqb c (cu "-") then -1 else 1) * (hh * 60 + mm))
          | _ => None
          end)))
      else None
  | [] => None
  end.

(** [YYYY-MM-DDTHH:mm:ss(.f+)?(Z|+hh:mm|-hh:mm)] *)
Definition time_of_iso (s : jsstring) : option Z :=
  opt_bind (read_digits 4 0 s) (fun '(y, s) =>
  opt_bind (expect "-" s) (fun s =>
  opt_bind (read_digits 2 0 s) (fun '(mo, s) =>
  opt_bind (expect "-" s) (fun s =>
  opt_bind (read_digits 2 0 s) (fun '(d, s) =>
  opt_bind (expect "T" s) (fun s =>
  opt_bind (read_digits 2 0 s) (fun '(hh, s) =>
  opt_bind (expect ":" s) (fun s =>
  opt_bind (read_digits 2 0 s) (fun '(mi, s) =>
  opt_bind (expect ":" s) (fun s =>
  opt_bind (read_digits 2 0 s) (fun '(ss, s) =>
    let '(ms, s) :=
      match expect "." s with
      | Some r => read_fraction 100 0 r
      | None => (0, s)
      end in
    opt_bind (read_offset s) (fun off =>
      if (1 <=? mo) && (mo <=? 12) && (1 <=? d) && (d <=? 31)
         && (hh <=? 23) && (mi <=? 59) && (ss <=? 59)
      then Some (days_from_civil y mo d * 86400000
                 + (hh * 60 + mi - off) * 60000 + ss * 1000 + ms)
      else None)))))))))))).

Definition iso_host : Host :=
  {| Date_parse := time_of_iso; Date_iso := iso_of_time |}.

(** *** A backend over a list of rows *)

Definition column (name : string) (r : PixelCardRow) : jsstring :=
  if String.eqb name "id" then row_id r
  else if String.eqb name "user_name" then user_name r
  else if String.eqb name "image_path" then image_path r
  else if String.eqb name "image_url" then image_url r
  else if String.eqb name "created_at" then created_at r
  else if String.eqb name "updated_at" then updated_at r
  else mime_type r.

Section Table.

(** The instant a stored time stamp denotes. *)
Variable instant : jsstring -> Z.

Definition newer_or_same (a b : PixelCardRow) : bool :=
  instant (created_at b) <=? instant (created_at a).

Fixpoint insert_desc (r : PixelCardRow) (l : list PixelCardRow) : list PixelCardRow :=
  match l with
  | [] => [r]
  | x :: l' => if newer_or_same x r then x :: insert_desc r l' else r :: l
  end.

(** [ORDER BY created_at DESC] *)
Definition sort_desc (l : list PixelCardRow) : list PixelCardRow :=
  fold_right insert_desc [] l.

Definition matching (q : Query) (rows : list PixelCardRow) : list PixelCardRow :=
  match q_eq q with
  | Some (col, v) => filter (fun r => str_eqb (column col r) v) rows
  | None => rows
  end.

(** Rows [a .. b] inclusive, counted from zero. *)
Definition window (a b : Z) (l : list PixelCardRow) : list PixelCardRow :=
  firstn (Z.to_nat (b - a + 1)) (skipn (Z.to_nat a) l).

(** A number that is a whole number, as such. *)
Definition whole_number (n : jsnum) : option Z :=
  match n with
  | Fin q => if Qeq_bool q (inject_Z (Qfloor q)) then Some (Qfloor q) else None
  | _ => None
  end.

(** A limit that is not a whole number from 0 on cannot be served. *)
Definition bad_limit (q : Query) : bool :=
  match q_limit q with
  | Some n =>
      match whole_number n with
      | Some z => z <? 0
      | None => true
      end
  | None => false
  end.

Definition selected (q : Query) (rows : list PixelCardRow) : list PixelCardRow :=
  let l := matching q rows in
  let l := match q_order_desc q with Some _ => sort_desc l | None => l end in
  let l := match q_range q with Some (a, b) => window a b l | None => l end in
  match q_limit q with
  | Some n =>
      match whole_number n with
      | Some z => firstn (Z.to_nat z) l
      | None => l
      end
  | None => l
  end.

Definition invalid_limit : PgError :=
  {| code := js "PGRST100";
     message := js "Unexpected limit value" |}.

Definition no_single_row : PgError :=
  {| code := js "PGRST116";
     message := js "JSON object requested, multiple (or no) rows returned" |}.

Definition table_select_rows (rows : list PixelCardRow) (q : Query)
  : Reply (list PixelCardRow) :=
  if bad_limit q then mkReply None (Some invalid_limit) None
  else if q_count_head q
  then mkReply None None (Some (Z.of_nat (List.length (matching q rows))))
  else mkReply (Some (selected q rows)) None None.

Definition table_select_single (rows : list PixelCardRow) (q : Query)
  : Reply PixelCardRow :=
  match selected q rows with
  | [r] => mkReply (Some r) None None
  | _ => mkReply None (Some no_single_row) None
  end.

Definition table_select_single_id (rows : list PixelCardRow) (q : Query)
  : Reply jsstring :=
  match selected q rows with
  | [r] => mkReply (Some (row_id r)) None None
  | _ => mkReply None (Some no_single_row) None
  end.

(** The row an insert creates, with the identifier and time stamp the
    database assigns. *)
Definition inserted (new_id now : jsstring) (p : PixelCardInsertPayload) : PixelCardRow :=
  {| row_id := new_id;
     user_name := ins_user_name p;
     image_path := ins_image_path p;
     image_url := ins_image_url p;
     created_at := now;
     updated_at := now;
     file_size := ins_file_size p;
     mime_type := ins_mime_type p |}.

Definition table_backend (new_id now : jsstring) (rows : list PixelCardRow) : Backend :=
  {| select_rows := table_select_rows rows;
     select_single := table_select_single rows;
     select_single_id := table_select_single_id rows;
     insert_single := fun p => mkReply (Some (inserted new_id now p)) None None;
     storage_upload := fun _ path _ _ => mkUploadReply (Some path) None;
     storage_getPublicUrl := fun bucket path =>
       Some (js "https://project.supabase.co/storage/v1/object/public/"
             ++ bucket ++ js "/" ++ path) |}.

End Table.

(** A backend on which every request fails with the given error. *)
Definition failing_backend (e : PgError) : Backend :=
  {| select_rows := fun _ => mkReply None (Some e) None;
     select_single := fun _ => mkReply None (Some e) None;
     select_single_id := fun _ => mkReply None (Some e) None;
     insert_single := fun _ => mkReply None (Some e) None;
     storage_upload := fun _ _ _ _ => mkUploadReply None (Some e);
     storage_getPublicUrl := fun _ _ => None |}.

End Reference.

(* ================================================================== *)
(** ** Vocabulary of the properties *)

Import Validation TypeValidation PixelCardRepository PixelCardService.

(** A validator reports validity exactly when it reports no violation. *)
Definition coherent (v : ValidationResult) : Prop :=
  isValid v = true <-> errors v = [].



Definition by_id_query (cols : string) (id : jsstring) : Query :=
  single (eq_col "id" id (from_select "pixel_cards" cols)).

Definition not_found_code : jsstring := js "PGRST116".

(** What the listing computes from its parameters. *)
Definition page_of (params : PaginationParams) : Z :=
  Z.max 1 (or_default (params_page params) 1).

Definition limit_of (params : PaginationParams) : Z :=
  Z.min (Z.max 1 (or_default (params_limit params) DEFAULT_PAGE_SIZE)) MAX_PAGE_SIZE.

(** [a] was created no earlier than [b], for rows and for responses;
    [instant] gives the instant a time stamp denotes. *)
Definition row_desc (instant : jsstring -> Z) (a b : PixelCardRow) : Prop :=
  instant (created_at b) <= instant (created_at a).

Definition response_desc (instant : jsstring -> Z) (a b : PixelCardResponse) : Prop :=
  instant (resp_createdAt b) <= instant (resp_createdAt a).

(** Row to entity to response, as one step. *)
Definition row_to_response (h : Host) (row : PixelCardRow) : Result PixelCardResponse :=
  match TypeValidation.transformRowToPixelCard h row with
  | Ok card => transformPixelCardToResponse h card
  | Throw e => Throw e
  end.

(** Sample data. *)
Definition sample_row (path mime updated : string) : PixelCardRow :=
  {| row_id := js "123e4567-e89b-42d3-a456-426614174000";
     user_name := js "Ada";
     image_path := js path;
     image_url := js "https://project.supabase.co/storage/v1/object/public/pixel-images/a.png";
     created_at := js "2024-01-15T10:30:00.123456+00:00";
     updated_at := js updated;
     file_size := 2048;
     mime_type := js mime |}.

Definition png_prefix : jsstring := js "data:image/png;base64,".

(** Rows created at different times, and a backend that holds them. *)
Definition row_at (name created : string) : PixelCardRow :=
  {| row_id := js "123e4567-e89b-42d3-a456-426614174000";
     user_name := js name;
     image_path := js "2024/01/a.png";
     image_url := js "https://project.supabase.co/storage/v1/object/public/pixel-images/a.png";
     created_at := js created;
     updated_at := js created;
     file_size := 2048;
     mime_type := js "image/png" |}.

Definition three_rows : list PixelCardRow :=
  [row_at "a" "2024-02-01T00:00:00Z";
   row_at "b" "2024-01-01T00:00:00Z";
   row_at "c" "2024-03-01T00:00:00Z"].

(** The instant of a stored time stamp, read as ISO text. *)
Definition stored_instant (s : jsstring) : Z :=
  match Reference.time_of_iso s with
  | Some t => t
  | None => 0
  end.

Definition stocked_backend (rows : list PixelCardRow) : Backend :=
  Reference.table_backend stored_instant [] [] rows.

(** Surroundings for running the save operation. *)
Definition sample_env : Env :=
  {| host := Reference.iso_host;
     randomUUID := js "123e4567-e89b-42d3-a456-426614174000";
     now_fullYear := 2024;
     now_month := 0 |}.

Definition sample_backend : Backend :=
  Reference.table_backend (fun _ => 0)
    (js "123e4567-e89b-42d3-a456-426614174000") (js "2024-01-15T10:30:00.123456+00:00") [].

(** Base64 text of [n] characters [A]: it decodes to zero bytes, three for
    every four characters. *)
Definition zeros_base64 (n : Z) : jsstring := repeat (cu "A") (Z.to_nat n).

(** A data URI prefix of a type the validator does not list. *)
Definition gif_prefix : jsstring := js "data:image/gif;base64,".

(* ================================================================== *)
(** * Properties *)

(** ** Strings *)

Lemma char_eqb_eq (a b : char16) : char_eqb a b = true <-> a = b.
Proof. apply N.eqb_eq. Qed.

Lemma str_eqb_eq (a b : jsstring) : str_eqb a b = true <-> a = b.
Proof.
  revert b; induction a as [|x a IH]; intros [|y b]; simpl; split; intro H;
    try reflexivity; try discriminate.
  - apply andb_true_iff in H as [Hx Ha].
    apply char_eqb_eq in Hx. apply IH in Ha. now subst.
  - injection H as -> ->. apply andb_true_iff. split.
    + now apply char_eqb_eq.
    + now apply IH.
Qed.

Lemma str_eqb_neq (a b : jsstring) : str_eqb a b = false <-> a <> b.
Proof.
  rewrite <- str_eqb_eq. destruct (str_eqb a b); split; congruence.
Qed.

Lemma strlen_nonneg (s : jsstring) : 0 <= strlen s.
Proof. unfold strlen. lia. Qed.

Lemma strlen_app (a b : jsstring) : strlen (a ++ b) = strlen a + strlen b.
Proof. unfold strlen. rewrite length_app. lia. Qed.

Lemma strlen_repeat (c : char16) (n : nat) : strlen (repeat c n) = Z.of_nat n.
Proof. unfold strlen. now rewrite repeat_length. Qed.

Lemma strlen_zero_nil (s : jsstring) : strlen s = 0 -> s = [].
Proof. destruct s; [reflexivity | unfold strlen; simpl; lia]. Qed.

(** ** Validation results *)

Lemma finish_valid (errs : list jsstring) :
  isValid (finish errs) = true <-> errs = [].
Proof. destruct errs; simpl; split; congruence. Qed.

Lemma finish_errors (errs : list jsstring) : errors (finish errs) = errs.
Proof. reflexivity. Qed.

Lemma push_if_nil (c : bool) (m : jsstring) (errs : list jsstring) :
  push_if c m errs = [] <-> c = false /\ errs = [].
Proof.
  destruct c; simpl; split.
  - intro H. now apply app_eq_nil in H as [_ H].
  - intros [H _]. discriminate.
  - auto.
  - now intros [_ ->].
Qed.

Lemma coherent_finish (errs : list jsstring) : coherent (finish errs).
Proof. apply finish_valid. Qed.

Lemma coherent_failure (m : jsstring) : coherent (mkValidation false [m]).
Proof. unfold coherent; simpl; split; congruence. Qed.

Lemma validateUserName_coherent (v : jsvalue) : coherent (validateUserName v).
Proof.
  unfold validateUserName.
  destruct (negb (truthy v) || negb (String.eqb (typeof v) "string"));
    [apply coherent_failure | apply coherent_finish].
Qed.

Lemma validateImageData_coherent (v : jsvalue) : coherent (validateImageData v).
Proof.
  unfold validateImageData.
  destruct (negb (truthy v) || negb (String.eqb (typeof v) "string"));
    [apply coherent_failure|].
  destruct (BASE64_IMAGE_PREFIX_PATTERN (as_string v)); [|apply coherent_failure].
  destruct (split_comma_1 (as_string v)) as [[|c p]|]; try apply coherent_failure.
  destruct (negb (base64Pattern (c :: p))); [apply coherent_failure | apply coherent_finish].
Qed.

Lemma coherent_invalid (v : ValidationResult) :
  coherent v -> isValid v = false -> errors v <> [].
Proof. intros C H E. apply C in E. congruence. Qed.

(** The verdict on a non-empty name, in terms of its trimmed form. *)
Lemma validateUserName_verdict (c : char16) (r : jsstring) :
  isValid (validateUserName (JString (c :: r))) =
    negb (strlen (trim (c :: r)) <? USER_NAME_MIN_LENGTH)
    && negb (strlen (trim (c :: r)) >? USER_NAME_MAX_LENGTH)
    && validNamePattern (trim (c :: r)).
Proof.
  unfold validateUserName.
  change (negb (truthy (JString (c :: r)))
          || negb (String.eqb (typeof (JString (c :: r))) "string")) with false.
  cbn iota. change (as_string (JString (c :: r))) with (c :: r).
  generalize (trim (c :: r)); intro t.
  destruct (strlen t <? USER_NAME_MIN_LENGTH),
           (strlen t >? USER_NAME_MAX_LENGTH),
           (validNamePattern t); reflexivity.
Qed.

Lemma validNamePattern_spec (t : jsstring) :
  validNamePattern t = true <-> t <> [] /\ forall c, In c t -> name_char c = true.
Proof.
  unfold validNamePattern. destruct t as [|x t].
  - split; [discriminate | intros [H _]; congruence].
  - rewrite forallb_forall. split.
    + intro H. split; [discriminate | exact H].
    + now intros [_ H].
Qed.

Lemma trim_nil : trim [] = [].
Proof. reflexivity. Qed.

(** ** C2 *)

(** C2 (as amended).  [validateUserName] judges the name after trimming
    surrounding white space: if the trimmed name is empty, is longer than
    50 code units, or has a character outside letters, digits, white
    space, hyphen, underscore, apostrophe and period, the result is
    invalid and lists at least one violation; if the trimmed name has 1 to
    50 code units, all from that class, the result is valid. *)
Theorem validateUserName_on_trimmed_name (s : jsstring) :
  (strlen (trim s) = 0 \/ strlen (trim s) > 50
   \/ (exists c, In c (trim s) /\ name_char c = false) ->
   isValid (validateUserName (JString s)) = false
   /\ errors (validateUserName (JString s)) <> [])
  /\ (1 <= strlen (trim s) <= 50 /\ (forall c, In c (trim s) -> name_char c = true) ->
      isValid (validateUserName (JString s)) = true).
Proof.
  destruct s as [|c r].
  - split.
    + intros _. split; [reflexivity | discriminate].
    + rewrite trim_nil. unfold strlen; simpl. lia.
  - pose proof (validateUserName_verdict c r) as V.
    unfold USER_NAME_MIN_LENGTH, USER_NAME_MAX_LENGTH in V.
    rewrite Z.gtb_ltb in V.
    split.
    + intro H.
      assert (isValid (validateUserName (JString (c :: r))) = false) as F.
      { rewrite V. destruct H as [H | [H | [x [Hin Hx]]]].
        - replace (strlen (trim (c :: r)) <? 1) with true by (symmetry; apply Z.ltb_lt; lia).
          reflexivity.
        - replace (50 <? strlen (trim (c :: r))) with true
            by (symmetry; apply Z.ltb_lt; lia).
          now rewrite andb_false_r.
        - destruct (validNamePattern (trim (c :: r))) eqn:E.
          + apply validNamePattern_spec in E as [_ E]. rewrite (E x Hin) in Hx. discriminate.
          + now rewrite andb_false_r. }
      split; [exact F|].
      apply coherent_invalid; [apply validateUserName_coherent | exact F].
    + intros [[Hlo Hhi] Hall]. rewrite V.
      replace (strlen (trim (c :: r)) <? 1) with false by (symmetry; apply Z.ltb_ge; lia).
      replace (50 <? strlen (trim (c :: r))) with false
        by (symmetry; apply Z.ltb_ge; lia).
      simpl. apply validNamePattern_spec. split; [|exact Hall].
      intro E. rewrite E in Hlo. unfold strlen in Hlo; simpl in Hlo. lia.
Qed.

Lemma validateUserName_on_trimmed_name_witness :
  isValid (validateUserName (JString (js "  Ada O'Neil-Lovelace Jr. "))) = true.
Proof.
  apply (proj2 (validateUserName_on_trimmed_name (js "  Ada O'Neil-Lovelace Jr. "))).
  split.
  - vm_compute. split; discriminate.
  - apply Forall_forall. vm_compute. repeat constructor.
Defined.

(** C2 (as stated) fails: a name of 51 code units, one letter followed by
    fifty spaces, is accepted, and a name of one space, a character of the
    allowed class, is rejected. *)
Lemma validateUserName_length_counterexample :
  strlen (js "a" ++ repeat 32%N 50) = 51
  /\ isValid (validateUserName (JString (js "a" ++ repeat 32%N 50))) = true
  /\ strlen (js " ") = 1
  /\ forallb name_char (js " ") = true
  /\ isValid (validateUserName (JString (js " "))) = false.
Proof. vm_compute. repeat split. Qed.

(** ** Requests *)

Lemma request_errors (props : list (string * jsvalue)) :
  errors (validateCreatePixelCardRequest (JObject props))
  = errors (validateUserName (get_prop "userName" props))
    ++ errors (validateImageData (get_prop "imageData" props)).
Proof.
  pose proof (validateUserName_coherent (get_prop "userName" props)) as Cn.
  pose proof (validateImageData_coherent (get_prop "imageData" props)) as Ci.
  unfold validateCreatePixelCardRequest.
  change (negb (truthy (JObject props))
          || negb (String.eqb (typeof (JObject props)) "object")) with false.
  cbn iota. change (prop (JObject props)) with (fun key => get_prop key props).
  rewrite finish_errors.
  destruct (isValid (validateUserName (get_prop "userName" props))) eqn:Vn,
           (isValid (validateImageData (get_prop "imageData" props))) eqn:Vi; simpl.
  - rewrite (proj1 Cn Vn), (proj1 Ci Vi). reflexivity.
  - rewrite (proj1 Cn Vn). reflexivity.
  - rewrite (proj1 Ci Vi). now rewrite app_nil_r.
  - reflexivity.
Qed.

Lemma request_verdict (props : list (string * jsvalue)) :
  isValid (validateCreatePixelCardRequest (JObject props))
  = isValid (validateUserName (get_prop "userName" props))
    && isValid (validateImageData (get_prop "imageData" props)).
Proof.
  pose proof (validateUserName_coherent (get_prop "userName" props)) as Cn.
  pose proof (validateImageData_coherent (get_prop "imageData" props)) as Ci.
  unfold validateCreatePixelCardRequest.
  change (negb (truthy (JObject props))
          || negb (String.eqb (typeof (JObject props)) "object")) with false.
  cbn iota. change (prop (JObject props)) with (fun key => get_prop key props).
  destruct (isValid (validateUserName (get_prop "userName" props))) eqn:Vn,
           (isValid (validateImageData (get_prop "imageData" props))) eqn:Vi; simpl.
  - reflexivity.
  - apply coherent_invalid in Vi; [|exact Ci].
    now destruct (errors (validateImageData (get_prop "imageData" props))).
  - apply coherent_invalid in Vn; [|exact Cn].
    now destruct (errors (validateUserName (get_prop "userName" props))).
  - apply coherent_invalid in Vn; [|exact Cn].
    now destruct (errors (validateUserName (get_prop "userName" props))).
Qed.

(** ** C9 *)

(** C9.  On a request object, [validateCreatePixelCardRequest] judges the
    name and the image data each on its own and returns the violations of
    the name followed by those of the image data: the request is valid
    exactly when both fields are, and when both are invalid the list holds
    the (non-empty) violations of each. *)
Theorem validateCreatePixelCardRequest_aggregates (props : list (string * jsvalue)) :
  let name := validateUserName (get_prop "userName" props) in
  let image := validateImageData (get_prop "imageData" props) in
  let all := validateCreatePixelCardRequest (JObject props) in
  errors all = errors name ++ errors image
  /\ isValid all = isValid name && isValid image
  /\ (isValid name = false -> isValid image = false ->
      errors name <> [] /\ errors image <> []
      /\ incl (errors name) (errors all) /\ incl (errors image) (errors all)).
Proof.
  intros name image all.
  split; [apply request_errors|]. split; [apply request_verdict|].
  intros Vn Vi. unfold all. rewrite request_errors. fold name. fold image.
  repeat split.
  - apply coherent_invalid; [apply validateUserName_coherent | exact Vn].
  - apply coherent_invalid; [apply validateImageData_coherent | exact Vi].
  - apply incl_appl, incl_refl.
  - apply incl_appr, incl_refl.
Qed.

Lemma validateCreatePixelCardRequest_aggregates_witness :
  errors (validateCreatePixelCardRequest
            (JObject [("userName"%string, JString (js "a!"));
                      ("imageData"%string, JString (js "data:image/gif;base64,AAAA"))]))
  = [msg_name_chars; msg_image_prefix].
Proof.
  pose proof (validateCreatePixelCardRequest_aggregates
                [("userName"%string, JString (js "a!"));
                 ("imageData"%string, JString (js "data:image/gif;base64,AAAA"))])
    as [E [_ H]].
  specialize (H eq_refl eq_refl) as [_ _].
  rewrite E. reflexivity.
Defined.

(** ** Splitting at commas *)

Lemma includes_false (c : char16) (s : jsstring) :
  includes c s = false <-> forall x, In x s -> x <> c.
Proof.
  unfold includes. induction s as [|y s IH]; simpl.
  - split; [intros _ x [] | reflexivity].
  - rewrite orb_false_iff, IH. split.
    + intros [Hy Hs] x [<- | Hx].
      * intro E. subst. unfold char_eqb in Hy. rewrite N.eqb_refl in Hy. discriminate.
      * now apply Hs.
    + intro H. split.
      * destruct (char_eqb c y) eqn:E; [|reflexivity].
        apply char_eqb_eq in E. exfalso. apply (H y); auto.
      * intros x Hx. apply H. now right.
Qed.

Lemma includes_app (c : char16) (a b : jsstring) :
  includes c (a ++ b) = includes c a || includes c b.
Proof. unfold includes. apply existsb_app. Qed.

Lemma split_no_separator (sep : char16) (s : jsstring) :
  includes sep s = false -> split sep s = [s].
Proof.
  induction s as [|c s IH]; simpl; [reflexivity|].
  unfold includes; simpl. intro H. apply orb_false_iff in H as [Hc Hs].
  unfold char_eqb in *. rewrite N.eqb_sym in Hc. rewrite Hc.
  now rewrite (IH Hs).
Qed.

Lemma split_at_separator (sep : char16) (a b : jsstring) :
  includes sep a = false -> split sep (a ++ sep :: b) = a :: split sep b.
Proof.
  induction a as [|c a IH]; simpl.
  - intros _. unfold char_eqb. now rewrite N.eqb_refl.
  - unfold includes; simpl. intro H. apply orb_false_iff in H as [Hc Ha].
    unfold char_eqb in *. rewrite N.eqb_sym in Hc. rewrite Hc.
    now rewrite (IH Ha).
Qed.

(** The text between the first and the second comma. *)
Lemma split_comma_1_payload (a b : jsstring) :
  includes (cu ",") a = false -> includes (cu ",") b = false ->
  split_comma_1 (a ++ cu "," :: b) = Some b.
Proof.
  intros Ha Hb. unfold split_comma_1.
  rewrite (split_at_separator _ _ _ Ha), (split_no_separator _ _ Hb). reflexivity.
Qed.

(** ** Base64 text *)

Lemma b64_char_not_comma (c : char16) : b64_char c = true -> c <> cu ",".
Proof. intros H E. subst. discriminate. Qed.

Lemma b64_char_not_pad (c : char16) : b64_char c = true -> c <> cu "=".
Proof. intros H E. subst. discriminate. Qed.

Lemma b64_body_no_comma (body : jsstring) :
  forallb b64_char body = true -> includes (cu ",") body = false.
Proof.
  intro H. apply includes_false. intros x Hx.
  apply b64_char_not_comma. rewrite forallb_forall in H. now apply H.
Qed.

Lemma pads_no_comma (k : nat) : includes (cu ",") (repeat (cu "=") k) = false.
Proof.
  apply includes_false. intros x Hx. apply repeat_spec in Hx. subst. discriminate.
Qed.

Lemma b64_text_no_comma (body : jsstring) (k : nat) :
  forallb b64_char body = true ->
  includes (cu ",") (body ++ repeat (cu "=") k) = false.
Proof.
  intro H. rewrite includes_app, (b64_body_no_comma _ H), pads_no_comma. reflexivity.
Qed.

Lemma count_eq_signs_app (a b : jsstring) :
  count_eq_signs (a ++ b) = count_eq_signs a + count_eq_signs b.
Proof. unfold count_eq_signs. rewrite filter_app, length_app. lia. Qed.

Lemma count_eq_signs_body (body : jsstring) :
  forallb b64_char body = true -> count_eq_signs body = 0.
Proof.
  unfold count_eq_signs. induction body as [|c body IH]; [reflexivity|].
  cbn [forallb filter]. intro H. apply andb_true_iff in H as [Hc Hb].
  destruct (char_eqb (cu "=") c) eqn:E.
  - apply char_eqb_eq in E. subst. discriminate.
  - now apply IH.
Qed.

Lemma count_eq_signs_pads (k : nat) : count_eq_signs (repeat (cu "=") k) = Z.of_nat k.
Proof.
  unfold count_eq_signs. induction k as [|k IH]; [reflexivity|].
  cbn [repeat filter]. replace (char_eqb (cu "=") (cu "=")) with true by reflexivity.
  cbn [List.length]. lia.
Qed.

Lemma count_eq_signs_text (body : jsstring) (k : nat) :
  forallb b64_char body = true ->
  count_eq_signs (body ++ repeat (cu "=") k) = Z.of_nat k.
Proof.
  intro H. rewrite count_eq_signs_app, (count_eq_signs_body _ H), count_eq_signs_pads. lia.
Qed.

Lemma calculateBase64FileSize_bare (body : jsstring) (k : nat) :
  forallb b64_char body = true ->
  calculateBase64FileSize (body ++ repeat (cu "=") k)
  = strlen (body ++ repeat (cu "=") k) * 3 / 4 - Z.of_nat k.
Proof.
  intro H. unfold calculateBase64FileSize.
  now rewrite (b64_text_no_comma body k H), (count_eq_signs_text body k H).
Qed.

Lemma calculateBase64FileSize_prefixed (prefix body : jsstring) (k : nat) :
  forallb b64_char body = true ->
  includes (cu ",") prefix = false ->
  calculateBase64FileSize (prefix ++ cu "," :: body ++ repeat (cu "=") k)
  = strlen (body ++ repeat (cu "=") k) * 3 / 4 - Z.of_nat k.
Proof.
  intros H Hprefix. unfold calculateBase64FileSize.
  rewrite includes_app. cbn [includes existsb].
  replace (char_eqb (cu ",") (cu ",")) with true by reflexivity.
  rewrite orb_true_r.
  rewrite (split_at_separator _ _ _ Hprefix), (split_no_separator _ _ (b64_text_no_comma body k H)).
  cbn [nth]. now rewrite (count_eq_signs_text body k H).
Qed.

(** ** C3 *)

(** C3.  For base64 text of length [L] that ends in [k] padding
    characters [=], [calculateBase64FileSize] returns
    [floor (L * 3 / 4) - k], whether the text is passed bare or behind a
    data-URI prefix and its comma; for ["data:image/png;base64,aGVsbG8="]
    the result is 5. *)
Theorem calculateBase64FileSize_formula (prefix body : jsstring) (k : nat) :
  forallb b64_char body = true ->
  includes (cu ",") prefix = false ->
  let content := body ++ repeat (cu "=") k in
  strlen content = strlen body + Z.of_nat k
  /\ calculateBase64FileSize content = strlen content * 3 / 4 - Z.of_nat k
  /\ calculateBase64FileSize (prefix ++ cu "," :: content)
     = strlen content * 3 / 4 - Z.of_nat k
  /\ calculateBase64FileSize (js "data:image/png;base64,aGVsbG8=") = 5.
Proof.
  intros Hbody Hprefix content.
  split; [unfold content; now rewrite strlen_app, strlen_repeat|].
  split; [now apply calculateBase64FileSize_bare|].
  split; [now apply calculateBase64FileSize_prefixed | reflexivity].
Qed.

Lemma calculateBase64FileSize_formula_witness :
  calculateBase64FileSize (js "data:image/jpeg;base64,aGVsbA==") = 8 * 3 / 4 - 2.
Proof.
  pose proof (calculateBase64FileSize_formula
                (js "data:image/jpeg;base64") (js "aGVsbA") 2 eq_refl eq_refl)
    as [_ [_ [H _]]].
  exact H.
Defined.

(** ** Numbers *)

Lemma Qle_bool_refl (q : Q) : Qle_bool q q = true.
Proof. apply Qle_bool_iff, Qle_refl. Qed.

Lemma Qle_bool_total (p q : Q) : Qle_bool p q = false -> Qle_bool q p = true.
Proof.
  intro H. apply Qle_bool_iff. apply Qlt_le_weak, Qnot_le_lt.
  intro L. apply Qle_bool_iff in L. congruence.
Qed.

Lemma num_or_not_NaN (x : option jsnum) (d : jsnum) : d <> NaN -> num_or x d <> NaN.
Proof.
  intro Hd. unfold num_or. destruct x as [[| | |q]|]; simpl; try congruence.
  destruct (negb (Qeq_bool q 0)); congruence.
Qed.

Lemma Math_floor_not_NaN (x : jsnum) : x <> NaN -> Math_floor x <> NaN.
Proof. destruct x; simpl; congruence. Qed.

(** [Math.max(1, x)] is a number that is at least 1. *)
Lemma Math_max_one (x : jsnum) :
  x <> NaN ->
  Math_max (num_of_Z 1) x <> NaN /\ num_leb (num_of_Z 1) (Math_max (num_of_Z 1) x) = true.
Proof.
  intro H. unfold num_of_Z. destruct x as [| | |q]; try congruence; simpl.
  - split; [discriminate | reflexivity].
  - split; [discriminate | reflexivity].
  - destruct (Qle_bool (inject_Z 1) q) eqn:E; simpl.
    + split; [discriminate | exact E].
    + split; [discriminate | reflexivity].
Qed.

(** [Math.min(100, x)] stays at least 1 when [x] is, and is at most 100. *)
Lemma Math_min_hundred (x : jsnum) :
  x <> NaN -> num_leb (num_of_Z 1) x = true ->
  num_leb (num_of_Z 1) (Math_min (num_of_Z 100) x) = true
  /\ num_leb (Math_min (num_of_Z 100) x) (num_of_Z 100) = true.
Proof.
  intros H L. unfold num_of_Z in *. destruct x as [| | |q]; try congruence; simpl in *.
  - split; reflexivity.
  - discriminate.
  - destruct (Qle_bool (inject_Z 100) q) eqn:E; simpl.
    + split; reflexivity.
    + split; [exact L | now apply Qle_bool_total].
Qed.

(** ** C5 *)

(** C5.  Whatever page and limit are passed, or left out,
    [validateAndNormalizePagination] returns a page of at least 1 and a
    limit between 1 and 100; a missing page gives 1 and a missing limit
    gives 20. *)
Theorem validateAndNormalizePagination_bounds (page limit : option jsnum) :
  let r := validateAndNormalizePagination page limit in
  num_leb (num_of_Z 1) (safe_page r) = true
  /\ num_leb (num_of_Z 1) (safe_limit r) = true
  /\ num_leb (safe_limit r) (num_of_Z 100) = true
  /\ safe_page (validateAndNormalizePagination None limit) = num_of_Z 1
  /\ safe_limit (validateAndNormalizePagination page None) = num_of_Z 20.
Proof.
  cbn zeta. unfold validateAndNormalizePagination. cbn [safe_page safe_limit].
  assert (num_of_Z 1 <> NaN) as N1 by discriminate.
  assert (num_of_Z 20 <> NaN) as N20 by discriminate.
  pose proof (Math_max_one _ (Math_floor_not_NaN _ (num_or_not_NaN page _ N1))) as [_ P].
  pose proof (Math_max_one _ (Math_floor_not_NaN _ (num_or_not_NaN limit _ N20))) as [Ln Ll].
  pose proof (Math_min_hundred _ Ln Ll) as [L1 L100].
  repeat split; try assumption; reflexivity.
Qed.

(** ** C7 *)

(** C7.  [getPixelCardById] on an identifier that fails the UUID pattern
    throws "Invalid pixel card ID format" and sends nothing to the backend
    (the only event is the log line of its [catch]); on a well-formed
    identifier, a backend error with the not-found code gives [null], and a
    backend error with any other code is thrown. *)
Theorem getPixelCardById_contract (h : Host) (b : Backend) (id : jsstring) :
  (isValidUUID id = false ->
   getPixelCardById h id b =
     (Throw (Error (js "Invalid pixel card ID format")),
      [EvConsoleError (js "Failed to get pixel card by ID:")
                      (Error (js "Invalid pixel card ID format"))]))
  /\ (isValidUUID id = true ->
      forall e, error (select_single b (by_id_query "*" id)) = Some e ->
      (code e = not_found_code -> fst (getPixelCardById h id b) = Ok None)
      /\ (code e <> not_found_code ->
          fst (getPixelCardById h id b)
          = Throw (Error (js "Failed to fetch pixel card: " ++ message e)))).
Proof.
  split.
  - intro V. unfold getPixelCardById, try_catch. rewrite V. reflexivity.
  - intros V e He. fold (by_id_query "*" id) in *.
    unfold getPixelCardById, try_catch, bind, await_single.
    rewrite V. cbn [negb]. fold (by_id_query "*" id). rewrite He.
    split; intro C.
    + apply str_eqb_eq in C. unfold not_found_code in C. rewrite C. reflexivity.
    + apply str_eqb_neq in C. unfold not_found_code in C. rewrite C. reflexivity.
Qed.

Lemma getPixelCardById_contract_witness :
  fst (getPixelCardById Reference.iso_host (js "not-a-uuid")
         (Reference.table_backend (fun _ => 0) [] [] []))
  = Throw (Error (js "Invalid pixel card ID format"))
  /\ fst (getPixelCardById Reference.iso_host (js "123e4567-e89b-42d3-a456-426614174000")
            (Reference.table_backend (fun _ => 0) [] [] []))
     = Ok None
  /\ fst (getPixelCardById Reference.iso_host (js "123e4567-e89b-42d3-a456-426614174000")
            (Reference.failing_backend (mkPgError (js "57014") (js "timeout"))))
     = Throw (Error (js "Failed to fetch pixel card: timeout")).
Proof.
  split; [|split].
  - rewrite (proj1 (getPixelCardById_contract Reference.iso_host
                      (Reference.table_backend (fun _ => 0) [] [] []) (js "not-a-uuid")) eq_refl).
    reflexivity.
  - apply (proj2 (getPixelCardById_contract Reference.iso_host
                    (Reference.table_backend (fun _ => 0) [] [] [])
                    (js "123e4567-e89b-42d3-a456-426614174000"))
             eq_refl Reference.no_single_row eq_refl).
    reflexivity.
  - apply (proj2 (getPixelCardById_contract Reference.iso_host
                    (Reference.failing_backend (mkPgError (js "57014") (js "timeout")))
                    (js "123e4567-e89b-42d3-a456-426614174000"))
             eq_refl (mkPgError (js "57014") (js "timeout")) eq_refl).
    vm_compute. discriminate.
Defined.

(** ** C1 *)

(** C1 (as amended).  [pixelCardExists] never throws.  It returns [true]
    only if the identifier matches the UUID pattern and the backend
    answers without error and with a row; it returns [false], without
    asking the backend, on a malformed identifier, and it returns [false]
    on every backend error, the not-found one and any other alike. *)
Theorem pixelCardExists_never_throws (b : Backend) (id : jsstring) :
  exists (v : bool) (trace : list Event),
    pixelCardExists id b = (Ok v, trace)
    /\ (v = true ->
        isValidUUID id = true
        /\ error (select_single_id b (by_id_query "id" id)) = None
        /\ data (select_single_id b (by_id_query "id" id)) <> None)
    /\ (isValidUUID id = false -> v = false /\ trace = [])
    /\ (forall e, error (select_single_id b (by_id_query "id" id)) = Some e -> v = false).
Proof.
  unfold pixelCardExists, try_catch, bind, await_single_id.
  fold (by_id_query "id" id).
  destruct (isValidUUID id) eqn:V; cbn [negb].
  - destruct (error (select_single_id b (by_id_query "id" id))) as [e|] eqn:He.
    + destruct (str_eqb (code e) (js "PGRST116")) eqn:C.
      * eexists; eexists. split; [reflexivity|].
        repeat split; try discriminate; intros; reflexivity.
      * eexists; eexists. split; [reflexivity|].
        repeat split; try discriminate; intros; reflexivity.
    + destruct (data (select_single_id b (by_id_query "id" id))) as [d|] eqn:Hd.
      * eexists; eexists. split; [reflexivity|].
        repeat split; try discriminate; intros; discriminate.
      * eexists; eexists. split; [reflexivity|].
        repeat split; try discriminate; intros; reflexivity.
  - eexists; eexists. split; [reflexivity|].
    repeat split; try discriminate; intros; reflexivity.
Qed.

Lemma pixelCardExists_never_throws_witness :
  fst (pixelCardExists (js "123e4567-e89b-42d3-a456-426614174000")
         (Reference.failing_backend (mkPgError (js "57014") (js "timeout"))))
  = Ok false.
Proof.
  destruct (pixelCardExists_never_throws
              (Reference.failing_backend (mkPgError (js "57014") (js "timeout")))
              (js "123e4567-e89b-42d3-a456-426614174000"))
    as [v [trace [E [_ [_ H]]]]].
  rewrite E. cbn [fst]. f_equal.
  exact (H (mkPgError (js "57014") (js "timeout")) eq_refl).
Defined.

(** C1 (as stated) fails: on a well-formed identifier, a backend error
    whose code is not the not-found code is not raised; the operation
    logs it and returns [false]. *)
Lemma pixelCardExists_error_counterexample :
  isValidUUID (js "123e4567-e89b-42d3-a456-426614174000") = true
  /\ code (mkPgError (js "57014") (js "timeout")) <> not_found_code
  /\ pixelCardExists (js "123e4567-e89b-42d3-a456-426614174000")
       (Reference.failing_backend (mkPgError (js "57014") (js "timeout")))
     = (Ok false,
        [EvSelect (by_id_query "id" (js "123e4567-e89b-42d3-a456-426614174000"));
         EvConsoleError (js "Error checking pixel card existence:")
           (Error (js "Failed to check pixel card existence: timeout"))]).
Proof.
  split; [reflexivity|]. split; [vm_compute; discriminate | reflexivity].
Qed.

(** ** Ordering in the list backend *)

Section Ordering.

Variable instant : jsstring -> Z.

Lemma insert_desc_In (r x : PixelCardRow) (l : list PixelCardRow) :
  In x (Reference.insert_desc instant r l) -> x = r \/ In x l.
Proof.
  induction l as [|y l IH]; simpl.
  - intros [<- | []]. now left.
  - destruct (Reference.newer_or_same instant y r); simpl.
    + intros [<- | H]; [right; now left|].
      destruct (IH H) as [-> | H']; [now left | right; now right].
    + intros [<- | [<- | H]]; [now left | right; now left | right; now right].
Qed.

Lemma insert_desc_sorted (r : PixelCardRow) (l : list PixelCardRow) :
  StronglySorted (row_desc instant) l -> StronglySorted (row_desc instant) (Reference.insert_desc instant r l).
Proof.
  induction 1 as [|y l Hs IH Hy]; simpl.
  - repeat constructor.
  - destruct (Reference.newer_or_same instant y r) eqn:E.
    + constructor; [exact IH|].
      apply Forall_forall. intros x Hx.
      apply insert_desc_In in Hx as [-> | Hx].
      * unfold Reference.newer_or_same in E. apply Z.leb_le in E. exact E.
      * rewrite Forall_forall in Hy. now apply Hy.
    + unfold Reference.newer_or_same in E. apply Z.leb_gt in E.
      constructor; [now constructor|].
      constructor; [unfold row_desc; lia|].
      rewrite Forall_forall in Hy |- *. intros x Hx.
      specialize (Hy x Hx). unfold row_desc in *. lia.
Qed.

Lemma sort_desc_sorted (l : list PixelCardRow) :
  StronglySorted (row_desc instant) (Reference.sort_desc instant l).
Proof.
  induction l as [|r l IH]; simpl; [constructor | now apply insert_desc_sorted].
Qed.



Lemma sorted_skipn {A} (R : A -> A -> Prop) (n : nat) (l : list A) :
  StronglySorted R l -> StronglySorted R (skipn n l).
Proof.
  revert l. induction n as [|n IH]; intros l H; [exact H|].
  destruct l as [|x l]; [constructor|]. simpl. apply IH. now inversion H.
Qed.

Lemma In_firstn {A} (n : nat) (l : list A) (x : A) : In x (firstn n l) -> In x l.
Proof.
  revert l. induction n as [|n IH]; intros [|y l]; simpl; try tauto.
  intros [H | H]; [now left | right; now apply IH].
Qed.

Lemma sorted_firstn {A} (R : A -> A -> Prop) (n : nat) (l : list A) :
  StronglySorted R l -> StronglySorted R (firstn n l).
Proof.
  revert l. induction n as [|n IH]; intros l H; [constructor|].
  destruct l as [|x l]; [constructor|]. simpl. inversion H as [|? ? Hs Hx]; subst.
  constructor; [now apply IH|].
  rewrite Forall_forall in Hx |- *. intros y Hy. apply Hx.
  now apply In_firstn in Hy.
Qed.

Lemma window_sorted (a b : Z) (l : list PixelCardRow) :
  StronglySorted (row_desc instant) l -> StronglySorted (row_desc instant) (Reference.window a b l).
Proof. intro H. unfold Reference.window. now apply sorted_firstn, sorted_skipn. Qed.

Lemma responses_sorted (l : list PixelCardRow) :
  StronglySorted (row_desc instant) l ->
  StronglySorted (response_desc instant) (map PixelCardRepository.transformRowToResponse l).
Proof.
  induction 1 as [|x l Hs IH Hx]; simpl; constructor; [exact IH|].
  rewrite Forall_forall in Hx |- *. intros y Hy.
  apply in_map_iff in Hy as [r [<- Hr]]. exact (Hx r Hr).
Qed.

End Ordering.

(** ** The listing, step by step *)



(** ** C6 *)



(** ** C4 *)

(** C4 (as amended).  For a valid row whose creation time stamp the host
    can read, [transformRowToPixelCard] gives an entity that carries
    identifier, name, path, URL, byte size and MIME type of the row
    unchanged and the two time stamps as the instants they denote; the
    only mapping out of the entity, [transformPixelCardToResponse], then
    gives identifier, name, URL and byte size of the row unchanged and, as
    creation time, the ISO text of the instant the row's time stamp
    denotes (the same instant again on a host that reads back what it
    writes).  Path, last-modified time and MIME type are not part of that
    result. *)
Theorem row_to_entity_to_response (h : Host) (row : PixelCardRow) (t : Z) :
  validatePixelCardRow row = true ->
  Date_parse h (created_at row) = Some t ->
  exists card : PixelCard,
    TypeValidation.transformRowToPixelCard h row = Ok card
    /\ id card = row_id row
    /\ userName card = user_name row
    /\ imagePath card = image_path row
    /\ imageUrl card = image_url row
    /\ fileSize card = file_size row
    /\ mimeType card = mime_type row
    /\ createdAt card = Date_parse h (created_at row)
    /\ updatedAt card = Date_parse h (updated_at row)
    /\ transformPixelCardToResponse h card =
         Ok {| resp_id := row_id row;
               resp_userName := user_name row;
               resp_imageUrl := image_url row;
               resp_createdAt := Date_iso h t;
               resp_fileSize := file_size row |}
    /\ (Date_parse h (Date_iso h t) = Some t ->
        new_Date h (Date_iso h t) = new_Date h (created_at row)).
Proof.
  intros V P. unfold TypeValidation.transformRowToPixelCard. rewrite V. cbn [negb].
  eexists. split; [reflexivity|]. cbn.
  repeat (split; [reflexivity|]). split.
  - unfold transformPixelCardToResponse, toISOString. cbn.
    unfold new_Date. rewrite P. reflexivity.
  - intro B. unfold new_Date. now rewrite B, P.
Qed.

Lemma row_to_entity_to_response_witness :
  row_to_response Reference.iso_host
    (sample_row "2024/01/a.png" "image/png" "2024-01-15T10:30:00.123456+00:00")
  = Ok {| resp_id := js "123e4567-e89b-42d3-a456-426614174000";
          resp_userName := js "Ada";
          resp_imageUrl :=
            js "https://project.supabase.co/storage/v1/object/public/pixel-images/a.png";
          resp_createdAt := js "2024-01-15T10:30:00.123Z";
          resp_fileSize := 2048 |}.
Proof.
  destruct (row_to_entity_to_response Reference.iso_host
              (sample_row "2024/01/a.png" "image/png" "2024-01-15T10:30:00.123456+00:00")
              1705314600123 eq_refl eq_refl)
    as [card [E [_ [_ [_ [_ [_ [_ [_ [_ [R _]]]]]]]]]]].
  unfold row_to_response. rewrite E. exact R.
Defined.

(** C4 (as stated) fails: two valid rows that differ in storage path,
    last-modified time and MIME type have the same image under the two
    mappings, so that image does not reproduce those fields. *)
Lemma roundtrip_counterexample :
  validatePixelCardRow
    (sample_row "2024/01/a.png" "image/png" "2024-01-15T10:30:00.123456+00:00") = true
  /\ validatePixelCardRow
       (sample_row "2024/02/b.jpg" "image/jpeg" "2024-02-20T08:00:00+00:00") = true
  /\ image_path (sample_row "2024/01/a.png" "image/png" "2024-01-15T10:30:00.123456+00:00")
     <> image_path (sample_row "2024/02/b.jpg" "image/jpeg" "2024-02-20T08:00:00+00:00")
  /\ mime_type (sample_row "2024/01/a.png" "image/png" "2024-01-15T10:30:00.123456+00:00")
     <> mime_type (sample_row "2024/02/b.jpg" "image/jpeg" "2024-02-20T08:00:00+00:00")
  /\ updated_at (sample_row "2024/01/a.png" "image/png" "2024-01-15T10:30:00.123456+00:00")
     <> updated_at (sample_row "2024/02/b.jpg" "image/jpeg" "2024-02-20T08:00:00+00:00")
  /\ row_to_response Reference.iso_host
       (sample_row "2024/01/a.png" "image/png" "2024-01-15T10:30:00.123456+00:00")
     = row_to_response Reference.iso_host
         (sample_row "2024/02/b.jpg" "image/jpeg" "2024-02-20T08:00:00+00:00")
  /\ exists resp, row_to_response Reference.iso_host
       (sample_row "2024/01/a.png" "image/png" "2024-01-15T10:30:00.123456+00:00") = Ok resp
       /\ resp_createdAt resp <> js "2024-01-15T10:30:00.123456+00:00".
Proof.
  split; [reflexivity|]. split; [reflexivity|].
  split; [vm_compute; discriminate|]. split; [vm_compute; discriminate|].
  split; [vm_compute; discriminate|]. split; [reflexivity|].
  eexists. split; [reflexivity|]. vm_compute. discriminate.
Qed.

(** ** The decoder *)

Lemma decode_sextets_length (v : list N) :
  List.length (decode_sextets v) = (3 * List.length v / 4)%nat.
Proof.
  assert (forall n v, (List.length v <= n)%nat ->
            List.length (decode_sextets v) = (3 * List.length v / 4)%nat) as H.
  { induction n as [|n IH]; intros [|a [|b [|c [|d r]]]] L; try reflexivity;
      try (cbn [List.length] in L; lia).
    cbn [decode_sextets List.length].
    rewrite (IH r) by (cbn [List.length] in L; lia).
    replace (3 * S (S (S (S (List.length r)))))%nat
      with (3 * 4 + 3 * List.length r)%nat by lia.
    rewrite (Nat.div_add_l 3 4) by discriminate. lia. }
  apply (H (List.length v)). apply Nat.le_refl.
Qed.

Lemma decode_sextets_size (v : list N) :
  Z.of_nat (List.length (decode_sextets v)) = 3 * Z.of_nat (List.length v) / 4.
Proof.
  rewrite decode_sextets_length, Nat2Z.inj_div, Nat2Z.inj_mul. reflexivity.
Qed.

Lemma filter_all {A} (f : A -> bool) (l : list A) :
  forallb f l = true -> filter f l = l.
Proof.
  induction l as [|x l IH]; simpl; [reflexivity|].
  intro H. apply andb_true_iff in H as [Hx Hl]. now rewrite Hx, IH.
Qed.

Lemma strip_padding_length (s : jsstring) : strlen (strip_padding s) <= strlen s.
Proof.
  unfold strip_padding, strlen.
  destruct (rev s) as [|c [|d r]] eqn:E; [lia | | ].
  - destruct (is_pad c); cbn [List.length]; lia.
  - assert (List.length s = S (S (List.length r))) as L
      by (rewrite <- length_rev, E; reflexivity).
    destruct (is_pad c); [|lia].
    destruct (is_pad d); rewrite length_rev; cbn [List.length]; lia.
Qed.

(** What [atob] returns has at most three bytes for every four characters. *)
Lemma atob_length_bound (p : jsstring) (bytes : list N) :
  atob p = Some bytes -> 4 * Z.of_nat (List.length bytes) <= 3 * strlen p.
Proof.
  unfold atob.
  set (s1 := filter (fun c => negb (is_ascii_whitespace c)) p).
  set (s2 := if strlen s1 mod 4 =? 0 then strip_padding s1 else s1).
  assert (strlen s2 <= strlen p) as L.
  { assert (strlen s1 <= strlen p) as L1
      by (unfold strlen, s1; apply inj_le, filter_length_le).
    unfold s2. destruct (strlen s1 mod 4 =? 0); [|exact L1].
    pose proof (strip_padding_length s1). lia. }
  destruct (strlen s2 mod 4 =? 1); [discriminate|].
  destruct (forallb b64_char s2); [|discriminate].
  intro E. injection E as <-.
  rewrite decode_sextets_size, length_map. fold (strlen s2).
  pose proof (Z.mul_div_le (3 * strlen s2) 4). lia.
Qed.

Lemma b64_char_not_whitespace (c : char16) :
  b64_char c = true -> is_ascii_whitespace c = false.
Proof.
  unfold b64_char, is_ascii_whitespace, is_upper, is_lower, is_digit, in_range, char_eqb, cu.
  cbn [N_of_ascii N_of_digits N.add N.mul].
  intro H.
  repeat match goal with
         | |- context [N.eqb ?a ?b] => destruct (N.eqb_spec a b)
         end; try reflexivity; subst; discriminate.
Qed.

Lemma text_no_whitespace (body : jsstring) (k : nat) :
  forallb b64_char body = true ->
  filter (fun c => negb (is_ascii_whitespace c)) (body ++ repeat (cu "=") k)
  = body ++ repeat (cu "=") k.
Proof.
  intro H. apply filter_all. rewrite forallb_app. apply andb_true_iff. split.
  - rewrite forallb_forall in H |- *. intros c Hc.
    now rewrite (b64_char_not_whitespace c (H c Hc)).
  - apply forallb_forall. intros c Hc. apply repeat_spec in Hc. now subst.
Qed.

Lemma strip_padding_body (body : jsstring) :
  forallb b64_char body = true -> strip_padding body = body.
Proof.
  intro H. unfold strip_padding.
  destruct (rev body) as [|c r] eqn:E; [reflexivity|].
  assert (is_pad c = false) as P.
  { assert (In c body) as Hc by (apply in_rev; rewrite E; now left).
    rewrite forallb_forall in H. specialize (H c Hc).
    destruct (is_pad c) eqn:Q; [|reflexivity].
    apply char_eqb_eq in Q. subst. discriminate. }
  rewrite P. now destruct r.
Qed.

Lemma strip_padding_one (body : jsstring) :
  forallb b64_char body = true -> strip_padding (body ++ [cu "="]) = body.
Proof.
  intro H. unfold strip_padding. rewrite rev_app_distr. cbn [rev app].
  destruct (rev body) as [|d r] eqn:E.
  - replace (is_pad (cu "=")) with true by reflexivity.
    apply (f_equal (@rev _)) in E. rewrite rev_involutive in E. now rewrite E.
  - replace (is_pad (cu "=")) with true by reflexivity.
    assert (is_pad d = false) as P.
    { assert (In d body) as Hd by (apply in_rev; rewrite E; now left).
      rewrite forallb_forall in H. specialize (H d Hd).
      destruct (is_pad d) eqn:Q; [|reflexivity].
      apply char_eqb_eq in Q. subst. discriminate. }
    rewrite P. change (rev (d :: r) = body). rewrite <- E. apply rev_involutive.
Qed.

Lemma strip_padding_two (x : jsstring) : strip_padding (x ++ [cu "="; cu "="]) = x.
Proof.
  unfold strip_padding. rewrite rev_app_distr. cbn [rev app].
  replace (is_pad (cu "=")) with true by reflexivity. apply rev_involutive.
Qed.

Lemma forallb_b64_padded (x : jsstring) (k : nat) :
  (1 <= k)%nat -> forallb b64_char (x ++ repeat (cu "=") k) = false.
Proof.
  intro K. rewrite forallb_app. destruct k as [|k]; [lia|].
  cbn [repeat forallb]. replace (b64_char (cu "=")) with false by reflexivity.
  cbn [andb]. apply andb_false_r.
Qed.

(** Unpadded text decodes unless one character is left over. *)
Lemma atob_body (body : jsstring) :
  forallb b64_char body = true -> strlen body mod 4 <> 1 ->
  atob body = Some (decode_sextets (map b64_value body)).
Proof.
  intros H M. unfold atob.
  pose proof (text_no_whitespace body 0 H) as W. cbn [repeat] in W.
  rewrite app_nil_r in W. rewrite W, (strip_padding_body _ H).
  destruct (strlen body mod 4 =? 0); apply Z.eqb_neq in M; now rewrite M, H.
Qed.

(** Text padded to a multiple of four with one or two [=] decodes to what
    its body decodes to. *)
Lemma atob_padded (body : jsstring) (k : nat) :
  forallb b64_char body = true -> (1 <= k <= 2)%nat ->
  (strlen body + Z.of_nat k) mod 4 = 0 ->
  atob (body ++ repeat (cu "=") k) = Some (decode_sextets (map b64_value body)).
Proof.
  intros H K M. unfold atob. rewrite (text_no_whitespace body k H).
  rewrite strlen_app, strlen_repeat.
  replace ((strlen body + Z.of_nat k) mod 4 =? 0) with true
    by (symmetry; now apply Z.eqb_eq).
  assert (strip_padding (body ++ repeat (cu "=") k) = body) as S.
  { destruct k as [|[|[|k]]]; try lia.
    - now apply strip_padding_one.
    - apply strip_padding_two. }
  rewrite S, H.
  replace (strlen body mod 4 =? 1) with false; [reflexivity|].
  symmetry. apply Z.eqb_neq. intro E.
  pose proof (strlen_nonneg body).
  destruct k as [|[|[|k]]]; try lia.
  - rewrite Z.add_mod, E in M by lia. discriminate.
  - rewrite Z.add_mod, E in M by lia. discriminate.
Qed.

(** Padded text that [atob] accepts has a length that is a multiple of
    four and at most two [=]. *)
Lemma atob_accepts_padded (body : jsstring) (k : nat) :
  forallb b64_char body = true -> (1 <= k)%nat ->
  atob (body ++ repeat (cu "=") k) <> None ->
  (strlen body + Z.of_nat k) mod 4 = 0 /\ (k <= 2)%nat.
Proof.
  intros H K A. unfold atob in A. rewrite (text_no_whitespace body k H) in A.
  rewrite strlen_app, strlen_repeat in A.
  destruct ((strlen body + Z.of_nat k) mod 4 =? 0) eqn:M.
  - apply Z.eqb_eq in M. split; [exact M|].
    destruct (le_lt_dec k 2) as [L|L]; [exact L | exfalso].
    replace k with ((k - 2) + 2)%nat in A by lia.
    rewrite repeat_app, app_assoc in A. cbn [repeat] in A.
    rewrite strip_padding_two in A.
    rewrite (forallb_b64_padded body (k - 2)) in A by lia.
    now destruct (strlen (body ++ repeat (cu "=") (k - 2)) mod 4 =? 1).
  - exfalso. rewrite (forallb_b64_padded body k K) in A.
    apply A. now destruct (strlen (body ++ repeat (cu "=") k) mod 4 =? 1).
Qed.

(** ** The image validator on well-formed data URIs *)

Lemma strip_prefix_app (p s : jsstring) : strip_prefix p (p ++ s) = Some s.
Proof.
  induction p as [|c p IH]; [reflexivity|].
  cbn [app strip_prefix]. unfold char_eqb. now rewrite N.eqb_refl.
Qed.

Lemma png_prefix_matches (p : jsstring) :
  BASE64_IMAGE_PREFIX_PATTERN (png_prefix ++ p) = Some p.
Proof.
  unfold BASE64_IMAGE_PREFIX_PATTERN. fold png_prefix.
  now rewrite strip_prefix_app.
Qed.

Lemma png_prefix_comma (p : jsstring) :
  png_prefix ++ p = js "data:image/png;base64" ++ cu "," :: p.
Proof. reflexivity. Qed.

Lemma png_prefix_payload (p : jsstring) :
  includes (cu ",") p = false -> split_comma_1 (png_prefix ++ p) = Some p.
Proof.
  intro H. rewrite png_prefix_comma. now apply split_comma_1_payload.
Qed.

Lemma drop_while_app (f : char16 -> bool) (a b : jsstring) :
  forallb f a = true -> drop_while f (a ++ b) = drop_while f b.
Proof.
  induction a as [|c a IH]; [reflexivity|].
  cbn [forallb app drop_while]. intro H. apply andb_true_iff in H as [Hc Ha].
  rewrite Hc. now apply IH.
Qed.

Lemma base64Pattern_text (body : jsstring) (k : nat) :
  forallb b64_char body = true -> (k <= 2)%nat ->
  base64Pattern (body ++ repeat (cu "=") k) = true.
Proof.
  intros H K. unfold base64Pattern. rewrite (drop_while_app _ _ _ H).
  destruct k as [|[|[|k]]]; try lia; reflexivity.
Qed.

Lemma base64Pattern_body (body : jsstring) :
  forallb b64_char body = true -> base64Pattern body = true.
Proof.
  intro H. pose proof (base64Pattern_text body 0 H (Nat.le_0_l 2)) as P.
  cbn [repeat] in P. now rewrite app_nil_r in P.
Qed.

(** The estimate against a ceiling, in whole numbers. *)
Lemma estimate_within (p : jsstring) (m : Z) :
  Qle_bool (estimatedSize p) (inject_Z m) = (3 * strlen p <=? 4 * m).
Proof.
  unfold Qle_bool, estimatedSize, inject_Z. cbn [Qnum Qden].
  f_equal; lia.
Qed.

(** Once the prefix, the payload and the alphabet are in order, the
    verdict is the comparison of the estimate with the ceiling. *)
Lemma validateImageData_verdict (s p : jsstring) :
  BASE64_IMAGE_PREFIX_PATTERN s <> None ->
  split_comma_1 s = Some p -> p <> [] -> base64Pattern p = true ->
  validateImageData (JString s)
  = finish (push_if (negb (3 * strlen p <=? 4 * IMAGE_MAX_SIZE_BYTES)) msg_image_size []).
Proof.
  intros Hprefix Hsplit Hp Hpat. unfold validateImageData.
  destruct s as [|c s]; [discriminate|].
  change (negb (truthy (JString (c :: s)))
          || negb (String.eqb (typeof (JString (c :: s))) "string")) with false.
  cbn iota. change (as_string (JString (c :: s))) with (c :: s).
  destruct (BASE64_IMAGE_PREFIX_PATTERN (c :: s)); [|congruence].
  rewrite Hsplit. destruct p as [|x p]; [congruence|].
  rewrite Hpat. cbn [negb]. now rewrite estimate_within.
Qed.

(** A payload whose estimate is above the ceiling never passes, whatever
    else is wrong with the data. *)
Lemma validateImageData_oversized (s p : jsstring) :
  split_comma_1 s = Some p ->
  4 * IMAGE_MAX_SIZE_BYTES < 3 * strlen p ->
  isValid (validateImageData (JString s)) = false
  /\ (BASE64_IMAGE_PREFIX_PATTERN s <> None -> base64Pattern p = true ->
      errors (validateImageData (JString s)) = [msg_image_size]).
Proof.
  intros Hsplit Hsize.
  assert (p <> []) as Hp.
  { intro E. subst. unfold IMAGE_MAX_SIZE_BYTES, strlen in Hsize. simpl in Hsize. lia. }
  assert ((3 * strlen p <=? 4 * IMAGE_MAX_SIZE_BYTES) = false) as Hle
    by (apply Z.leb_gt; exact Hsize).
  split.
  - unfold validateImageData.
    destruct s as [|c s]; [discriminate|].
    change (negb (truthy (JString (c :: s)))
            || negb (String.eqb (typeof (JString (c :: s))) "string")) with false.
    cbn iota. change (as_string (JString (c :: s))) with (c :: s).
    destruct (BASE64_IMAGE_PREFIX_PATTERN (c :: s)); [|reflexivity].
    rewrite Hsplit. destruct p as [|x p]; [congruence|].
    destruct (base64Pattern (x :: p)); [|reflexivity].
    cbn [negb]. now rewrite estimate_within, Hle.
  - intros Hprefix Hpat.
    rewrite (validateImageData_verdict s p Hprefix Hsplit Hp Hpat), Hle. reflexivity.
Qed.

(** The violations of a data URI with a payload: one message, chosen by the
    first test that fails. *)
Lemma validateImageData_violation (s p : jsstring) :
  split_comma_1 s = Some p -> p <> [] ->
  errors (validateImageData (JString s))
  = match BASE64_IMAGE_PREFIX_PATTERN s with
    | None => [msg_image_prefix]
    | Some _ =>
        if base64Pattern p
        then (if 3 * strlen p <=? 4 * IMAGE_MAX_SIZE_BYTES then [] else [msg_image_size])
        else [msg_image_encoding]
    end.
Proof.
  intros Hsplit Hp. unfold validateImageData.
  destruct s as [|c s]; [discriminate|].
  change (negb (truthy (JString (c :: s)))
          || negb (String.eqb (typeof (JString (c :: s))) "string")) with false.
  cbn iota. change (as_string (JString (c :: s))) with (c :: s).
  destruct (BASE64_IMAGE_PREFIX_PATTERN (c :: s)); [|reflexivity].
  rewrite Hsplit. destruct p as [|x p]; [congruence|].
  destruct (base64Pattern (x :: p)); [|reflexivity].
  cbn [negb]. rewrite estimate_within.
  now destruct (3 * strlen (x :: p) <=? 4 * IMAGE_MAX_SIZE_BYTES).
Qed.

(** ** The save operation when validation fails *)

Lemma savePixelCard_rejected (env : Env) (request : CreatePixelCardRequest) (b : Backend) :
  isValid (validateCreatePixelCardRequest (request_value request)) = false ->
  let e := Error (js "Validation failed: "
                  ++ join (js ", ")
                       (errors (validateCreatePixelCardRequest (request_value request)))) in
  savePixelCard env request b
  = (Throw e, [EvConsoleError (js "Failed to save pixel card:") e]).
Proof.
  intros V e. unfold savePixelCard, try_catch, bind, lift, validateCreateRequest.
  rewrite V. reflexivity.
Qed.

(** ** C8 *)

(** C8 (as amended).  If the payload of the request's image data (the
    text after the first comma) decodes to more bytes than the 10 MiB
    ceiling, as a payload of 11 MiB does, [savePixelCard] throws a
    validation failure and sends nothing to the backend: no upload, no
    insert; the only event is the log line of its [catch].  The violation
    reported for the image is the one of the first test that fails: the
    size-exceeded violation when the data URI has a PNG or JPEG prefix and
    a payload in the base64 alphabet, the prefix violation when the prefix
    is another one, the encoding violation when the payload leaves the
    alphabet. *)
Theorem savePixelCard_oversized_never_uploads
    (env : Env) (request : CreatePixelCardRequest) (b : Backend)
    (payload : jsstring) (bytes : list N) :
  split_comma_1 (req_imageData request) = Some payload ->
  atob payload = Some bytes ->
  IMAGE_MAX_SIZE_BYTES < Z.of_nat (List.length bytes) ->
  exists errs : list jsstring,
    savePixelCard env request b
    = (Throw (Error (js "Validation failed: " ++ join (js ", ") errs)),
       [EvConsoleError (js "Failed to save pixel card:")
          (Error (js "Validation failed: " ++ join (js ", ") errs))])
    /\ errs = errors (validateCreatePixelCardRequest (request_value request))
    /\ errs <> []
    /\ filter is_backend_call (snd (savePixelCard env request b)) = []
    /\ (BASE64_IMAGE_PREFIX_PATTERN (req_imageData request) <> None ->
        base64Pattern payload = true ->
        In msg_image_size errs)
    /\ errs = errors (validateUserName (JString (req_userName request)))
              ++ match BASE64_IMAGE_PREFIX_PATTERN (req_imageData request) with
                 | None => [msg_image_prefix]
                 | Some _ =>
                     if base64Pattern payload then [msg_image_size]
                     else [msg_image_encoding]
                 end.
Proof.
  intros Hsplit Hatob Hsize.
  pose proof (atob_length_bound _ _ Hatob) as Hbound.
  assert (4 * IMAGE_MAX_SIZE_BYTES < 3 * strlen payload) as Hest by lia.
  destruct (validateImageData_oversized _ _ Hsplit Hest) as [Vimage Eimage].
  assert (isValid (validateCreatePixelCardRequest (request_value request)) = false) as V.
  { unfold request_value. rewrite request_verdict. cbn [get_prop String.eqb Ascii.eqb Bool.eqb].
    rewrite Vimage. apply andb_false_r. }
  pose proof (savePixelCard_rejected env request b V) as S. cbn zeta in S.
  eexists. split; [exact S|]. split; [reflexivity|]. split; [|split; [|split]].
  - apply coherent_invalid; [|exact V].
    unfold request_value, coherent. rewrite request_verdict, request_errors.
    pose proof (validateUserName_coherent (JString (req_userName request))) as Cn.
    pose proof (validateImageData_coherent (JString (req_imageData request))) as Ci.
    cbn [get_prop String.eqb Ascii.eqb Bool.eqb].
    unfold coherent in Cn, Ci. rewrite andb_true_iff, Cn, Ci. split.
    + intros [-> ->]. reflexivity.
    + intro E. now apply app_eq_nil in E.
  - rewrite S. reflexivity.
  - intros Hprefix Hpat. unfold request_value. rewrite request_errors.
    cbn [get_prop String.eqb Ascii.eqb Bool.eqb].
    rewrite (Eimage Hprefix Hpat). apply in_or_app. right. now left.
  - unfold request_value. rewrite request_errors.
    cbn [get_prop String.eqb Ascii.eqb Bool.eqb]. f_equal.
    assert (payload <> []) as Hp.
    { intro E. subst. unfold IMAGE_MAX_SIZE_BYTES, strlen in Hest. simpl in Hest. lia. }
    rewrite (validateImageData_violation _ _ Hsplit Hp).
    assert ((3 * strlen payload <=? 4 * IMAGE_MAX_SIZE_BYTES) = false) as Hle
      by (apply Z.leb_gt; exact Hest).
    now rewrite Hle.
Qed.

Lemma forallb_repeat {A} (f : A -> bool) (x : A) (n : nat) :
  f x = true -> forallb f (repeat x n) = true.
Proof. intro H. induction n as [|n IH]; [reflexivity|]. cbn [repeat forallb]. now rewrite H. Qed.

Lemma zeros_base64_alphabet (n : Z) : forallb b64_char (zeros_base64 n) = true.
Proof. now apply forallb_repeat. Qed.

Lemma zeros_base64_length (n : Z) : 0 <= n -> strlen (zeros_base64 n) = n.
Proof. intro H. unfold zeros_base64. rewrite strlen_repeat. now apply Z2Nat.id. Qed.

Lemma zeros_base64_decoded_size (n : Z) :
  0 <= n ->
  Z.of_nat (List.length (decode_sextets (map b64_value (zeros_base64 n)))) = 3 * n / 4.
Proof.
  intro H. rewrite decode_sextets_size, length_map.
  fold (strlen (zeros_base64 n)). now rewrite zeros_base64_length.
Qed.

Lemma savePixelCard_oversized_never_uploads_witness :
  Z.of_nat (List.length (decode_sextets (map b64_value (zeros_base64 15379115))))
  = 11 * 1024 * 1024
  /\ exists errs : list jsstring,
       savePixelCard sample_env
         {| req_userName := js "Ada";
            req_imageData := png_prefix ++ zeros_base64 15379115 |} sample_backend
       = (Throw (Error (js "Validation failed: " ++ join (js ", ") errs)),
          [EvConsoleError (js "Failed to save pixel card:")
             (Error (js "Validation failed: " ++ join (js ", ") errs))])
       /\ In msg_image_size errs.
Proof.
  assert (0 <= 15379115) as P by discriminate.
  pose proof (zeros_base64_decoded_size 15379115 P) as D.
  split; [rewrite D; reflexivity|].
  assert (split_comma_1 (png_prefix ++ zeros_base64 15379115) = Some (zeros_base64 15379115))
    as H1 by (apply png_prefix_payload, b64_body_no_comma, zeros_base64_alphabet).
  assert (atob (zeros_base64 15379115)
          = Some (decode_sextets (map b64_value (zeros_base64 15379115)))) as H2.
  { apply atob_body; [apply zeros_base64_alphabet|].
    rewrite (zeros_base64_length 15379115 P). discriminate. }
  assert (IMAGE_MAX_SIZE_BYTES
          < Z.of_nat (List.length (decode_sextets (map b64_value (zeros_base64 15379115)))))
    as H3 by (rewrite D; reflexivity).
  destruct (savePixelCard_oversized_never_uploads sample_env
              {| req_userName := js "Ada";
                 req_imageData := png_prefix ++ zeros_base64 15379115 |}
              sample_backend _ _ H1 H2 H3) as [errs [S [_ [_ [_ [I _]]]]]].
  exists errs. split; [exact S|]. apply I.
  - cbn [req_imageData]. rewrite png_prefix_matches. discriminate.
  - apply base64Pattern_body, zeros_base64_alphabet.
Defined.

(** White space before the payload is skipped by [atob] and refused by the
    pattern of the validator. *)
Lemma atob_leading_space (p : jsstring) : atob (cu " " :: p) = atob p.
Proof. reflexivity. Qed.

Lemma base64Pattern_leading_space (p : jsstring) : base64Pattern (cu " " :: p) = false.
Proof. destruct p as [|x [|y p]]; reflexivity. Qed.

Lemma gif_prefix_comma (p : jsstring) :
  gif_prefix ++ p = js "data:image/gif;base64" ++ cu "," :: p.
Proof. reflexivity. Qed.

Lemma gif_prefix_refused (p : jsstring) :
  BASE64_IMAGE_PREFIX_PATTERN (gif_prefix ++ p) = None.
Proof. reflexivity. Qed.

Lemma request_with_image_errors (name image : jsstring) :
  errors (validateImageData (JString image)) <> [] ->
  isValid (validateCreatePixelCardRequest
             (request_value {| req_userName := name; req_imageData := image |})) = false.
Proof.
  intro H. unfold request_value. rewrite request_verdict.
  cbn [get_prop String.eqb Ascii.eqb Bool.eqb req_userName req_imageData].
  destruct (isValid (validateImageData (JString image))) eqn:V; [|apply andb_false_r].
  now apply (validateImageData_coherent (JString image)) in V.
Qed.

(** What the save operation answers to an oversized payload behind another
    prefix, and to one that starts with a space. *)
Lemma oversized_reports (body : jsstring) (env : Env) (b : Backend) :
  forallb b64_char body = true -> strlen body = 15379115 ->
  (exists bytes : list N,
     atob body = Some bytes
     /\ atob (cu " " :: body) = Some bytes
     /\ Z.of_nat (List.length bytes) = 11 * 1024 * 1024)
  /\ split_comma_1 (gif_prefix ++ body) = Some body
  /\ split_comma_1 (png_prefix ++ cu " " :: body) = Some (cu " " :: body)
  /\ errors (validateCreatePixelCardRequest
               (request_value {| req_userName := js "Ada";
                                 req_imageData := gif_prefix ++ body |}))
     = [msg_image_prefix]
  /\ errors (validateCreatePixelCardRequest
               (request_value {| req_userName := js "Ada";
                                 req_imageData := png_prefix ++ cu " " :: body |}))
     = [msg_image_encoding]
  /\ savePixelCard env
       {| req_userName := js "Ada"; req_imageData := gif_prefix ++ body |} b
     = (Throw (Error (js "Validation failed: Image data must be a valid PNG or JPEG in base64 format")),
        [EvConsoleError (js "Failed to save pixel card:")
           (Error (js "Validation failed: Image data must be a valid PNG or JPEG in base64 format"))])
  /\ savePixelCard env
       {| req_userName := js "Ada"; req_imageData := png_prefix ++ cu " " :: body |} b
     = (Throw (Error (js "Validation failed: Invalid base64 encoding")),
        [EvConsoleError (js "Failed to save pixel card:")
           (Error (js "Validation failed: Invalid base64 encoding"))]).
Proof.
  intros Halpha Hlen.
  assert (includes (cu ",") body = false) as Hc by now apply b64_body_no_comma.
  assert (atob body = Some (decode_sextets (map b64_value body))) as Hatob.
  { apply atob_body; [exact Halpha|]. rewrite Hlen. discriminate. }
  assert (split_comma_1 (gif_prefix ++ body) = Some body) as Sg.
  { rewrite gif_prefix_comma. now apply split_comma_1_payload. }
  assert (split_comma_1 (png_prefix ++ cu " " :: body) = Some (cu " " :: body)) as Ss.
  { apply png_prefix_payload. unfold includes in *. cbn [existsb]. now rewrite Hc. }
  assert (body <> []) as Hb by (intro E; subst; discriminate).
  assert (errors (validateImageData (JString (gif_prefix ++ body))) = [msg_image_prefix])
    as Ig.
  { now rewrite (validateImageData_violation _ _ Sg Hb), gif_prefix_refused. }
  assert (errors (validateImageData (JString (png_prefix ++ cu " " :: body)))
          = [msg_image_encoding]) as Is.
  { rewrite (validateImageData_violation _ _ Ss) by discriminate.
    now rewrite png_prefix_matches, base64Pattern_leading_space. }
  assert (errors (validateCreatePixelCardRequest
                    (request_value {| req_userName := js "Ada";
                                      req_imageData := gif_prefix ++ body |}))
          = [msg_image_prefix]) as Eg.
  { unfold request_value. rewrite request_errors.
    cbn [get_prop String.eqb Ascii.eqb Bool.eqb req_userName req_imageData].
    rewrite Ig. reflexivity. }
  assert (errors (validateCreatePixelCardRequest
                    (request_value {| req_userName := js "Ada";
                                      req_imageData := png_prefix ++ cu " " :: body |}))
          = [msg_image_encoding]) as Es.
  { unfold request_value. rewrite request_errors.
    cbn [get_prop String.eqb Ascii.eqb Bool.eqb req_userName req_imageData].
    rewrite Is. reflexivity. }
  split; [|split; [exact Sg | split; [exact Ss | split; [exact Eg | split; [exact Es|]]]]].
  - exists (decode_sextets (map b64_value body)).
    split; [exact Hatob|]. split; [now rewrite atob_leading_space|].
    rewrite decode_sextets_size, length_map. fold (strlen body). now rewrite Hlen.
  - split.
    + pose proof (savePixelCard_rejected env
                    {| req_userName := js "Ada"; req_imageData := gif_prefix ++ body |} b) as S.
      cbn zeta in S. rewrite Eg in S. apply S.
      apply request_with_image_errors. rewrite Ig. discriminate.
    + pose proof (savePixelCard_rejected env
                    {| req_userName := js "Ada";
                       req_imageData := png_prefix ++ cu " " :: body |} b) as S.
      cbn zeta in S. rewrite Es in S. apply S.
      apply request_with_image_errors. rewrite Is. discriminate.
Qed.

(** C8 (as stated) fails: a payload of 11 MiB behind a GIF prefix, and one
    behind a PNG prefix with a leading space, both decode to 11 MiB, above the 10 MiB ceiling,
    and the save operation fails with the prefix violation and with the
    encoding violation; neither failure mentions the size. *)
Lemma savePixelCard_oversized_counterexample :
  (exists bytes : list N,
     atob (zeros_base64 15379115) = Some bytes
     /\ atob (cu " " :: zeros_base64 15379115) = Some bytes
     /\ Z.of_nat (List.length bytes) = 11 * 1024 * 1024)
  /\ split_comma_1 (gif_prefix ++ zeros_base64 15379115) = Some (zeros_base64 15379115)
  /\ split_comma_1 (png_prefix ++ cu " " :: zeros_base64 15379115)
     = Some (cu " " :: zeros_base64 15379115)
  /\ errors (validateCreatePixelCardRequest
               (request_value {| req_userName := js "Ada";
                                 req_imageData := gif_prefix ++ zeros_base64 15379115 |}))
     = [msg_image_prefix]
  /\ errors (validateCreatePixelCardRequest
               (request_value {| req_userName := js "Ada";
                                 req_imageData :=
                                   png_prefix ++ cu " " :: zeros_base64 15379115 |}))
     = [msg_image_encoding]
  /\ savePixelCard sample_env
       {| req_userName := js "Ada";
          req_imageData := gif_prefix ++ zeros_base64 15379115 |} sample_backend
     = (Throw (Error (js "Validation failed: Image data must be a valid PNG or JPEG in base64 format")),
        [EvConsoleError (js "Failed to save pixel card:")
           (Error (js "Validation failed: Image data must be a valid PNG or JPEG in base64 format"))])
  /\ savePixelCard sample_env
       {| req_userName := js "Ada";
          req_imageData := png_prefix ++ cu " " :: zeros_base64 15379115 |} sample_backend
     = (Throw (Error (js "Validation failed: Invalid base64 encoding")),
        [EvConsoleError (js "Failed to save pixel card:")
           (Error (js "Validation failed: Invalid base64 encoding"))]).
Proof.
  apply oversized_reports.
  - apply zeros_base64_alphabet.
  - now apply zeros_base64_length.
Qed.

(** ** C10 *)

(** C10.  The size check of [validateImageData] compares [L * 3 / 4] with
    the ceiling and does not subtract padding: for padded base64 text
    that the decoder accepts, with [k >= 1] characters [=], the estimate
    is exactly [k] more than [calculateBase64FileSize] of the same text,
    and it alone decides the verdict.  So there is a data URI whose
    payload decodes to exactly 10 MiB, and for which
    [calculateBase64FileSize] gives exactly 10 MiB, that
    [validateImageData] rejects as too large. *)
Theorem validateImageData_estimate_ignores_padding :
  (forall (body : jsstring) (k : nat),
     forallb b64_char body = true -> (1 <= k)%nat ->
     atob (body ++ repeat (cu "=") k) <> None ->
     (estimatedSize (body ++ repeat (cu "=") k)
      == inject_Z (calculateBase64FileSize (body ++ repeat (cu "=") k) + Z.of_nat k))%Q
     /\ isValid (validateImageData (JString (png_prefix ++ body ++ repeat (cu "=") k)))
        = Qle_bool (estimatedSize (body ++ repeat (cu "=") k))
                   (inject_Z IMAGE_MAX_SIZE_BYTES))
  /\ (exists (payload : jsstring) (bytes : list N),
        atob payload = Some bytes
        /\ Z.of_nat (List.length bytes) = IMAGE_MAX_SIZE_BYTES
        /\ calculateBase64FileSize payload = IMAGE_MAX_SIZE_BYTES
        /\ calculateBase64FileSize (png_prefix ++ payload) = IMAGE_MAX_SIZE_BYTES
        /\ validateImageData (JString (png_prefix ++ payload))
           = mkValidation false [msg_image_size]).
Proof.
  split.
  - intros body k H K A.
    destruct (atob_accepts_padded body k H K A) as [M K2].
    set (p := body ++ repeat (cu "=") k).
    assert (strlen p mod 4 = 0) as Mp
      by (unfold p; now rewrite strlen_app, strlen_repeat).
    split.
    + unfold p. rewrite (calculateBase64FileSize_bare body k H). fold p.
      unfold estimatedSize, Qeq, inject_Z. cbn [Qnum Qden].
      replace (strlen p * 3 / 4 - Z.of_nat k + Z.of_nat k) with (strlen p * 3 / 4) by lia.
      assert (strlen p * 3 mod 4 = 0) as M3
        by (rewrite Z.mul_mod, Mp by discriminate; reflexivity).
      apply Z.div_exact in M3; [|discriminate]. lia.
    + rewrite (validateImageData_verdict (png_prefix ++ p) p).
      * rewrite estimate_within.
        now destruct (3 * strlen p <=? 4 * IMAGE_MAX_SIZE_BYTES).
      * rewrite png_prefix_matches. discriminate.
      * apply png_prefix_payload, b64_text_no_comma, H.
      * unfold p. destruct k; [lia|]. cbn [repeat]. now destruct body.
      * now apply base64Pattern_text.
  - assert (0 <= 13981014) as P by discriminate.
    pose proof (zeros_base64_alphabet 13981014) as H.
    pose proof (zeros_base64_length 13981014 P) as L.
    assert (strlen (zeros_base64 13981014 ++ repeat (cu "=") 2) = 13981016) as Lp
      by (rewrite strlen_app, L; reflexivity).
    exists (zeros_base64 13981014 ++ repeat (cu "=") 2).
    exists (decode_sextets (map b64_value (zeros_base64 13981014))).
    split; [|split; [|split; [|split]]].
    + apply atob_padded; [exact H | lia | now rewrite L].
    + now rewrite (zeros_base64_decoded_size 13981014 P).
    + rewrite (calculateBase64FileSize_bare _ 2 H), Lp. reflexivity.
    + rewrite png_prefix_comma.
      rewrite (calculateBase64FileSize_prefixed (js "data:image/png;base64") _ 2 H eq_refl), Lp.
      reflexivity.
    + rewrite (validateImageData_verdict _ (zeros_base64 13981014 ++ repeat (cu "=") 2)).
      * rewrite Lp. reflexivity.
      * rewrite png_prefix_matches. discriminate.
      * apply png_prefix_payload, b64_text_no_comma, H.
      * intro E. rewrite E in Lp. discriminate.
      * now apply base64Pattern_text.
Qed.

Lemma validateImageData_estimate_ignores_padding_witness :
  (estimatedSize (js "aGVsbG8" ++ repeat (cu "=") 1)
   == inject_Z (calculateBase64FileSize (js "aGVsbG8" ++ repeat (cu "=") 1) + 1))%Q
  /\ isValid (validateImageData
                (JString (png_prefix ++ js "aGVsbG8" ++ repeat (cu "=") 1))) = true.
Proof.
  destruct (proj1 validateImageData_estimate_ignores_padding (js "aGVsbG8") 1%nat
              eq_refl (le_n 1)) as [E V].
  - vm_compute. discriminate.
  - split; [exact E | rewrite V; reflexivity].
Defined.

(* ================================================================== *)
(** * Further properties of the code *)

Import Components TypeUtils.

(** ** Trimming *)

Lemma trimStart_head (s : jsstring) (c : char16) (r : jsstring) :
  trimStart s = c :: r -> is_js_whitespace c = false.
Proof.
  induction s as [|x s IH]; [discriminate|].
  cbn [trimStart]. destruct (is_js_whitespace x) eqn:W.
  - exact IH.
  - intro E. injection E as <- _. exact W.
Qed.

Lemma trimStart_fixed (s : jsstring) :
  match s with [] => True | c :: _ => is_js_whitespace c = false end ->
  trimStart s = s.
Proof. destruct s as [|c r]; [reflexivity|]. cbn [trimStart]. now intros ->. Qed.

Lemma trimStart_idempotent (s : jsstring) : trimStart (trimStart s) = trimStart s.
Proof.
  apply trimStart_fixed. destruct (trimStart s) as [|c r] eqn:E; [exact I|].
  exact (trimStart_head s c r E).
Qed.

Lemma trimStart_last (l : jsstring) (c : char16) :
  is_js_whitespace c = false -> trimStart (l ++ [c]) = trimStart l ++ [c].
Proof.
  intro W. induction l as [|x l IH]; cbn [app trimStart].
  - now rewrite W.
  - destruct (is_js_whitespace x); [exact IH | reflexivity].
Qed.

Lemma trimEnd_first (c : char16) (u : jsstring) :
  is_js_whitespace c = false -> exists v, trimEnd (c :: u) = c :: v.
Proof.
  intro W. unfold trimEnd. cbn [rev]. rewrite (trimStart_last _ _ W).
  rewrite rev_app_distr. cbn [rev app]. eexists. reflexivity.
Qed.

(** A string with no white space at either end. *)
Lemma trim_no_leading (s : jsstring) : trimStart (trim s) = trim s.
Proof.
  unfold trim. destruct (trimStart s) as [|c u] eqn:E; [reflexivity|].
  pose proof (trimStart_head s c u E) as W.
  destruct (trimEnd_first c u W) as [v ->].
  cbn [trimStart]. now rewrite W.
Qed.

Lemma trim_no_trailing (s : jsstring) : trimEnd (trim s) = trim s.
Proof.
  unfold trim, trimEnd. rewrite rev_involutive. now rewrite trimStart_idempotent.
Qed.

Lemma trim_idempotent (s : jsstring) : trim (trim s) = trim s.
Proof.
  unfold trim at 1. rewrite trim_no_leading. apply trim_no_trailing.
Qed.

Lemma trimStart_In (s : jsstring) (c : char16) : In c (trimStart s) -> In c s.
Proof.
  induction s as [|x s IH]; [tauto|]. cbn [trimStart].
  destruct (is_js_whitespace x); [intro H; right; now apply IH | tauto].
Qed.

Lemma trim_In (s : jsstring) (c : char16) : In c (trim s) -> In c s.
Proof.
  unfold trim, trimEnd. intro H. apply in_rev in H.
  apply trimStart_In in H. apply in_rev in H. now apply trimStart_In in H.
Qed.

Lemma trimStart_length (s : jsstring) : strlen (trimStart s) <= strlen s.
Proof.
  unfold strlen. induction s as [|x s IH]; [simpl; lia|]. cbn [trimStart].
  destruct (is_js_whitespace x); cbn [List.length]; lia.
Qed.

Lemma trim_length (s : jsstring) : strlen (trim s) <= strlen s.
Proof.
  unfold trim, trimEnd.
  pose proof (trimStart_length s) as A.
  pose proof (trimStart_length (rev (trimStart s))) as B.
  unfold strlen in *. rewrite length_rev in *. lia.
Qed.

(** The ends of a trimmed, non-empty string. *)
Lemma trim_ends (s : jsstring) :
  trim s <> [] ->
  exists c d l,
    is_js_whitespace c = false /\ is_js_whitespace d = false
    /\ (exists t, trim s = c :: t) /\ trim s = l ++ [d].
Proof.
  intro N.
  destruct (trim s) as [|c t] eqn:E; [congruence|].
  assert (is_js_whitespace c = false) as Wc.
  { apply (trimStart_head (trim s) c t). now rewrite trim_no_leading. }
  pose proof (trim_no_trailing s) as T. rewrite E in T. unfold trimEnd in T.
  destruct (trimStart (rev (c :: t))) as [|d m] eqn:R.
  - discriminate.
  - pose proof (trimStart_head _ _ _ R) as Wd.
    exists c, d, (rev m). repeat split; try assumption.
    + now exists t.
    + rewrite <- T. reflexivity.
Qed.

(** ** White space runs *)

Lemma collapse_last (b : bool) (l : jsstring) (d : char16) :
  is_js_whitespace d = false ->
  collapse_whitespace b (l ++ [d]) = collapse_whitespace b l ++ [d].
Proof.
  intro W. revert b. induction l as [|x l IH]; intro b; cbn [app collapse_whitespace].
  - now rewrite W.
  - destruct (is_js_whitespace x); [destruct b|]; now rewrite IH.
Qed.

Lemma collapse_length (b : bool) (s : jsstring) :
  strlen (collapse_whitespace b s) <= strlen s.
Proof.
  unfold strlen. revert b. induction s as [|x s IH]; intro b; [simpl; lia|].
  cbn [collapse_whitespace].
  destruct (is_js_whitespace x); [destruct b|]; cbn [List.length];
    try (specialize (IH true); lia); specialize (IH false); lia.
Qed.

Lemma collapse_In (b : bool) (s : jsstring) (c : char16) :
  In c (collapse_whitespace b s) ->
  c = cu " " \/ (In c s /\ is_js_whitespace c = false).
Proof.
  revert b. induction s as [|x s IH]; intro b; [intros []|].
  cbn [collapse_whitespace].
  destruct (is_js_whitespace x) eqn:W; [destruct b|].
  - intro H. destruct (IH _ H) as [E | [I1 I2]]; [now left | right; split; [now right | exact I2]].
  - intros [E | H]; [now left|].
    destruct (IH _ H) as [E | [I1 I2]]; [now left | right; split; [now right | exact I2]].
  - intros [E | H].
    + subst. right. split; [now left | exact W].
    + destruct (IH _ H) as [E | [I1 I2]]; [now left | right; split; [now right | exact I2]].
Qed.

(** No white space after white space, and no white space but the space;
    [after] tells that white space came just before. *)
Fixpoint well_spaced (after : bool) (s : jsstring) : bool :=
  match s with
  | [] => true
  | c :: r =>
      if is_js_whitespace c
      then negb after && char_eqb c (cu " ") && well_spaced true r
      else well_spaced false r
  end.

Lemma collapse_well_spaced (b : bool) (s : jsstring) :
  well_spaced b (collapse_whitespace b s) = true.
Proof.
  revert b. induction s as [|x s IH]; intro b; [reflexivity|].
  cbn [collapse_whitespace].
  destruct (is_js_whitespace x) eqn:W; [destruct b|].
  - apply IH.
  - cbn [well_spaced]. replace (is_js_whitespace (cu " ")) with true by reflexivity.
    rewrite IH. reflexivity.
  - cbn [well_spaced]. rewrite W. apply IH.
Qed.

Lemma well_spaced_firstn (n : nat) (b : bool) (s : jsstring) :
  well_spaced b s = true -> well_spaced b (firstn n s) = true.
Proof.
  revert b s. induction n as [|n IH]; intros b [|c s]; try reflexivity.
  cbn [firstn well_spaced]. destruct (is_js_whitespace c).
  - intro H. apply andb_true_iff in H as [H1 H2]. rewrite H1. now apply IH.
  - apply IH.
Qed.

Lemma well_spaced_weaken (s : jsstring) :
  well_spaced true s = true -> well_spaced false s = true.
Proof.
  destruct s as [|c s]; [reflexivity|]. cbn [well_spaced].
  destruct (is_js_whitespace c); [discriminate | auto].
Qed.

(** What [well_spaced] says, spelled out. *)
Lemma well_spaced_spec (b : bool) (s : jsstring) :
  well_spaced b s = true ->
  (forall c, In c s -> is_js_whitespace c = true -> c = cu " ")
  /\ (forall a x y z, s = a ++ x :: y :: z ->
      is_js_whitespace x = true -> is_js_whitespace y = false).
Proof.
  revert b. induction s as [|c s IH]; intros b H.
  - split; [intros c [] | intros [|? ?] x y z E; discriminate].
  - cbn [well_spaced] in H. destruct (is_js_whitespace c) eqn:W.
    + apply andb_true_iff in H as [H1 H2]. apply andb_true_iff in H1 as [_ H1].
      destruct (IH _ H2) as [A B]. split.
      * intros x [<- | Hx] Wx; [now apply char_eqb_eq in H1 | now apply A].
      * intros [|a0 a] x y z E Wx.
        -- injection E as <- ->. cbn [well_spaced] in H2.
           destruct (is_js_whitespace y); [discriminate | reflexivity].
        -- injection E as _ ->. now apply (B a x y z).
    + destruct (IH _ H) as [A B]. split.
      * intros x [<- | Hx] Wx; [congruence | now apply A].
      * intros [|a0 a] x y z E Wx.
        -- injection E as <- ->. congruence.
        -- injection E as _ ->. now apply (B a x y z).
Qed.

(** ** Names: sanitizing and validating *)

Lemma sanitizeUserName_string (c : char16) (r : jsstring) :
  sanitizeUserName (JString (c :: r))
  = firstn 50 (collapse_whitespace false (trim (c :: r))).
Proof. reflexivity. Qed.

Lemma sanitizeUserName_cases (v : jsvalue) :
  sanitizeUserName v = []
  \/ exists s, v = JString s
               /\ sanitizeUserName v = firstn 50 (collapse_whitespace false (trim s)).
Proof.
  destruct v as [| |b|n|[|c r]|props].
  - now left.
  - now left.
  - left. unfold sanitizeUserName. cbn [typeof]. now rewrite orb_true_r.
  - left. unfold sanitizeUserName. cbn [typeof]. now rewrite orb_true_r.
  - now left.
  - right. exists (c :: r). split; [reflexivity | apply sanitizeUserName_string].
  - now left.
Qed.

(** X1.  Whatever it is given, [sanitizeUserName] returns at most 50 code
    units, with no white space in front, no white space other than the
    space character, and never two white-space characters in a row; every
    other character of the result comes from the input. *)
Theorem sanitizeUserName_shape (v : jsvalue) :
  strlen (sanitizeUserName v) <= 50
  /\ trimStart (sanitizeUserName v) = sanitizeUserName v
  /\ (forall c, In c (sanitizeUserName v) -> is_js_whitespace c = true -> c = cu " ")
  /\ (forall a x y z, sanitizeUserName v = a ++ x :: y :: z ->
      is_js_whitespace x = true -> is_js_whitespace y = false)
  /\ (forall c, In c (sanitizeUserName v) ->
      c = cu " " \/ (In c (as_string v) /\ is_js_whitespace c = false)).
Proof.
  destruct (sanitizeUserName_cases v) as [E | [s [-> E]]].
  - rewrite E. split; [discriminate|]. split; [reflexivity|].
    split; [intros c []|]. split; [|intros c []].
    intros [|? ?] x y z H; discriminate.
  - rewrite E. cbn [as_string].
    pose proof (collapse_well_spaced false (trim s)) as WS.
    apply (well_spaced_firstn 50) in WS.
    destruct (well_spaced_spec _ _ WS) as [A B].
    split; [|split; [|split; [exact A | split; [exact B|]]]].
    + unfold strlen. pose proof (firstn_le_length 50 (collapse_whitespace false (trim s))). lia.
    + apply trimStart_fixed.
      destruct (trim s) as [|c t] eqn:T; [exact I|].
      assert (is_js_whitespace c = false) as W.
      { apply (trimStart_head (trim s) c t). now rewrite trim_no_leading. }
      cbn [collapse_whitespace]. rewrite W. cbn [firstn]. exact W.
    + intros c H. apply In_firstn in H. apply collapse_In in H as [H | [H1 H2]].
      * now left.
      * right. split; [now apply trim_In | exact H2].
Qed.

Lemma whitespace_is_name_char (c : char16) :
  is_js_whitespace c = true -> name_char c = true.
Proof.
  intro W. unfold name_char. rewrite W.
  now destruct (is_lower c), (is_upper c), (is_digit c).
Qed.

Lemma untrimmed_fixed (n : jsstring) (c d : char16) (t l : jsstring) :
  is_js_whitespace c = false -> is_js_whitespace d = false ->
  n = c :: t -> n = l ++ [d] -> trim n = n.
Proof.
  intros Wc Wd E1 E2. unfold trim.
  assert (trimStart n = n) as S by (rewrite E1; cbn [trimStart]; now rewrite Wc).
  rewrite S. unfold trimEnd. rewrite E2 at 1. rewrite rev_app_distr. cbn [rev app trimStart].
  rewrite Wd. change (d :: rev l) with (rev [d] ++ rev l).
  rewrite <- rev_app_distr, rev_involutive. now symmetry.
Qed.

(** X2.  The name that the form passes on: when NameInput's
    [handleSubmit] calls [onSubmit], the name it passes is the typed text
    trimmed and with every run of white space turned into one space; that
    name has 1 to 50 code units, no white space at either end, passes
    [validateUserName], and is stored unchanged by the generator's
    [handleNameSubmit]. *)
Theorem submitted_name_is_valid (name n : jsstring) :
  handleSubmit name = Some n ->
  n = collapse_whitespace false (trim name)
  /\ 1 <= strlen n <= 50
  /\ trim n = n
  /\ isValid (validateUserName (JString n)) = true
  /\ handleNameSubmit n = Some n.
Proof.
  unfold handleSubmit, isValidState. intro H.
  destruct name as [|c0 r0]; [discriminate|].
  replace (strlen (c0 :: r0) >? 0) with true in H
    by (symmetry; unfold strlen; cbn [List.length]; apply Z.gtb_lt; lia).
  destruct (isValid (validateUserName (JString (c0 :: r0)))) eqn:V; [|discriminate].
  destruct (truthy (JString (trim (c0 :: r0)))) eqn:T; [|discriminate].
  cbn [andb] in H. injection H as <-.
  rewrite validateUserName_verdict in V.
  unfold USER_NAME_MIN_LENGTH, USER_NAME_MAX_LENGTH in V.
  apply andb_true_iff in V as [V Vp]. apply andb_true_iff in V as [Vlo Vhi].
  apply negb_true_iff, Z.ltb_ge in Vlo.
  rewrite Z.gtb_ltb in Vhi. apply negb_true_iff, Z.ltb_ge in Vhi.
  apply validNamePattern_spec in Vp as [Vne Vall].
  set (t := trim (c0 :: r0)) in *.
  pose proof (collapse_length false t) as CL.
  assert (sanitizeUserName (JString (c0 :: r0)) = collapse_whitespace false t) as S.
  { rewrite sanitizeUserName_string. fold t. apply firstn_all2.
    unfold strlen in *. lia. }
  rewrite S.
  destruct (trim_ends (c0 :: r0) Vne) as [c [d [l [Wc [Wd [[t' Et] El]]]]]].
  fold t in Et, El.
  assert (collapse_whitespace false t = c :: collapse_whitespace false t') as N1
    by (rewrite Et; cbn [collapse_whitespace]; now rewrite Wc).
  assert (collapse_whitespace false t = collapse_whitespace false l ++ [d]) as N2
    by (rewrite El; now apply collapse_last).
  pose proof (untrimmed_fixed _ c d _ _ Wc Wd N1 N2) as TN.
  assert (1 <= strlen (collapse_whitespace false t)) as L1
    by (rewrite N1; unfold strlen; cbn [List.length]; lia).
  split; [reflexivity|]. split; [lia|]. split; [exact TN|]. split.
  - rewrite N1. rewrite validateUserName_verdict. rewrite <- N1, TN.
    unfold USER_NAME_MIN_LENGTH, USER_NAME_MAX_LENGTH. rewrite Z.gtb_ltb.
    replace (strlen (collapse_whitespace false t) <? 1) with false
      by (symmetry; apply Z.ltb_ge; lia).
    replace (50 <? strlen (collapse_whitespace false t)) with false
      by (symmetry; apply Z.ltb_ge; lia).
    cbn [negb andb]. apply validNamePattern_spec. split.
    + rewrite N1. discriminate.
    + intros x Hx. apply collapse_In in Hx as [-> | [Hx _]]; [reflexivity | now apply Vall].
  - unfold handleNameSubmit. rewrite TN, N1. reflexivity.
Qed.

Lemma submitted_name_is_valid_witness :
  handleSubmit (js "  Ada   Lovelace ") = Some (js "Ada Lovelace")
  /\ isValid (validateUserName (JString (js "Ada Lovelace"))) = true.
Proof.
  split; [reflexivity|].
  exact (proj1 (proj2 (proj2 (proj2
    (submitted_name_is_valid (js "  Ada   Lovelace ") (js "Ada Lovelace") eq_refl))))).
Defined.

(** X3.  The verdict of [validateUserName] does not depend on white space
    around the name: a name and its trimmed form are both valid or both
    invalid. *)
Theorem validateUserName_ignores_surrounding_space (s : jsstring) :
  isValid (validateUserName (JString s)) = isValid (validateUserName (JString (trim s))).
Proof.
  destruct s as [|c r]; [reflexivity|].
  rewrite validateUserName_verdict.
  destruct (trim (c :: r)) as [|x t] eqn:E.
  - reflexivity.
  - rewrite validateUserName_verdict. rewrite <- E. now rewrite trim_idempotent.
Qed.

(** ** Whole numbers as JavaScript numbers *)

Lemma Qle_bool_inject (a b : Z) : Qle_bool (inject_Z a) (inject_Z b) = (a <=? b).
Proof. unfold Qle_bool, inject_Z. cbn [Qnum Qden]. now rewrite !Z.mul_1_r. Qed.

Lemma num_leb_whole (a b : Z) : num_leb (num_of_Z a) (num_of_Z b) = (a <=? b).
Proof. apply Qle_bool_inject. Qed.

Lemma num_ltb_whole (a b : Z) : num_ltb (num_of_Z a) (num_of_Z b) = (a <? b).
Proof.
  unfold num_ltb, num_of_Z. cbn [num_leb]. rewrite Qle_bool_inject.
  rewrite Z.ltb_antisym. reflexivity.
Qed.

Lemma num_truthy_whole (z : Z) : num_truthy (num_of_Z z) = negb (z =? 0).
Proof.
  unfold num_truthy, num_of_Z, Qeq_bool, inject_Z. cbn [Qnum Qden].
  rewrite Z.mul_1_r. reflexivity.
Qed.

Lemma Math_floor_whole (z : Z) : Math_floor (num_of_Z z) = num_of_Z z.
Proof. unfold Math_floor, num_of_Z. now rewrite Qfloor_Z. Qed.

(** ** File sizes *)

(** X4.  The two checks of a byte size, [validateFileSize] of
    lib/validation.ts and [isValidFileSize] of lib/typeUtils.ts, give the
    same verdict on every value but NaN, which the first accepts and the
    second rejects; on a whole number both accept exactly 1 to 10 MiB. *)
Theorem file_size_checks_agree :
  (forall v : jsvalue, v <> JNumber NaN ->
     isValid (validateFileSize v) = isValidFileSize v)
  /\ (forall z : Z,
        isValid (validateFileSize (JNumber (num_of_Z z)))
        = (1 <=? z) && (z <=? 10 * 1024 * 1024))
  /\ isValid (validateFileSize (JNumber NaN)) = true
  /\ isValidFileSize (JNumber NaN) = false.
Proof.
  split; [|split; [|split; reflexivity]].
  - intros v N. destruct v as [| |b|n|s|props]; try reflexivity.
    destruct n as [| | |q]; [congruence | reflexivity | reflexivity |].
    unfold validateFileSize, isValidFileSize.
    cbn [typeof String.eqb Ascii.eqb Bool.eqb negb orb andb as_number].
    unfold num_ltb, num_of_Z. cbn [num_leb].
    destruct (Qle_bool q (inject_Z 0)); [reflexivity|].
    cbn [negb andb].
    change (inject_Z (10 * 1024 * 1024)) with (inject_Z IMAGE_MAX_SIZE_BYTES).
    now destruct (Qle_bool q (inject_Z IMAGE_MAX_SIZE_BYTES)).
  - intro z. unfold validateFileSize.
    cbn [typeof String.eqb Ascii.eqb Bool.eqb negb orb as_number].
    rewrite num_leb_whole, num_ltb_whole.
    change (10 * 1024 * 1024) with IMAGE_MAX_SIZE_BYTES.
    destruct (z <=? 0) eqn:A.
    + apply Z.leb_le in A. replace (1 <=? z) with false; [reflexivity|].
      symmetry. apply Z.leb_gt. lia.
    + apply Z.leb_gt in A. replace (1 <=? z) with true by (symmetry; apply Z.leb_le; lia).
      rewrite Z.ltb_antisym.
      now destruct (z <=? IMAGE_MAX_SIZE_BYTES).
Qed.

Lemma file_size_checks_agree_witness :
  isValid (validateFileSize (JNumber PInf)) = false.
Proof.
  rewrite (proj1 file_size_checks_agree (JNumber PInf)); [reflexivity | discriminate].
Defined.

(** ** Pagination *)

Lemma validatePaginationParams_whole (p l : Z) :
  isValid (validatePaginationParams (Some (num_of_Z p)) (Some (num_of_Z l)))
  = (1 <=? p) && (1 <=? l) && (l <=? 100).
Proof.
  unfold validatePaginationParams. rewrite !num_ltb_whole.
  rewrite !Z.ltb_antisym.
  destruct (1 <=? p), (1 <=? l), (l <=? 100); reflexivity.
Qed.

(** ** Whole numbers are doubles up to [2^53] *)

Lemma round_half_even_whole (x : Q) (n : Z) : x == inject_Z n -> round_half_even x = n.
Proof.
  intro E. unfold round_half_even.
  assert (Qfloor x = n) as F by (rewrite E; apply Qfloor_Z).
  rewrite F.
  assert (x - inject_Z n < 1 # 2)%Q as L.
  { rewrite E. setoid_replace (inject_Z n - inject_Z n)%Q with 0%Q by ring. reflexivity. }
  apply Qlt_alt in L. unfold Qcompare in *. now rewrite L.
Qed.

Lemma pow2_scale (e : Z) : e <= 0 -> (pow2 e * inject_Z (2 ^ (- e)) == 1)%Q.
Proof.
  intro E. unfold pow2.
  assert (0 < 2 ^ (- e)) as P by (apply Z.pow_pos_nonneg; lia).
  destruct (0 <=? e) eqn:C.
  - apply Z.leb_le in C. replace e with 0 by lia. reflexivity.
  - unfold Qeq, Qmult, inject_Z. cbn [Qnum Qden].
    rewrite Pos.mul_1_r, Z2Pos.id by exact P. lia.
Qed.

Lemma pow2_pos (e : Z) : (0 < pow2 e)%Q.
Proof.
  unfold pow2. destruct (0 <=? e) eqn:C.
  - apply Z.leb_le in C. unfold Qlt, inject_Z. cbn [Qnum Qden].
    assert (0 < 2 ^ e) by (apply Z.pow_pos_nonneg; lia). lia.
  - reflexivity.
Qed.

(** A positive whole number below [2^53] is its own nearest double. *)
Lemma nearest_double_whole (a : positive) :
  Z.pos a < 2 ^ 53 -> nearest_double a 1 = Some (inject_Z (Z.pos a)).
Proof.
  intro B. unfold nearest_double.
  set (k := Z.log2 (Z.pos a)).
  assert (0 <= k) as K0 by apply Z.log2_nonneg.
  assert (2 ^ k <= Z.pos a) as Klo by (apply Z.log2_spec; reflexivity).
  assert (k < 53) as Khi by (apply Z.log2_lt_pow2; [reflexivity | exact B]).
  assert (floor_log2 a 1 = k) as FL.
  { unfold floor_log2. change (Z.log2 (Z.pos 1)) with 0. rewrite Z.sub_0_r. fold k.
    replace (Qle_bool (pow2 k) (Z.pos a # 1)) with true; [reflexivity|].
    symmetry. unfold pow2. replace (0 <=? k) with true by (symmetry; now apply Z.leb_le).
    change (Z.pos a # 1) with (inject_Z (Z.pos a)).
    rewrite Qle_bool_inject. now apply Z.leb_le. }
  rewrite FL. replace (Z.max (k - 52) (-1074)) with (k - 52) by lia.
  set (e := k - 52). assert (e <= 0) as E0 by (unfold e; lia).
  pose proof (pow2_scale e E0) as SC. pose proof (pow2_pos e) as PP.
  assert (~ pow2 e == 0)%Q as NZ by (intro Z0; rewrite Z0 in PP; discriminate).
  assert (inject_Z (2 ^ (- e)) == / pow2 e)%Q as IC.
  { apply (Qmult_inj_l _ _ (pow2 e)); [exact NZ|].
    rewrite SC. symmetry. now apply Qmult_inv_r. }
  assert ((Z.pos a # 1) / pow2 e == inject_Z (Z.pos a * 2 ^ (- e)))%Q as X.
  { rewrite inject_Z_mult, IC. reflexivity. }
  rewrite (round_half_even_whole _ _ X).
  assert (inject_Z (Z.pos a * 2 ^ (- e)) * pow2 e == inject_Z (Z.pos a))%Q as V.
  { rewrite inject_Z_mult, IC. field. exact NZ. }
  replace (Qle_bool (pow2 1024) (inject_Z (Z.pos a * 2 ^ (- e)) * pow2 e)) with false.
  - f_equal. rewrite (Qred_complete _ _ V). apply Qcanon.Qred_identity.
    cbn [inject_Z Qnum Qden]. apply Z.gcd_1_r.
  - symmetry. destruct (Qle_bool _ _) eqn:C; [|reflexivity].
    apply Qle_bool_iff in C. rewrite V in C.
    change (pow2 1024) with (inject_Z (2 ^ 1024)) in C.
    rewrite <- Zle_Qle in C.
    assert (2 ^ 53 < 2 ^ 1024) by reflexivity. lia.
Qed.

(** Every whole number of magnitude at most [2^53] is a double. *)
Lemma to_double_whole (z : Z) :
  Z.abs z <= 2 ^ 53 -> to_double (inject_Z z) = num_of_Z z.
Proof.
  intro B. unfold to_double, num_of_Z. cbn [inject_Z Qnum Qden].
  destruct z as [|a|a].
  - reflexivity.
  - destruct (Z.eq_dec (Z.pos a) (2 ^ 53)) as [E | N].
    + injection E as ->. reflexivity.
    + rewrite nearest_double_whole by (cbn [Z.abs] in B; lia). reflexivity.
  - destruct (Z.eq_dec (Z.pos a) (2 ^ 53)) as [E | N].
    + injection E as ->. reflexivity.
    + rewrite nearest_double_whole by (cbn [Z.abs] in B; lia). reflexivity.
Qed.

(** X5.  Whole numbers that [validatePaginationParams] accepts are
    exactly a page of at least 1 with a limit of 1 to 100, and
    [validateAndNormalizePagination] returns those unchanged; the offset
    is [(page - 1) * limit] as long as that product is at most [2^53].
    Beyond that the product is rounded to a double: page [2^53] with
    limit 20 is accepted and gives the offset 180143985094819808, not
    180143985094819820. *)
Theorem accepted_pagination_is_kept (p l : Z) :
  isValid (validatePaginationParams (Some (num_of_Z p)) (Some (num_of_Z l))) = true ->
  (1 <= p /\ 1 <= l <= 100)
  /\ safe_page (validateAndNormalizePagination (Some (num_of_Z p)) (Some (num_of_Z l)))
     = num_of_Z p
  /\ safe_limit (validateAndNormalizePagination (Some (num_of_Z p)) (Some (num_of_Z l)))
     = num_of_Z l
  /\ ((p - 1) * l <= 2 ^ 53 ->
      validateAndNormalizePagination (Some (num_of_Z p)) (Some (num_of_Z l))
      = {| safe_page := num_of_Z p;
           safe_limit := num_of_Z l;
           safe_offset := num_of_Z ((p - 1) * l) |})
  /\ isValid (validatePaginationParams (Some (num_of_Z (2 ^ 53))) (Some (num_of_Z 20)))
     = true
  /\ safe_offset (validateAndNormalizePagination (Some (num_of_Z (2 ^ 53)))
                    (Some (num_of_Z 20)))
     = num_of_Z 180143985094819808.
Proof.
  rewrite validatePaginationParams_whole. intro V.
  apply andb_true_iff in V as [V Vhi]. apply andb_true_iff in V as [Vp Vl].
  apply Z.leb_le in Vp, Vl, Vhi.
  split; [lia|].
  assert (Math_max (num_of_Z 1) (num_of_Z p) = num_of_Z p) as Ep.
  { unfold Math_max, num_of_Z. fold (num_of_Z 1). fold (num_of_Z p).
    rewrite num_leb_whole.
    replace (1 <=? p) with true by (symmetry; now apply Z.leb_le). reflexivity. }
  assert (Math_max (num_of_Z 1) (num_of_Z l) = num_of_Z l) as El.
  { unfold Math_max, num_of_Z. fold (num_of_Z 1). fold (num_of_Z l).
    rewrite num_leb_whole.
    replace (1 <=? l) with true by (symmetry; now apply Z.leb_le). reflexivity. }
  assert (Math_min (num_of_Z 100) (num_of_Z l) = num_of_Z l) as Em.
  { unfold Math_min, num_of_Z. fold (num_of_Z 100). fold (num_of_Z l).
    rewrite num_leb_whole. destruct (100 <=? l) eqn:C; [|reflexivity].
    apply Z.leb_le in C. now replace l with 100 by lia. }
  assert (validateAndNormalizePagination (Some (num_of_Z p)) (Some (num_of_Z l))
          = {| safe_page := num_of_Z p;
               safe_limit := num_of_Z l;
               safe_offset := num_mul (num_sub (num_of_Z p) (num_of_Z 1)) (num_of_Z l) |})
    as N.
  { unfold validateAndNormalizePagination, num_or.
    rewrite !num_truthy_whole.
    replace (p =? 0) with false by (symmetry; apply Z.eqb_neq; lia).
    replace (l =? 0) with false by (symmetry; apply Z.eqb_neq; lia).
    cbn [negb]. rewrite !Math_floor_whole. now rewrite Ep, El, Em. }
  rewrite N. cbn [safe_page safe_limit].
  split; [reflexivity|]. split; [reflexivity|]. split; [|split; vm_compute; reflexivity].
  intro B. f_equal.
  assert (p - 1 <= 2 ^ 53) as Bp by nia.
  unfold num_sub, num_of_Z. unfold Qminus.
  rewrite <- inject_Z_opp, <- inject_Z_plus.
  rewrite to_double_whole by (change (p + - (1)) with (p - 1); lia).
  unfold num_mul, num_of_Z. rewrite <- inject_Z_mult.
  apply to_double_whole. change (p + - (1)) with (p - 1). nia.
Qed.

Lemma accepted_pagination_is_kept_witness :
  validateAndNormalizePagination (Some (num_of_Z 3)) (Some (num_of_Z 12))
  = {| safe_page := num_of_Z 3; safe_limit := num_of_Z 12; safe_offset := num_of_Z 24 |}.
Proof.
  apply (proj1 (proj2 (proj2 (proj2 (accepted_pagination_is_kept 3 12 eq_refl))))).
  vm_compute. discriminate.
Defined.

(** ** Data URIs that pass the validator *)

Definition jpeg_prefix : jsstring := js "data:image/jpeg;base64,".

Lemma strip_prefix_inv (p s r : jsstring) : strip_prefix p s = Some r -> s = p ++ r.
Proof.
  revert s. induction p as [|x p IH]; intros s H.
  - cbn in H. now injection H as ->.
  - destruct s as [|y s]; [discriminate|]. cbn [strip_prefix] in H.
    destruct (char_eqb x y) eqn:E; [|discriminate].
    apply char_eqb_eq in E. subst. cbn [app]. f_equal. now apply IH.
Qed.

Lemma prefix_pattern_inv (s r : jsstring) :
  BASE64_IMAGE_PREFIX_PATTERN s = Some r -> s = png_prefix ++ r \/ s = jpeg_prefix ++ r.
Proof.
  unfold BASE64_IMAGE_PREFIX_PATTERN. fold png_prefix. fold jpeg_prefix.
  destruct (strip_prefix png_prefix s) as [r'|] eqn:E.
  - intro H. injection H as <-. left. now apply strip_prefix_inv.
  - intro H. right. now apply strip_prefix_inv.
Qed.

Lemma jpeg_prefix_matches (p : jsstring) :
  BASE64_IMAGE_PREFIX_PATTERN (jpeg_prefix ++ p) = Some p.
Proof.
  unfold BASE64_IMAGE_PREFIX_PATTERN.
  replace (strip_prefix (js "data:image/png;base64,") (jpeg_prefix ++ p)) with (@None jsstring)
    by reflexivity.
  fold jpeg_prefix. apply strip_prefix_app.
Qed.

(** What acceptance by [validateImageData] amounts to. *)
Lemma validateImageData_accepts (s : jsstring) :
  isValid (validateImageData (JString s)) = true ->
  exists p,
    BASE64_IMAGE_PREFIX_PATTERN s <> None
    /\ split_comma_1 s = Some p /\ p <> [] /\ base64Pattern p = true
    /\ 3 * strlen p <= 4 * IMAGE_MAX_SIZE_BYTES.
Proof.
  unfold validateImageData. destruct s as [|c s]; [discriminate|].
  change (negb (truthy (JString (c :: s)))
          || negb (String.eqb (typeof (JString (c :: s))) "string")) with false.
  cbn iota. change (as_string (JString (c :: s))) with (c :: s).
  destruct (BASE64_IMAGE_PREFIX_PATTERN (c :: s)) as [r|]; [|discriminate].
  destruct (split_comma_1 (c :: s)) as [[|x p]|]; try discriminate.
  destruct (base64Pattern (x :: p)) eqn:B; [|discriminate].
  cbn [negb]. rewrite estimate_within.
  destruct (3 * strlen (x :: p) <=? 4 * IMAGE_MAX_SIZE_BYTES) eqn:L; [|discriminate].
  intros _. exists (x :: p). repeat split; try discriminate; try assumption.
  now apply Z.leb_le.
Qed.

(** Text that matches the validator's base64 pattern is alphabet
    characters followed by at most two [=]. *)
Lemma base64Pattern_inv (p : jsstring) :
  base64Pattern p = true ->
  exists body k, p = body ++ repeat (cu "=") k
                 /\ forallb b64_char body = true /\ (k <= 2)%nat.
Proof.
  unfold base64Pattern. induction p as [|c p IH].
  - intros _. exists [], 0%nat. split; [reflexivity | split; [reflexivity | lia]].
  - cbn [drop_while]. destruct (b64_char c) eqn:B.
    + intro H. destruct (IH H) as [body [k [E [Hb Hk]]]].
      exists (c :: body), k. split; [now rewrite E | split; [|exact Hk]].
      cbn [forallb]. now rewrite B, Hb.
    + destruct p as [|d [|e p]].
      * intro H. apply char_eqb_eq in H. subst.
        exists [], 1%nat. split; [reflexivity | split; [reflexivity | lia]].
      * intro H. apply andb_true_iff in H as [H1 H2].
        apply char_eqb_eq in H1, H2. subst.
        exists [], 2%nat. split; [reflexivity | split; [reflexivity | lia]].
      * discriminate.
Qed.

(** What [atob] returns on such text. *)
Lemma atob_text_decoded (body : jsstring) (k : nat) (bytes : list N) :
  forallb b64_char body = true ->
  atob (body ++ repeat (cu "=") k) = Some bytes ->
  bytes = decode_sextets (map b64_value body)
  /\ (k = 0%nat -> strlen body mod 4 <> 1)
  /\ ((1 <= k)%nat -> (strlen body + Z.of_nat k) mod 4 = 0 /\ (k <= 2)%nat).
Proof.
  intros H A. destruct k as [|k].
  - cbn [repeat] in A. rewrite app_nil_r in A.
    assert (strlen body mod 4 <> 1) as M.
    { intro E. unfold atob in A.
      pose proof (text_no_whitespace body 0 H) as W. cbn [repeat] in W.
      rewrite app_nil_r in W. rewrite W, (strip_padding_body _ H) in A.
      apply Z.eqb_eq in E.
      destruct (strlen body mod 4 =? 0); rewrite E in A; discriminate. }
    rewrite (atob_body body H M) in A. injection A as <-.
    split; [reflexivity|]. split; [auto | lia].
  - assert (atob (body ++ repeat (cu "=") (S k)) <> None) as N by congruence.
    destruct (atob_accepts_padded body (S k) H (le_n_S _ _ (Nat.le_0_l k)) N) as [M K].
    rewrite (atob_padded body (S k) H) in A by (try lia; exact M).
    injection A as <-. split; [reflexivity|]. split; [discriminate | auto].
Qed.

(** ** The size formula against the decoder *)

(** X7.  [calculateBase64FileSize] is exact on what the decoder accepts:
    for base64 text (alphabet characters, then any padding) that [atob]
    decodes, bare or behind a data-URI prefix and its comma, the result is
    the number of bytes decoded. *)
Theorem calculateBase64FileSize_is_decoded_size
    (prefix body : jsstring) (k : nat) (bytes : list N) :
  forallb b64_char body = true ->
  includes (cu ",") prefix = false ->
  atob (body ++ repeat (cu "=") k) = Some bytes ->
  calculateBase64FileSize (body ++ repeat (cu "=") k) = Z.of_nat (List.length bytes)
  /\ calculateBase64FileSize (prefix ++ cu "," :: body ++ repeat (cu "=") k)
     = Z.of_nat (List.length bytes).
Proof.
  intros H P A.
  destruct (atob_text_decoded body k bytes H A) as [-> [M0 M1]].
  rewrite (calculateBase64FileSize_bare body k H),
          (calculateBase64FileSize_prefixed prefix body k H P).
  rewrite decode_sextets_size, length_map. fold (strlen body).
  rewrite strlen_app, strlen_repeat.
  assert ((strlen body + Z.of_nat k) * 3 / 4 - Z.of_nat k = 3 * strlen body / 4) as E.
  { destruct k as [|k].
    - change (Z.of_nat 0) with 0. rewrite Z.add_0_r, Z.sub_0_r, Z.mul_comm. reflexivity.
    - destruct (M1 (le_n_S _ _ (Nat.le_0_l k))) as [M K].
      apply Z.div_exact in M; [|discriminate].
      set (q := (strlen body + Z.of_nat (S k)) / 4) in M.
      destruct k as [|[|k]]; [| |lia].
      + replace (strlen body) with (4 * q - 1) by (change (Z.of_nat 1) with 1 in M; lia).
        change (Z.of_nat 1) with 1.
        replace ((4 * q - 1 + 1) * 3) with (3 * q * 4) by lia.
        replace (3 * (4 * q - 1)) with (1 + (3 * q - 1) * 4) by lia.
        rewrite Z.div_mul, Z.div_add by discriminate. reflexivity.
      + replace (strlen body) with (4 * q - 2) by (change (Z.of_nat 2) with 2 in M; lia).
        change (Z.of_nat 2) with 2.
        replace ((4 * q - 2 + 2) * 3) with (3 * q * 4) by lia.
        replace (3 * (4 * q - 2)) with (2 + (3 * q - 2) * 4) by lia.
        rewrite Z.div_mul, Z.div_add by discriminate. reflexivity. }
  now rewrite E.
Qed.

Lemma calculateBase64FileSize_is_decoded_size_witness :
  calculateBase64FileSize (js "data:image/png;base64" ++ cu "," :: js "aGVsbG8" ++ repeat (cu "=") 1)
  = Z.of_nat (List.length (map (fun c => N_of_ascii c) (list_ascii_of_string "hello"))).
Proof.
  exact (proj2 (calculateBase64FileSize_is_decoded_size
                  (js "data:image/png;base64") (js "aGVsbG8") 1
                  (map (fun c => N_of_ascii c) (list_ascii_of_string "hello"))
                  eq_refl eq_refl eq_refl)).
Defined.

(** ** Decoding in the service *)

Lemma extract_png (r : jsstring) :
  extractMimeTypeFromDataUri (png_prefix ++ r) = Some (js "image/png").
Proof. reflexivity. Qed.

Lemma extract_jpeg (r : jsstring) :
  extractMimeTypeFromDataUri (jpeg_prefix ++ r) = Some (js "image/jpeg").
Proof. reflexivity. Qed.

Lemma take_until_semicolon_inv (s a b : jsstring) :
  take_until_semicolon s = (a, b) -> s = a ++ b.
Proof.
  revert a b. induction s as [|c s IH]; intros a b H.
  - cbn in H. now injection H as <- <-.
  - cbn [take_until_semicolon] in H. destruct (char_eqb c (cu ";")).
    + now injection H as <- <-.
    + destruct (take_until_semicolon s) as [a' b'].
      injection H as <- <-. cbn [app]. f_equal. now apply IH.
Qed.

Lemma extract_inv (s m : jsstring) :
  extractMimeTypeFromDataUri s = Some m ->
  exists rest, s = js "data:" ++ m ++ js ";base64," ++ rest.
Proof.
  unfold extractMimeTypeFromDataUri.
  destruct (strip_prefix (js "data:") s) as [r|] eqn:P; [|discriminate].
  destruct (take_until_semicolon r) as [[|x a] b] eqn:T; [discriminate|].
  destruct (strip_prefix (js ";base64,") b) as [rest|] eqn:Q; [|discriminate].
  intro H. injection H as <-. exists rest.
  apply strip_prefix_inv in P, Q. apply take_until_semicolon_inv in T.
  now rewrite P, T, Q.
Qed.

(** X8.  The validator's prefix test and the MIME extraction of
    lib/type-validation.ts accept the same data URIs:
    [extractAndValidateMimeType] returns a MIME type exactly when the
    string starts with the PNG or the JPEG data-URI prefix, and then the
    type it returns is the one in the prefix. *)
Theorem prefix_test_and_mime_extraction_agree (s : jsstring) :
  (BASE64_IMAGE_PREFIX_PATTERN s <> None
   <-> exists m, extractAndValidateMimeType s = Ok m)
  /\ (forall m, extractAndValidateMimeType s = Ok m ->
      (m = js "image/png" /\ exists r, s = png_prefix ++ r)
      \/ (m = js "image/jpeg" /\ exists r, s = jpeg_prefix ++ r)).
Proof.
  assert (forall m, extractAndValidateMimeType s = Ok m ->
            (m = js "image/png" /\ exists r, s = png_prefix ++ r)
            \/ (m = js "image/jpeg" /\ exists r, s = jpeg_prefix ++ r)) as Inv.
  { intros m. unfold extractAndValidateMimeType.
    destruct (extractMimeTypeFromDataUri s) as [m'|] eqn:E; [|discriminate].
    destruct (isMimeType m') eqn:I; [|discriminate].
    cbn [negb]. intro H. injection H as <-.
    destruct (extract_inv s m' E) as [rest ->].
    unfold isMimeType in I. apply orb_true_iff in I as [I | I]; apply str_eqb_eq in I; subst m'.
    - left. split; [reflexivity | now exists rest].
    - right. split; [reflexivity | now exists rest]. }
  split; [|exact Inv]. split.
  - intro H. destruct (BASE64_IMAGE_PREFIX_PATTERN s) as [r|] eqn:E; [|congruence].
    apply prefix_pattern_inv in E as [-> | ->]; eexists; reflexivity.
  - intros [m H]. destruct (Inv m H) as [[_ [r ->]] | [_ [r ->]]].
    + rewrite png_prefix_matches. discriminate.
    + rewrite jpeg_prefix_matches. discriminate.
Qed.

(** X6.  Whatever [processImageData] returns without throwing has a MIME
    type of PNG or JPEG, a buffer that is what [atob] decodes from the
    text after the first comma, and a size that is the length of that
    buffer and lies between 1 byte and the 10 MiB ceiling. *)
Theorem processImageData_result (s : jsstring) (p : ProcessedImage) :
  processImageData s = Ok p ->
  (proc_mimeType p = js "image/png" \/ proc_mimeType p = js "image/jpeg")
  /\ extractMimeTypeFromDataUri s = Some (proc_mimeType p)
  /\ (exists payload, split_comma_1 s = Some payload
                      /\ atob payload = Some (imageBuffer p))
  /\ proc_fileSize p = Z.of_nat (List.length (imageBuffer p))
  /\ 1 <= proc_fileSize p <= IMAGE_MAX_SIZE_BYTES.
Proof.
  unfold processImageData.
  destruct (extractMimeTypeFromDataUri s) as [m|]; [|discriminate].
  destruct (negb (truthy (JString m))) eqn:T; [discriminate|].
  destruct (mime_allowed m) eqn:Al; [|discriminate]. cbn [negb orb].
  destruct (split_comma_1 s) as [[|x payload]|]; try discriminate.
  destruct (atob (x :: payload)) as [bytes|] eqn:A; [|discriminate].
  destruct (Z.of_nat (List.length bytes) >? IMAGE_MAX_SIZE_BYTES) eqn:G; [discriminate|].
  destruct (Z.of_nat (List.length bytes) =? 0) eqn:Z0; [discriminate|].
  intro H. injection H as <-. cbn [proc_mimeType imageBuffer proc_fileSize].
  rewrite Z.gtb_ltb in G. apply Z.ltb_ge in G. apply Z.eqb_neq in Z0.
  split; [|split; [reflexivity | split; [|split; [reflexivity | lia]]]].
  - unfold mime_allowed, ALLOWED_MIME_TYPES in Al. cbn [existsb] in Al.
    rewrite orb_false_r in Al.
    apply orb_true_iff in Al as [E | E]; apply str_eqb_eq in E; auto.
  - exists (x :: payload). split; [reflexivity | exact A].
Qed.

Lemma processImageData_result_witness :
  processImageData (png_prefix ++ js "aGVsbG8=")
  = Ok {| imageBuffer := map (fun c => N_of_ascii c) (list_ascii_of_string "hello");
          proc_mimeType := js "image/png";
          proc_fileSize := 5 |}
  /\ 1 <= 5 <= IMAGE_MAX_SIZE_BYTES.
Proof.
  split; [reflexivity|].
  exact (proj2 (proj2 (proj2 (proj2
    (processImageData_result (png_prefix ++ js "aGVsbG8=")
       {| imageBuffer := map (fun c => N_of_ascii c) (list_ascii_of_string "hello");
          proc_mimeType := js "image/png";
          proc_fileSize := 5 |} eq_refl))))).
Defined.

(** Accepted text decodes to at least one byte when it decodes at all. *)
Lemma accepted_payload_decodes_nonempty (p : jsstring) (bytes : list N) :
  base64Pattern p = true -> p <> [] -> atob p = Some bytes -> bytes <> [].
Proof.
  intros B Hne A.
  destruct (base64Pattern_inv p B) as [body [k [-> [Hb Hk]]]].
  destruct (atob_text_decoded body k bytes Hb A) as [-> [M0 M1]].
  assert (2 <= strlen body) as L.
  { pose proof (strlen_nonneg body) as P. destruct k as [|k].
    - cbn [repeat] in Hne. rewrite app_nil_r in Hne.
      specialize (M0 eq_refl).
      assert (strlen body <> 0) by (intro E; apply strlen_zero_nil in E; congruence).
      destruct (Z.eq_dec (strlen body) 1) as [E|E]; [rewrite E in M0; now elim M0 | lia].
    - destruct (M1 (le_n_S _ _ (Nat.le_0_l k))) as [M K].
      apply Z.div_exact in M; [|discriminate]. lia. }
  intro E. apply (f_equal (@List.length _)) in E.
  rewrite decode_sextets_length, length_map in E. cbn [List.length] in E.
  unfold strlen in L.
  assert (4 <= 3 * List.length body)%nat as L3 by lia.
  pose proof (Nat.Div0.div_le_mono 4 (3 * List.length body) 4 L3) as D.
  rewrite E in D.
  change (4 / 4)%nat with 1%nat in D. lia.
Qed.

(** X10.  Validation and decoding compose: on image data that
    [validateImageData] accepts, [processImageData] either returns a
    result or throws the decoder's InvalidCharacterError; its checks of
    the MIME type, of missing data, of the size ceiling and of an empty
    payload cannot fail any more. *)
Theorem processImageData_after_validation (s : jsstring) :
  isValid (validateImageData (JString s)) = true ->
  (exists p, processImageData s = Ok p)
  \/ processImageData s = Throw (DOMException (js "InvalidCharacterError")).
Proof.
  intro V. destruct (validateImageData_accepts s V) as [p [Hpre [Hsplit [Hne [Hpat Hsize]]]]].
  destruct (BASE64_IMAGE_PREFIX_PATTERN s) as [r|] eqn:Epre; [|congruence].
  assert (exists m, extractMimeTypeFromDataUri s = Some m
                    /\ negb (truthy (JString m)) || negb (mime_allowed m) = false)
    as [m [Em Am]].
  { apply prefix_pattern_inv in Epre as [-> | ->].
    - exists (js "image/png"). split; [apply extract_png | reflexivity].
    - exists (js "image/jpeg"). split; [apply extract_jpeg | reflexivity]. }
  unfold processImageData. rewrite Em, Am, Hsplit.
  destruct p as [|x p]; [congruence|].
  destruct (atob (x :: p)) as [bytes|] eqn:A; [|now right].
  left.
  pose proof (atob_length_bound _ _ A) as Bound.
  pose proof (accepted_payload_decodes_nonempty _ _ Hpat Hne A) as NE.
  replace (Z.of_nat (List.length bytes) >? IMAGE_MAX_SIZE_BYTES) with false
    by (symmetry; rewrite Z.gtb_ltb; apply Z.ltb_ge; lia).
  replace (Z.of_nat (List.length bytes) =? 0) with false.
  - eexists. reflexivity.
  - symmetry. apply Z.eqb_neq. destruct bytes; [congruence | cbn [List.length]; lia].
Qed.

Lemma processImageData_after_validation_witness :
  (exists p, processImageData (png_prefix ++ js "aGVsbG8=") = Ok p)
  \/ processImageData (png_prefix ++ js "aGVsbG8=")
     = Throw (DOMException (js "InvalidCharacterError")).
Proof. exact (processImageData_after_validation (png_prefix ++ js "aGVsbG8=") eq_refl). Defined.

(** X9.  In CameraView [capturePhoto], an image that passes
    [validateImageData] always reaches [onCapture]: the second size check,
    "Image is too large", can never fail, so the only error the two
    checks produce is "Image validation failed: ..." with the validator's
    violations. *)
Theorem checkCapturedImage_only_fails_validation (dataUrl : jsstring) :
  (isValid (validateImageData (JString dataUrl)) = true ->
   checkCapturedImage dataUrl = Ok dataUrl)
  /\ (isValid (validateImageData (JString dataUrl)) = false ->
      errors (validateImageData (JString dataUrl)) <> []
      /\ checkCapturedImage dataUrl
         = Throw (Error (js "Image validation failed: "
                         ++ join (js ", ") (errors (validateImageData (JString dataUrl)))))).
Proof.
  split; intro V.
  - destruct (validateImageData_accepts dataUrl V) as [p [_ [Hsplit [_ [_ Hsize]]]]].
    unfold checkCapturedImage. rewrite V, Hsplit. cbn [negb].
    rewrite estimate_within.
    replace (3 * strlen p <=? 4 * IMAGE_MAX_SIZE_BYTES) with true
      by (symmetry; now apply Z.leb_le).
    reflexivity.
  - split.
    + apply coherent_invalid; [apply validateImageData_coherent | exact V].
    + unfold checkCapturedImage. now rewrite V.
Qed.

Lemma checkCapturedImage_only_fails_validation_witness :
  checkCapturedImage (png_prefix ++ js "aGVsbG8=") = Ok (png_prefix ++ js "aGVsbG8=").
Proof.
  exact (proj1 (checkCapturedImage_only_fails_validation (png_prefix ++ js "aGVsbG8=")) eq_refl).
Defined.

(** ** The listing: metadata and failures *)


Lemma limit_of_bounds (params : PaginationParams) : 1 <= limit_of params <= 50.
Proof. unfold limit_of, MAX_PAGE_SIZE. lia. Qed.






(** ** Listing by owner name *)

Definition count_by_name_query (userName : jsstring) : Query :=
  eq_col "user_name" userName (count_head (from_select "pixel_cards" "*")).

Definition page_by_name_query (userName : jsstring) (offset limit : Z) : Query :=
  range offset (offset + limit - 1)
    (order_desc "created_at" (eq_col "user_name" userName (from_select "pixel_cards" "*"))).

(** X11.  [getPixelCardsByUserName] with a name that is empty or only
    white space throws "User name is required" and sends nothing to the
    backend. *)
Theorem getPixelCardsByUserName_blank
    (b : Backend) (userName : jsstring) (params : PaginationParams) :
  trim userName = [] ->
  getPixelCardsByUserName userName params b
  = (Throw (Error (js "User name is required")),
     [EvConsoleError (js "Failed to get pixel cards by user name:")
        (Error (js "User name is required"))]).
Proof.
  intro T. unfold getPixelCardsByUserName, try_catch. rewrite T.
  change (strlen [] =? 0) with true. rewrite orb_true_r. reflexivity.
Qed.

Lemma getPixelCardsByUserName_blank_witness :
  fst (getPixelCardsByUserName (js "   ") (mkParams None None) sample_backend)
  = Throw (Error (js "User name is required")).
Proof.
  now rewrite (getPixelCardsByUserName_blank sample_backend (js "   ") (mkParams None None) eq_refl).
Defined.

Lemma window_In (a b : Z) (l : list PixelCardRow) (r : PixelCardRow) :
  In r (Reference.window a b l) -> In r l.
Proof.
  unfold Reference.window. intro H. apply In_firstn in H.
  revert H. generalize (Z.to_nat a). intros n. revert l.
  induction n as [|n IH]; intros [|x l]; cbn [skipn]; try tauto.
  intro H. right. now apply IH.
Qed.

Lemma sort_desc_In (instant : jsstring -> Z) (l : list PixelCardRow) (r : PixelCardRow) :
  In r (Reference.sort_desc instant l) -> In r l.
Proof.
  induction l as [|x l IH]; cbn [Reference.sort_desc fold_right]; [tauto|].
  intro H. apply insert_desc_In in H as [-> | H]; [now left | right; now apply IH].
Qed.

Lemma window_length (a l : Z) (rows : list PixelCardRow) :
  1 <= l -> Z.of_nat (List.length (Reference.window a (a + l - 1) rows)) <= l.
Proof.
  intro L. unfold Reference.window.
  replace (a + l - 1 - a + 1) with l by lia.
  pose proof (firstn_le_length (Z.to_nat l) (skipn (Z.to_nat a) rows)). lia.
Qed.

Lemma not_blank_guard (userName : jsstring) :
  trim userName <> [] ->
  negb (truthy (JString userName)) || (strlen (trim userName) =? 0) = false.
Proof.
  intro T. apply orb_false_iff. split.
  - destruct userName; [now elim T | reflexivity].
  - apply Z.eqb_neq. intro E. now apply strlen_zero_nil in E.
Qed.

Lemma getPixelCardsByUserName_no_rows
    (b : Backend) (userName : jsstring) (params : PaginationParams) :
  trim userName <> [] ->
  error (select_rows b (count_by_name_query userName)) = None ->
  or_default (count (select_rows b (count_by_name_query userName))) 0 = 0 ->
  getPixelCardsByUserName userName params b =
    (Ok {| pixelCards := [];
           pagination := {| page := page_of params; limit := limit_of params;
                            total := 0; totalPages := 0 |} |},
     [EvSelect (count_by_name_query userName)]).
Proof.
  intros T He Hc. unfold getPixelCardsByUserName, try_catch, bind, await_rows.
  rewrite (not_blank_guard _ T). fold (count_by_name_query userName).
  rewrite He, Hc. reflexivity.
Qed.

Lemma getPixelCardsByUserName_some_rows
    (b : Backend) (userName : jsstring) (params : PaginationParams) :
  let offset := (page_of params - 1) * limit_of params in
  let total := or_default (count (select_rows b (count_by_name_query userName))) 0 in
  let reply := select_rows b (page_by_name_query userName offset (limit_of params)) in
  trim userName <> [] ->
  error (select_rows b (count_by_name_query userName)) = None ->
  total <> 0 ->
  error reply = None ->
  getPixelCardsByUserName userName params b =
    (Ok {| pixelCards :=
             map PixelCardRepository.transformRowToResponse
                 (match data reply with Some d => d | None => [] end);
           pagination := {| page := page_of params; limit := limit_of params;
                            total := total;
                            totalPages := ceil_div total (limit_of params) |} |},
     [EvSelect (count_by_name_query userName);
      EvSelect (page_by_name_query userName offset (limit_of params))]).
Proof.
  intros offset total reply T He Ht Hr.
  unfold getPixelCardsByUserName, try_catch, bind, await_rows.
  rewrite (not_blank_guard _ T). fold (count_by_name_query userName).
  rewrite He. fold total. apply Z.eqb_neq in Ht. rewrite Ht.
  fold (page_of params). fold (limit_of params). fold offset.
  fold (page_by_name_query userName offset (limit_of params)). fold reply. rewrite Hr.
  reflexivity.
Qed.

(** X12.  Over a backend that keeps its rows in a list, for a name that
    is not blank [getPixelCardsByUserName] returns; every card it returns
    carries exactly the name asked for, the cards are in descending order
    of creation time and at most [limit] many, and the total is the
    number of stored rows with that name. *)
Theorem getPixelCardsByUserName_filters
    (instant : jsstring -> Z) (new_id now : jsstring) (rows : list PixelCardRow)
    (userName : jsstring) (params : PaginationParams) :
  trim userName <> [] ->
  exists (resp : GalleryResponse) (trace : list Event),
    getPixelCardsByUserName userName params
      (Reference.table_backend instant new_id now rows) = (Ok resp, trace)
    /\ (forall card, In card (pixelCards resp) -> resp_userName card = userName)
    /\ StronglySorted (response_desc instant) (pixelCards resp)
    /\ Z.of_nat (List.length (pixelCards resp)) <= limit_of params
    /\ total (pagination resp)
       = Z.of_nat (List.length (filter (fun r => str_eqb (user_name r) userName) rows)).
Proof.
  intro T.
  set (b := Reference.table_backend instant new_id now rows).
  set (named := filter (fun r => str_eqb (user_name r) userName) rows).
  assert (error (select_rows b (count_by_name_query userName)) = None) as He by reflexivity.
  assert (count (select_rows b (count_by_name_query userName))
          = Some (Z.of_nat (List.length named))) as Hc by reflexivity.
  assert (or_default (count (select_rows b (count_by_name_query userName))) 0
          = Z.of_nat (List.length named)) as Ht.
  { rewrite Hc. unfold or_default.
    destruct (Z.of_nat (List.length named) =? 0) eqn:E; [|reflexivity].
    apply Z.eqb_eq in E. now rewrite E. }
  destruct (Z.eq_dec (Z.of_nat (List.length named)) 0) as [E0 | N0].
  - eexists; eexists. split.
    + apply getPixelCardsByUserName_no_rows; [exact T | exact He | now rewrite Ht].
    + cbn [pixelCards pagination total].
      split; [intros card []|]. split; [constructor|]. split.
      * cbn [List.length]. pose proof (limit_of_bounds params). lia.
      * now rewrite E0.
  - eexists; eexists. split.
    + apply getPixelCardsByUserName_some_rows;
        [exact T | exact He | now rewrite Ht | reflexivity].
    + cbn [pixelCards pagination total].
      assert (data (select_rows b
                (page_by_name_query userName ((page_of params - 1) * limit_of params)
                   (limit_of params)))
              = Some (Reference.window ((page_of params - 1) * limit_of params)
                        ((page_of params - 1) * limit_of params + limit_of params - 1)
                        (Reference.sort_desc instant named))) as Hd by reflexivity.
      rewrite Hd.
      split; [|split; [|split; [|exact Ht]]].
      * intros card H. apply in_map_iff in H as [r [<- Hr]].
        apply window_In, sort_desc_In in Hr. unfold named in Hr.
        apply filter_In in Hr as [_ Hr]. now apply str_eqb_eq in Hr.
      * apply responses_sorted, window_sorted, sort_desc_sorted.
      * rewrite length_map. apply window_length. apply limit_of_bounds.
Qed.

Lemma getPixelCardsByUserName_filters_witness :
  exists resp trace,
    getPixelCardsByUserName (js "Ada") (mkParams None None)
      (Reference.table_backend (fun _ => 0) [] []
         [sample_row "a.png" "image/png" "2024-01-15T10:30:00.123456+00:00"])
    = (Ok resp, trace)
    /\ total (pagination resp) = 1.
Proof.
  destruct (getPixelCardsByUserName_filters (fun _ => 0) [] []
              [sample_row "a.png" "image/png" "2024-01-15T10:30:00.123456+00:00"]
              (js "Ada") (mkParams None None))
    as [resp [trace [E [_ [_ [_ Tot]]]]]].
  - discriminate.
  - exists resp, trace. split; [exact E | exact Tot].
Defined.

(** ** Recent cards *)

Definition recent_query (n : jsnum) : Query :=
  limit_to n (order_desc "created_at" (from_select "pixel_cards" "*")).

Lemma insert_desc_length (instant : jsstring -> Z) (x : PixelCardRow)
    (l : list PixelCardRow) :
  List.length (Reference.insert_desc instant x l) = S (List.length l).
Proof.
  induction l as [|y l IH]; [reflexivity|]. cbn [Reference.insert_desc].
  destruct (Reference.newer_or_same instant y x); cbn [List.length];
    [now rewrite IH | reflexivity].
Qed.

Lemma sort_desc_length (instant : jsstring -> Z) (rows : list PixelCardRow) :
  List.length (Reference.sort_desc instant rows) = List.length rows.
Proof.
  induction rows as [|r rows IH]; [reflexivity|].
  cbn [Reference.sort_desc fold_right]. rewrite insert_desc_length.
  cbn [List.length]. f_equal. exact IH.
Qed.

(** The limit [getRecentPixelCards] works with: the argument, or 6. *)
Definition asked_limit (limit : option jsnum) : jsnum :=
  match limit with
  | Some n => n
  | None => num_of_Z 6
  end.

(** [Math.min(Math.max(1, limit), MAX_PAGE_SIZE)] *)
Definition clamped_limit (limit : option jsnum) : jsnum :=
  Math_min (Math_max (num_of_Z 1) (asked_limit limit)) (num_of_Z 50).

Lemma clamped_limit_bounds (limit : option jsnum) :
  asked_limit limit <> NaN ->
  num_leb (num_of_Z 1) (clamped_limit limit) = true
  /\ num_leb (clamped_limit limit) (num_of_Z 50) = true.
Proof.
  intro N. unfold clamped_limit.
  destruct (Math_max_one _ N) as [M1 M2].
  destruct (Math_max (num_of_Z 1) (asked_limit limit)) as [| | |q]; try congruence.
  - split; reflexivity.
  - discriminate.
  - unfold Math_min, num_of_Z in *. cbn [num_leb] in *.
    destruct (Qle_bool q (inject_Z 50)) eqn:C; cbn [num_leb].
    + split; assumption.
    + split; [reflexivity | apply Qle_bool_refl].
Qed.

Lemma clamped_limit_whole (z : Z) :
  clamped_limit (Some (num_of_Z z)) = num_of_Z (Z.min (Z.max 1 z) 50).
Proof.
  unfold clamped_limit, asked_limit.
  assert (Math_max (num_of_Z 1) (num_of_Z z) = num_of_Z (Z.max 1 z)) as E.
  { unfold Math_max, num_of_Z. fold (num_of_Z 1). fold (num_of_Z z).
    rewrite num_leb_whole. destruct (1 <=? z) eqn:C.
    - apply Z.leb_le in C. now rewrite Z.max_r.
    - apply Z.leb_gt in C. rewrite Z.max_l by lia. reflexivity. }
  rewrite E.
  unfold Math_min, num_of_Z. fold (num_of_Z (Z.max 1 z)). fold (num_of_Z 50).
  rewrite num_leb_whole. destruct (Z.max 1 z <=? 50) eqn:C.
  - apply Z.leb_le in C. now rewrite Z.min_l.
  - apply Z.leb_gt in C. rewrite Z.min_r by lia. reflexivity.
Qed.

Lemma whole_number_whole (z : Z) : Reference.whole_number (num_of_Z z) = Some z.
Proof.
  unfold Reference.whole_number, num_of_Z. rewrite Qfloor_Z.
  now rewrite Qeq_bool_refl.
Qed.

(** X15.  [getRecentPixelCards] sends one request, for the newest rows
    first, with the limit [Math.min(Math.max(1, limit), 50)], the limit
    being 6 when left out: for every limit that is a number this is
    between 1 and 50, but a limit of NaN is passed on as NaN.  A backend
    error is thrown as "Failed to fetch recent pixel cards: ...",
    otherwise the rows are returned in the order received.  Over a backend
    that keeps its rows in a list, a whole-number limit gives the newest
    cards first, [min (clamped limit, number of rows)] of them. *)
Theorem getRecentPixelCards_contract (b : Backend) (limit : option jsnum) :
  (asked_limit limit <> NaN ->
   num_leb (num_of_Z 1) (clamped_limit limit) = true
   /\ num_leb (clamped_limit limit) (num_of_Z 50) = true)
  /\ (asked_limit limit = NaN -> clamped_limit limit = NaN)
  /\ (forall e, error (select_rows b (recent_query (clamped_limit limit))) = Some e ->
      getRecentPixelCards limit b
      = (Throw (Error (js "Failed to fetch recent pixel cards: " ++ message e)),
         [EvSelect (recent_query (clamped_limit limit));
          EvConsoleError (js "Failed to get recent pixel cards:")
            (Error (js "Failed to fetch recent pixel cards: " ++ message e))]))
  /\ (error (select_rows b (recent_query (clamped_limit limit))) = None ->
      getRecentPixelCards limit b
      = (Ok (map PixelCardRepository.transformRowToResponse
               (match data (select_rows b (recent_query (clamped_limit limit))) with
                | Some d => d
                | None => []
                end)),
         [EvSelect (recent_query (clamped_limit limit))]))
  /\ (forall (z : Z) (instant : jsstring -> Z) (new_id now : jsstring)
             (rows : list PixelCardRow),
      getRecentPixelCards (Some (num_of_Z z))
        (Reference.table_backend instant new_id now rows)
      = (Ok (map PixelCardRepository.transformRowToResponse
               (firstn (Z.to_nat (Z.min (Z.max 1 z) 50))
                       (Reference.sort_desc instant rows))),
         [EvSelect (recent_query (num_of_Z (Z.min (Z.max 1 z) 50)))])
      /\ StronglySorted (response_desc instant)
           (map PixelCardRepository.transformRowToResponse
              (firstn (Z.to_nat (Z.min (Z.max 1 z) 50))
                      (Reference.sort_desc instant rows)))
      /\ Z.of_nat (List.length
                     (firstn (Z.to_nat (Z.min (Z.max 1 z) 50))
                             (Reference.sort_desc instant rows)))
         = Z.min (Z.min (Z.max 1 z) 50) (Z.of_nat (List.length rows))).
Proof.
  assert (forall l b0,
            error (select_rows b0 (recent_query (clamped_limit l))) = None ->
            getRecentPixelCards l b0
            = (Ok (map PixelCardRepository.transformRowToResponse
                     (match data (select_rows b0 (recent_query (clamped_limit l))) with
                      | Some d => d
                      | None => []
                      end)),
               [EvSelect (recent_query (clamped_limit l))])) as OkCase.
  { intros l b0 He. unfold getRecentPixelCards, try_catch, bind, await_rows.
    unfold MAX_PAGE_SIZE. fold (asked_limit l). fold (clamped_limit l).
    fold (recent_query (clamped_limit l)). rewrite He. reflexivity. }
  split; [apply clamped_limit_bounds|]. split; [|split; [|split]].
  - intro N. unfold clamped_limit. now rewrite N.
  - intros e He. unfold getRecentPixelCards, try_catch, bind, await_rows.
    unfold MAX_PAGE_SIZE. fold (asked_limit limit). fold (clamped_limit limit).
    fold (recent_query (clamped_limit limit)). rewrite He. reflexivity.
  - apply OkCase.
  - intros z instant new_id now rows.
    set (c := Z.min (Z.max 1 z) 50).
    assert (select_rows (Reference.table_backend instant new_id now rows)
              (recent_query (clamped_limit (Some (num_of_Z z))))
            = mkReply (Some (firstn (Z.to_nat c) (Reference.sort_desc instant rows)))
                      None None) as R.
    { rewrite clamped_limit_whole. fold c.
      cbn [Reference.table_backend select_rows]. unfold Reference.table_select_rows.
      unfold Reference.bad_limit, Reference.selected.
      cbn [recent_query limit_to order_desc from_select q_limit q_count_head q_eq
           q_order_desc q_range Reference.matching].
      rewrite whole_number_whole.
      replace (c <? 0) with false by (symmetry; apply Z.ltb_ge; unfold c; lia).
      reflexivity. }
    split; [|split].
    + rewrite (OkCase (Some (num_of_Z z))) by (now rewrite R).
      rewrite R. cbn [data]. rewrite clamped_limit_whole. reflexivity.
    + apply responses_sorted, sorted_firstn, sort_desc_sorted.
    + rewrite length_firstn, sort_desc_length. unfold c. lia.
Qed.

Lemma getRecentPixelCards_contract_witness :
  getRecentPixelCards None
    (Reference.failing_backend (mkPgError (js "57014") (js "timeout")))
  = (Throw (Error (js "Failed to fetch recent pixel cards: timeout")),
     [EvSelect (recent_query (num_of_Z 6));
      EvConsoleError (js "Failed to get recent pixel cards:")
        (Error (js "Failed to fetch recent pixel cards: timeout"))])
  /\ num_leb (clamped_limit (Some PInf)) (num_of_Z 50) = true
  /\ getRecentPixelCards (Some (num_of_Z 2)) (stocked_backend three_rows)
     = (Ok [PixelCardRepository.transformRowToResponse (row_at "c" "2024-03-01T00:00:00Z");
            PixelCardRepository.transformRowToResponse (row_at "a" "2024-02-01T00:00:00Z")],
        [EvSelect (recent_query (num_of_Z 2))]).
Proof.
  split; [|split].
  - exact (proj1 (proj2 (proj2 (getRecentPixelCards_contract
                           (Reference.failing_backend (mkPgError (js "57014") (js "timeout")))
                           None)))
             (mkPgError (js "57014") (js "timeout")) eq_refl).
  - apply (proj1 (getRecentPixelCards_contract sample_backend (Some PInf))).
    discriminate.
  - unfold stocked_backend.
    rewrite (proj1 (proj2 (proj2 (proj2 (proj2
               (getRecentPixelCards_contract sample_backend None))))
               2 stored_instant [] [] three_rows)).
    reflexivity.
Defined.

(** ** Identifiers *)

Lemma match_classes_Forall2 (classes : list (char16 -> bool)) (s : jsstring) :
  match_classes classes s = true -> Forall2 (fun p c => p c = true) classes s.
Proof.
  revert s. induction classes as [|p classes IH]; intros [|c s] H; try discriminate.
  - constructor.
  - cbn [match_classes] in H. apply andb_true_iff in H as [H1 H2].
    constructor; [exact H1 | now apply IH].
Qed.

Lemma digit_1_5_is_hex (c : char16) : in_range (cu "1") (cu "5") c = true -> is_hex c = true.
Proof.
  unfold is_hex, is_digit, in_range, cu. cbn [N_of_ascii N_of_digits N.add N.mul].
  intro H. apply andb_true_iff in H as [A B]. apply N.leb_le in A, B.
  apply orb_true_iff. left. apply orb_true_iff. left.
  apply andb_true_iff. split; apply N.leb_le; lia.
Qed.

Lemma variant_is_hex (c : char16) :
  char_eqb c (cu "8") || char_eqb c (cu "9") || char_eqb c (cu "a") || char_eqb c (cu "b")
  || char_eqb c (cu "A") || char_eqb c (cu "B") = true ->
  is_hex c = true.
Proof.
  intro H. repeat (apply orb_true_iff in H as [H | H]); apply char_eqb_eq in H; now subst.
Qed.

(** X17.  An identifier that [isValidUUID] accepts has exactly 36 code
    units, each a hexadecimal digit or a hyphen, with the hyphens at
    positions 8, 13, 18 and 23. *)
Theorem isValidUUID_shape (uuid : jsstring) :
  isValidUUID uuid = true ->
  strlen uuid = 36
  /\ (forall c, In c uuid -> is_hex c = true \/ c = cu "-")
  /\ nth_error uuid 8 = Some (cu "-") /\ nth_error uuid 13 = Some (cu "-")
  /\ nth_error uuid 18 = Some (cu "-") /\ nth_error uuid 23 = Some (cu "-").
Proof.
  intro V. apply match_classes_Forall2 in V.
  assert (Forall (fun p => forall c, p c = true -> is_hex c = true \/ c = cu "-") uuidRegex)
    as Cl.
  { unfold uuidRegex. cbn [repeat app].
    repeat (apply Forall_cons; [|]);
      try apply Forall_nil;
      intros c H;
      first [ left; exact H
            | right; now apply char_eqb_eq in H
            | left; now apply digit_1_5_is_hex
            | left; now apply variant_is_hex ]. }
  split; [|split].
  - unfold strlen. now rewrite <- (Forall2_length V).
  - intros c Hc.
    assert (forall cs s, Forall2 (fun p c => p c = true) cs s ->
              Forall (fun p => forall c, p c = true -> is_hex c = true \/ c = cu "-") cs ->
              forall c, In c s -> is_hex c = true \/ c = cu "-") as G.
    { clear. intros cs s F. induction F as [|p x cs s Hp F IH]; intros A c [].
      - subst. inversion A; subst. auto.
      - inversion A; subst. now apply IH. }
    exact (G _ _ V Cl c Hc).
  - unfold uuidRegex in V. cbn [repeat app] in V.
    repeat match goal with
           | H : Forall2 _ (_ :: _) _ |- _ => inversion H; clear H; subst
           | H : Forall2 _ [] _ |- _ => inversion H; clear H; subst
           end.
    cbn [nth_error].
    repeat match goal with
           | H : is_dash _ = true |- _ => apply char_eqb_eq in H; subst
           end.
    repeat split.
Qed.

Lemma isValidUUID_shape_witness :
  strlen (js "123e4567-e89b-42d3-a456-426614174000") = 36.
Proof.
  exact (proj1 (isValidUUID_shape (js "123e4567-e89b-42d3-a456-426614174000") eq_refl)).
Defined.

(** X16.  Over a backend that keeps its rows in a list, the existence
    check and the lookup agree: [pixelCardExists] gives [true] exactly
    when [getPixelCardById] returns a card, and the card returned carries
    the identifier asked for. *)
Theorem pixelCardExists_agrees_with_getPixelCardById
    (h : Host) (instant : jsstring -> Z) (new_id now : jsstring)
    (rows : list PixelCardRow) (id : jsstring) :
  let b := Reference.table_backend instant new_id now rows in
  (fst (pixelCardExists id b) = Ok true
   <-> exists card, fst (getPixelCardById h id b) = Ok (Some card))
  /\ (forall card, fst (getPixelCardById h id b) = Ok (Some card) -> Types.id card = id).
Proof.
  intro b.
  unfold pixelCardExists, getPixelCardById, try_catch, bind, await_single, await_single_id.
  destruct (isValidUUID id) eqn:V; cbn [negb].
  - cbn [b Reference.table_backend select_single select_single_id].
    unfold Reference.table_select_single, Reference.table_select_single_id.
    assert (Reference.selected instant
              (single (eq_col "id" id (from_select "pixel_cards" "*"))) rows
            = filter (fun r => str_eqb (row_id r) id) rows) as S1 by reflexivity.
    assert (Reference.selected instant
              (single (eq_col "id" id (from_select "pixel_cards" "id"))) rows
            = filter (fun r => str_eqb (row_id r) id) rows) as S2 by reflexivity.
    rewrite S1, S2.
    destruct (filter (fun r => str_eqb (row_id r) id) rows) as [|r [|r' l]] eqn:F.
    + cbn. split; [split; [discriminate | intros [card H]; discriminate] | discriminate].
    + cbn. split.
      * split; [intros _; eexists; reflexivity | reflexivity].
      * intros card H. injection H as <-. cbn [Types.id transformRowToPixelCard].
        assert (In r (filter (fun r => str_eqb (row_id r) id) rows)) as I
          by (rewrite F; now left).
        apply filter_In in I as [_ I]. now apply str_eqb_eq in I.
    + cbn. split; [split; [discriminate | intros [card H]; discriminate] | discriminate].
  - cbn. split; [split; [discriminate | intros [card H]; discriminate] | discriminate].
Qed.

(** ** The save operation past validation *)

(** Where the image of a request is stored, and how. *)
Definition storage_path (env : Env) (p : ProcessedImage) : jsstring :=
  generateImagePath env (generateUniqueFilename env (proc_mimeType p)).

Definition upload_options (p : ProcessedImage) : UploadOptions :=
  {| contentType := proc_mimeType p; cacheControl := js "3600"; upsert := false |}.

Definition insert_payload (env : Env) (request : CreatePixelCardRequest)
    (p : ProcessedImage) (imageUrl : jsstring) : PixelCardInsertPayload :=
  {| ins_user_name := req_userName request;
     ins_image_path := storage_path env p;
     ins_image_url := imageUrl;
     ins_file_size := proc_fileSize p;
     ins_mime_type := proc_mimeType p |}.

Definition save_label : jsstring := js "Failed to save pixel card:".

Lemma validateCreateRequest_accepts (request : CreatePixelCardRequest) :
  isValid (validateCreatePixelCardRequest (request_value request)) = true ->
  validateCreateRequest request = Ok tt.
Proof. intro V. unfold validateCreateRequest. now rewrite V. Qed.

(** X18.  When the upload fails, [savePixelCard] throws "Storage upload
    failed: ..." and goes no further: the only request sent is the upload
    itself; no public URL is asked for and no row is inserted. *)
Theorem savePixelCard_upload_failure
    (env : Env) (request : CreatePixelCardRequest) (b : Backend)
    (p : ProcessedImage) (e : PgError) :
  isValid (validateCreatePixelCardRequest (request_value request)) = true ->
  processImageData (req_imageData request) = Ok p ->
  upload_error (storage_upload b STORAGE_BUCKET (storage_path env p) (imageBuffer p)
                  (upload_options p)) = Some e ->
  savePixelCard env request b
  = (Throw (Error (js "Storage upload failed: " ++ message e)),
     [EvUpload STORAGE_BUCKET (storage_path env p) (imageBuffer p) (upload_options p);
      EvConsoleError save_label (Error (js "Storage upload failed: " ++ message e))]).
Proof.
  intros V P U.
  unfold savePixelCard, uploadImage, try_catch, bind, lift, await_upload.
  rewrite (validateCreateRequest_accepts _ V), P. cbv beta iota zeta.
  fold (storage_path env p). fold (upload_options p). rewrite U. reflexivity.
Qed.

Definition failing_storage (e : PgError) : Backend :=
  {| select_rows := select_rows sample_backend;
     select_single := select_single sample_backend;
     select_single_id := select_single_id sample_backend;
     insert_single := insert_single sample_backend;
     storage_upload := fun _ _ _ _ => mkUploadReply None (Some e);
     storage_getPublicUrl := storage_getPublicUrl sample_backend |}.

Definition failing_insert (e : PgError) : Backend :=
  {| select_rows := select_rows sample_backend;
     select_single := select_single sample_backend;
     select_single_id := select_single_id sample_backend;
     insert_single := fun _ => mkReply None (Some e) None;
     storage_upload := storage_upload sample_backend;
     storage_getPublicUrl := storage_getPublicUrl sample_backend |}.

Definition sample_request : CreatePixelCardRequest :=
  {| req_userName := js "Ada"; req_imageData := png_prefix ++ js "aGVsbG8=" |}.

Definition sample_image : ProcessedImage :=
  {| imageBuffer := map (fun c => N_of_ascii c) (list_ascii_of_string "hello");
     proc_mimeType := js "image/png";
     proc_fileSize := 5 |}.

Lemma savePixelCard_upload_failure_witness :
  savePixelCard sample_env sample_request
    (failing_storage (mkPgError (js "413") (js "too large")))
  = (Throw (Error (js "Storage upload failed: too large")),
     [EvUpload STORAGE_BUCKET (js "2024/01/123e4567-e89b-42d3-a456-426614174000.png")
        (imageBuffer sample_image) (upload_options sample_image);
      EvConsoleError save_label (Error (js "Storage upload failed: too large"))]).
Proof.
  exact (savePixelCard_upload_failure sample_env sample_request
           (failing_storage (mkPgError (js "413") (js "too large")))
           sample_image (mkPgError (js "413") (js "too large")) eq_refl eq_refl eq_refl).
Defined.

(** X19.  When the insert fails after a successful upload,
    [savePixelCard] throws "Database insert failed: ..."; by then the
    image has been uploaded and its public URL obtained, and nothing
    follows the failed insert but the log line: the stored image is left
    in place. *)
Theorem savePixelCard_insert_failure
    (env : Env) (request : CreatePixelCardRequest) (b : Backend)
    (p : ProcessedImage) (path url : jsstring) (e : PgError) :
  isValid (validateCreatePixelCardRequest (request_value request)) = true ->
  processImageData (req_imageData request) = Ok p ->
  storage_upload b STORAGE_BUCKET (storage_path env p) (imageBuffer p) (upload_options p)
  = mkUploadReply (Some path) None ->
  path <> [] ->
  storage_getPublicUrl b STORAGE_BUCKET path = Some url ->
  url <> [] ->
  error (insert_single b (insert_payload env request p url)) = Some e ->
  savePixelCard env request b
  = (Throw (Error (js "Database insert failed: " ++ message e)),
     [EvUpload STORAGE_BUCKET (storage_path env p) (imageBuffer p) (upload_options p);
      EvGetPublicUrl STORAGE_BUCKET path;
      EvInsert (insert_payload env request p url);
      EvConsoleError save_label (Error (js "Database insert failed: " ++ message e))]).
Proof.
  intros V P U Np G Nu I.
  unfold savePixelCard, uploadImage, saveToDatabase, try_catch, bind, lift, await_upload,
    getPublicUrl, await_insert, ret.
  rewrite (validateCreateRequest_accepts _ V), P. cbv beta iota zeta.
  fold (storage_path env p). fold (upload_options p). rewrite U.
  cbn [upload_error upload_path].
  destruct path as [|c path]; [congruence|]. rewrite G.
  destruct url as [|u url]; [congruence|]. cbv beta iota zeta.
  fold (insert_payload env request p (u :: url)). rewrite I. reflexivity.
Qed.

Lemma savePixelCard_insert_failure_witness :
  fst (savePixelCard sample_env sample_request
         (failing_insert (mkPgError (js "23505") (js "duplicate key"))))
  = Throw (Error (js "Database insert failed: duplicate key")).
Proof.
  now rewrite (savePixelCard_insert_failure sample_env sample_request
                 (failing_insert (mkPgError (js "23505") (js "duplicate key")))
                 sample_image
                 (js "2024/01/123e4567-e89b-42d3-a456-426614174000.png")
                 (js "https://project.supabase.co/storage/v1/object/public/pixel-images/2024/01/123e4567-e89b-42d3-a456-426614174000.png")
                 (mkPgError (js "23505") (js "duplicate key"))
                 eq_refl eq_refl eq_refl ltac:(discriminate) eq_refl ltac:(discriminate)
                 eq_refl).
Defined.

(** X20.  When every step succeeds, [savePixelCard] sends exactly three
    requests in this order: the upload of the decoded bytes under the
    generated path with the image's MIME type as content type, the
    request for the public URL of the path the upload reported, and the
    insert of a row holding the name as given in the request, the
    generated path, that URL, the decoded size and the MIME type.  It
    returns identifier, name, URL and size of the row the backend sends
    back, with the creation time as ISO text; if that row's time stamp
    cannot be read it throws a RangeError although the row is stored. *)
Theorem savePixelCard_success
    (env : Env) (request : CreatePixelCardRequest) (b : Backend)
    (p : ProcessedImage) (path url : jsstring) (row : PixelCardRow) :
  isValid (validateCreatePixelCardRequest (request_value request)) = true ->
  processImageData (req_imageData request) = Ok p ->
  storage_upload b STORAGE_BUCKET (storage_path env p) (imageBuffer p) (upload_options p)
  = mkUploadReply (Some path) None ->
  path <> [] ->
  storage_getPublicUrl b STORAGE_BUCKET path = Some url ->
  url <> [] ->
  insert_single b (insert_payload env request p url) = mkReply (Some row) None None ->
  (forall t, Date_parse (host env) (created_at row) = Some t ->
     savePixelCard env request b
     = (Ok {| resp_id := row_id row;
              resp_userName := user_name row;
              resp_imageUrl := image_url row;
              resp_createdAt := Date_iso (host env) t;
              resp_fileSize := file_size row |},
        [EvUpload STORAGE_BUCKET (storage_path env p) (imageBuffer p) (upload_options p);
         EvGetPublicUrl STORAGE_BUCKET path;
         EvInsert (insert_payload env request p url)]))
  /\ (Date_parse (host env) (created_at row) = None ->
      savePixelCard env request b
      = (Throw (RangeError (js "Invalid time value")),
         [EvUpload STORAGE_BUCKET (storage_path env p) (imageBuffer p) (upload_options p);
          EvGetPublicUrl STORAGE_BUCKET path;
          EvInsert (insert_payload env request p url);
          EvConsoleError save_label (RangeError (js "Invalid time value"))])).
Proof.
  intros V P U Np G Nu I.
  destruct path as [|c path]; [congruence|].
  destruct url as [|u url]; [congruence|].
  split.
  - intros t D.
    unfold savePixelCard, uploadImage, saveToDatabase, try_catch, bind, lift, await_upload,
      getPublicUrl, await_insert, ret, transformToResponse, toISOString.
    rewrite (validateCreateRequest_accepts _ V), P. cbv beta iota zeta.
    fold (storage_path env p). fold (upload_options p). rewrite U.
    cbn [upload_error upload_path]. rewrite G. cbv beta iota zeta.
    fold (insert_payload env request p (u :: url)). rewrite I.
    cbn [error data createdAt]. unfold new_Date. rewrite D. reflexivity.
  - intro D.
    unfold savePixelCard, uploadImage, saveToDatabase, try_catch, bind, lift, await_upload,
      getPublicUrl, await_insert, ret, transformToResponse, toISOString.
    rewrite (validateCreateRequest_accepts _ V), P. cbv beta iota zeta.
    fold (storage_path env p). fold (upload_options p). rewrite U.
    cbn [upload_error upload_path]. rewrite G. cbv beta iota zeta.
    fold (insert_payload env request p (u :: url)). rewrite I.
    cbn [error data createdAt]. unfold new_Date. rewrite D. reflexivity.
Qed.

Lemma savePixelCard_success_witness :
  fst (savePixelCard sample_env sample_request sample_backend)
  = Ok {| resp_id := js "123e4567-e89b-42d3-a456-426614174000";
          resp_userName := js "Ada";
          resp_imageUrl :=
            js "https://project.supabase.co/storage/v1/object/public/pixel-images/2024/01/123e4567-e89b-42d3-a456-426614174000.png";
          resp_createdAt := js "2024-01-15T10:30:00.123Z";
          resp_fileSize := 5 |}.
Proof.
  now rewrite (proj1 (savePixelCard_success sample_env sample_request sample_backend
                        sample_image
                        (js "2024/01/123e4567-e89b-42d3-a456-426614174000.png")
                        (js "https://project.supabase.co/storage/v1/object/public/pixel-images/2024/01/123e4567-e89b-42d3-a456-426614174000.png")
                        _ eq_refl eq_refl eq_refl ltac:(discriminate) eq_refl
                        ltac:(discriminate) eq_refl)
                 1705314600123 eq_refl).
Defined.

(** ** Instances *)

Lemma sanitizeUserName_shape_witness :
  sanitizeUserName (JString (js "  Grace   B.  Hopper  ")) = js "Grace B. Hopper"
  /\ forall c, In c (js "Grace B. Hopper") -> is_js_whitespace c = true -> c = cu " ".
Proof.
  split; [reflexivity|].
  exact (proj1 (proj2 (proj2
           (sanitizeUserName_shape (JString (js "  Grace   B.  Hopper  ")))))).
Defined.

Lemma prefix_test_and_mime_extraction_agree_witness :
  exists m, extractAndValidateMimeType (jpeg_prefix ++ js "AAAA") = Ok m.
Proof.
  apply (proj1 (proj1 (prefix_test_and_mime_extraction_agree (jpeg_prefix ++ js "AAAA")))).
  discriminate.
Defined.

Lemma pixelCardExists_agrees_with_getPixelCardById_witness :
  exists card,
    fst (getPixelCardById Reference.iso_host (js "123e4567-e89b-42d3-a456-426614174000")
           (Reference.table_backend (fun _ => 0) [] []
              [sample_row "a.png" "image/png" "2024-01-15T10:30:00.123456+00:00"]))
    = Ok (Some card).
Proof.
  apply (proj1 (proj1 (pixelCardExists_agrees_with_getPixelCardById Reference.iso_host
                         (fun _ => 0) [] []
                         [sample_row "a.png" "image/png" "2024-01-15T10:30:00.123456+00:00"]
                         (js "123e4567-e89b-42d3-a456-426614174000")))).
  reflexivity.
Defined.
